(** * A shallow embedding of the resume backend (server.js)

    The server is an Express application.  Its handlers are embedded as
    computations in a small state-and-exception monad; the JavaScript values
    they manipulate are embedded as an inductive type with the conversions of
    the ECMAScript specification (ToBoolean, ToNumber, ToString, property
    access, Math.min / Math.max, the two regular-expression replacements and
    String.prototype.trim / includes / toLowerCase).

    Everything the server does not define itself (the extraction libraries,
    the file system, the LLM endpoint, the document renderers, JSON.parse and
    the two numeric conversions between strings and doubles) is a field of a
    [host] record, over which every result is universally quantified.  The
    headless browser of POST /api/generate-analysis-pdf is a [chrome]
    record, and utils/jobFetcher.js is embedded in a module of its own. *)

From Stdlib Require Import ZArith NArith Lia Bool Ascii String.
From Stdlib Require Import Floats.SpecFloat.
From stdpp Require Import base option list gmap.

Local Open Scope Z_scope.
Set Warnings "-register-all".


(** ** JavaScript numbers, strings and values *)

Module JS.

(** A JavaScript number is an IEEE 754 binary64 value. *)
Definition number : Type := spec_float.

Definition prec : Z := 53.
Definition emax : Z := 1024.

Definition NaN : number := S754_nan.
Definition pos_zero : number := S754_zero false.
Definition neg_zero : number := S754_zero true.
Definition pos_infinity : number := S754_infinity false.
Definition neg_infinity : number := S754_infinity true.

(** The double denoting an integer literal of the source. *)
Definition num_of_Z (z : Z) : number := binary_normalize prec emax z 0 false.

Definition is_nan (n : number) : bool :=
  match n with S754_nan => true | _ => false end.

Definition is_zero (n : number) : bool :=
  match n with S754_zero _ => true | _ => false end.

(** [a < b] and [a <= b] on numbers; both are false when an operand is NaN. *)
Definition num_lt (a b : number) : bool := SFltb a b.
Definition num_le (a b : number) : bool := SFleb a b.

(** Math.max(...args): NaN if any argument is NaN; +0 is larger than -0. *)
Definition max_step (acc : option number) (n : number) : option number :=
  match acc with
  | None => None
  | Some highest =>
      if is_nan n then None
      else match n, highest with
           | S754_zero false, S754_zero true => Some n
           | _, _ => if num_lt highest n then Some n else Some highest
           end
  end.

Definition Math_max (args : list number) : number :=
  match fold_left max_step args (Some neg_infinity) with
  | Some highest => highest
  | None => NaN
  end.

(** Math.min(...args): NaN if any argument is NaN; -0 is smaller than +0. *)
Definition min_step (acc : option number) (n : number) : option number :=
  match acc with
  | None => None
  | Some lowest =>
      if is_nan n then None
      else match n, lowest with
           | S754_zero true, S754_zero false => Some n
           | _, _ => if num_lt n lowest then Some n else Some lowest
           end
  end.

Definition Math_min (args : list number) : number :=
  match fold_left min_step args (Some pos_infinity) with
  | Some lowest => lowest
  | None => NaN
  end.

(** A JavaScript string is a sequence of UTF-16 code units. *)
Abbreviation code_unit := N (only parsing).
Abbreviation jsstring := (list code_unit) (only parsing).

(** A string literal of the source (all of them are ASCII). *)
Definition lit (s : string) : jsstring :=
  map N_of_ascii (list_ascii_of_string s).
Arguments lit s%_string.

Definition in_range (lo hi c : code_unit) : bool :=
  ((lo <=? c) && (c <=? hi))%N.

Definition is_upper (c : code_unit) : bool := in_range 65 90 c.
Definition is_lower (c : code_unit) : bool := in_range 97 122 c.
Definition is_digit (c : code_unit) : bool := in_range 48 57 c.
Definition hyphen : code_unit := 45%N.

(** The class [\s] of a regular expression without the [u] flag, which is
    also what [trim] strips: WhiteSpace and LineTerminator code units. *)
Definition is_space (c : code_unit) : bool :=
  in_range 9 13 c                      (* TAB, LF, VT, FF, CR *)
  || (c =? 32)%N || (c =? 160)%N       (* SP, NBSP *)
  || (c =? 5760)%N                     (* U+1680 *)
  || in_range 8192 8202 c              (* U+2000 .. U+200A *)
  || (c =? 8232)%N || (c =? 8233)%N    (* U+2028, U+2029 *)
  || (c =? 8239)%N || (c =? 8287)%N    (* U+202F, U+205F *)
  || (c =? 12288)%N || (c =? 65279)%N. (* U+3000, U+FEFF *)

(** The class [[a-zA-Z0-9\s]]. *)
Definition is_alnum_or_space (c : code_unit) : bool :=
  is_lower c || is_upper c || is_digit c || is_space c.

Fixpoint trimStart (s : jsstring) : jsstring :=
  match s with
  | c :: rest => if is_space c then trimStart rest else s
  | [] => []
  end.

Definition trimEnd (s : jsstring) : jsstring := rev (trimStart (rev s)).

(** String.prototype.trim *)
Definition trim (s : jsstring) : jsstring := trimEnd (trimStart s).

Fixpoint starts_with (sub s : jsstring) : bool :=
  match sub, s with
  | [], _ => true
  | a :: sub', b :: s' => (a =? b)%N && starts_with sub' s'
  | _ :: _, [] => false
  end.

(** String.prototype.includes *)
Fixpoint includes (s sub : jsstring) : bool :=
  starts_with sub s ||
  match s with
  | [] => false
  | _ :: rest => includes rest sub
  end.

(** [s.replace(/[C]/g, by)] for a character class [C]: every code unit of
    the class is replaced by [by]. *)
Fixpoint replace_each (cls : code_unit -> bool) (by_ : jsstring) (s : jsstring)
  : jsstring :=
  match s with
  | [] => []
  | c :: rest =>
      if cls c then by_ ++ replace_each cls by_ rest
      else c :: replace_each cls by_ rest
  end.

(** [s.replace(/[C]+/g, by)]: [+] is greedy, so every maximal run of code
    units of the class is replaced by one [by].  [in_run] tells that the
    previous code unit belonged to the run being replaced. *)
Fixpoint replace_runs_from (in_run : bool) (cls : code_unit -> bool)
    (by_ : jsstring) (s : jsstring) : jsstring :=
  match s with
  | [] => []
  | c :: rest =>
      if cls c then
        (if in_run then [] else by_) ++ replace_runs_from true cls by_ rest
      else c :: replace_runs_from false cls by_ rest
  end.

Definition replace_runs := replace_runs_from false.

(** String.prototype.toLowerCase on the ASCII letters.  The server applies
    it only to strings made of ASCII letters, digits and hyphens (see
    [sanitizeFileName_before_lowercase]), where the Unicode case mapping
    changes exactly the letters A to Z. *)
Definition lower_unit (c : code_unit) : code_unit :=
  if is_upper c then (c + 32)%N else c.

Definition toLowerCase (s : jsstring) : jsstring := map lower_unit s.

(** Exceptions.  Every value the server throws or catches is an Error
    object, of which the handlers read only [message]. *)
Inductive error_kind := PlainError | TypeError | ReferenceError | SyntaxError.

Record Error := mkError { kind : error_kind; message : jsstring }.

Definition result (A : Type) : Type := Error + A.

#[global] Instance result_ret : MRet result := fun _ x => inr x.
#[global] Instance result_bind : MBind result :=
  fun _ _ f m => match m with inl e => inl e | inr x => f x end.
#[global] Instance result_throw : MThrow Error result := fun _ e => inl e.

(** The values handled by the server: what JSON.parse returns, and
    [undefined], which reading a missing property gives. *)
Inductive value :=
| Undefined
| Null
| Bool (b : bool)
| Num (n : number)
| Str (s : jsstring)
| Arr (elems : list value)
| Obj (props : list (jsstring * value)).

Definition jsstring_eqb (a b : jsstring) : bool := bool_decide (a = b).

(** The own property [key] of an object built by JSON.parse, given as the
    list of its properties (the first entry of a key is the one in
    force). *)
Fixpoint own_property (props : list (jsstring * value)) (key : jsstring)
  : option value :=
  match props with
  | [] => None
  | (k, v) :: rest => if jsstring_eqb k key then Some v else own_property rest key
  end.

(** [v.key] for the property names that the server reads
    (overallScore, categories, name, score, keyword, ...): none of them is
    an index, [length] or a property of a built-in prototype, so the
    access finds an own property of an object or nothing.  Reading a
    property of [null] or [undefined] throws (message as V8 words it). *)
Definition Get (v : value) (key : jsstring) : result value :=
  match v with
  | Undefined =>
      mthrow (mkError TypeError
        (lit "Cannot read properties of undefined (reading '" ++ key ++ lit "')"))
  | Null =>
      mthrow (mkError TypeError
        (lit "Cannot read properties of null (reading '" ++ key ++ lit "')"))
  | Obj props => mret (default Undefined (own_property props key))
  | Bool _ | Num _ | Str _ | Arr _ => mret Undefined
  end.

(** ToBoolean *)
Definition ToBoolean (v : value) : bool :=
  match v with
  | Undefined | Null => false
  | Bool b => b
  | Num n => negb (is_nan n || is_zero n)
  | Str s => negb (bool_decide (s = []))
  | Arr _ | Obj _ => true
  end.

(** [a || b] once both operands are evaluated (the right operands in the
    server are literals). *)
Definition or_else (a b : value) : value := if ToBoolean a then a else b.

Definition Array_isArray (v : value) : bool :=
  match v with Arr _ => true | _ => false end.

(** SameValueZero, which Array.prototype.includes compares with.  Objects
    are compared by identity; a parsed reply shares no object with an
    array literal of the server, so two objects are never the same here. *)
Definition SameValueZero (a b : value) : bool :=
  match a, b with
  | Undefined, Undefined | Null, Null => true
  | Bool x, Bool y => eqb x y
  | Num x, Num y => (is_nan x && is_nan y) || SFeqb x y
  | Str x, Str y => jsstring_eqb x y
  | _, _ => false
  end.

(** Array.prototype.includes *)
Definition Array_includes (l : list value) (x : value) : bool :=
  existsb (fun y => SameValueZero y x) l.

Section Conversions.

(** Number::toString and StringToNumber of the ECMAScript specification:
    the shortest decimal numeral that reads back as the double, and the
    double nearest to a numeric string (NaN for other strings). *)
Variable NumberToString : number -> jsstring.
Variable StringToNumber : jsstring -> number.

(** Array.prototype.join(","): [undefined] and [null] elements give the
    empty string. *)
Definition join_with (elem_to_string : value -> result jsstring)
  : list value -> result jsstring :=
  fix go (l : list value) : result jsstring :=
    match l with
    | [] => mret []
    | x :: rest =>
        next ← match x with
               | Undefined | Null => mret []
               | _ => elem_to_string x
               end;
        match rest with
        | [] => mret next
        | _ :: _ => tail ← go rest; mret (next ++ lit "," ++ tail)
        end
    end.

(** OrdinaryToPrimitive on an object built by JSON.parse.  Its
    [toString] is Object.prototype.toString unless the reply gave it an
    own property of that name, which is never callable: then neither
    [toString] nor [valueOf] yields a primitive and the conversion
    throws. *)
Definition object_to_primitive (props : list (jsstring * value))
  : result jsstring :=
  match own_property props (lit "toString") with
  | Some _ =>
      mthrow (mkError TypeError (lit "Cannot convert object to primitive value"))
  | None => mret (lit "[object Object]")
  end.

(** ToString, which is what [String(v)] calls. *)
Fixpoint ToString (v : value) : result jsstring :=
  match v with
  | Undefined => mret (lit "undefined")
  | Null => mret (lit "null")
  | Bool true => mret (lit "true")
  | Bool false => mret (lit "false")
  | Num n => mret (NumberToString n)
  | Str s => mret s
  | Arr elems => join_with ToString elems
  | Obj props => object_to_primitive props
  end.

(** ToNumber, which is what [Number(v)] calls. *)
Definition ToNumber (v : value) : result number :=
  match v with
  | Undefined => mret NaN
  | Null => mret pos_zero
  | Bool true => mret (num_of_Z 1)
  | Bool false => mret pos_zero
  | Num n => mret n
  | Str s => mret (StringToNumber s)
  | Arr _ | Obj _ => s ← ToString v; mret (StringToNumber s)
  end.

End Conversions.

End JS.

(** ** The server *)

Module Server.
Import JS.

(** *** Data of the feedback response (lines 289-320) *)

Record category := mkCategory {
  cat_name : jsstring;
  cat_score : number;
  cat_feedback : jsstring
}.

Record keyword_entry := mkKeyword {
  kw_keyword : jsstring;
  kw_count : number;
  kw_importance : value;
  kw_recommendation : jsstring
}.

Record responseData := mkResponseData {
  overallScore : number;
  categories : list category;
  strengths : list jsstring;
  suggestions : list jsstring;
  jobTitleMatch : jsstring;
  keywordAnalysis : list keyword_entry;
  atsScore : number
}.

(** *** What the server calls but does not define *)

Abbreviation path := jsstring (only parsing).

(** One message of the chat-completion request. *)
Record message_ := mkMessage { role : jsstring; content : jsstring }.

(** [null] and [undefined], the values that have no properties. *)
Inductive nullish := JustNull | JustUndefined.

Definition nullish_value (n : nullish) : value :=
  match n with JustNull => Null | JustUndefined => Undefined end.

(** What [fetch] to the LLM endpoint leads to inside [callGroq]. *)
Inductive fetch_outcome :=
| FetchRejects (e : Error)
    (* the request fails or times out *)
| FetchNotOk (status : jsstring) (errorText : jsstring)
    (* [resp.ok] is false; [status] is the numeral of [resp.status] *)
| FetchBodyRejects (e : Error)
    (* [resp.json()] rejects *)
| FetchData (content : value)
    (* [data.choices?.[0]?.message?.content] of the reply, [undefined]
       when the chain breaks *)
| FetchTextRejects (e : Error)
    (* [resp.ok] is false and [resp.text()] rejects *)
| FetchNoData (data : nullish).
    (* [resp.json()] resolves with [null] or [undefined], of which line 99
       reads [choices] *)

(** The Tesseract worker: each call of lines 147-151 may reject. *)
Record tesseract := mkTesseract {
  createWorker : option Error;
  loadLanguage : option Error;
  initialize : option Error;
  recognize : path -> result (option jsstring);
  terminate : option Error
}.

Record host := mkHost {
  (* ECMAScript built-ins *)
  NumberToString : number -> jsstring;
  StringToNumber : jsstring -> number;
  JSON_parse : jsstring -> option value;            (* None: SyntaxError *)
  toISOString_now : jsstring;                       (* new Date().toISOString() *)
  (* fs *)
  read_file : path -> result jsstring;              (* content of an existing file *)
  unlink_failure : path -> option Error;            (* why unlinking an existing file fails *)
  (* extraction libraries; [None] as text is [undefined] or [null] *)
  pdfParse : jsstring -> result (option jsstring);  (* [pdfData.text] *)
  pdfParse_first_page : jsstring -> result (option jsstring);
  pdftotext_getText : path -> result (option jsstring);
  ocr : tesseract;
  parseDocx : path -> result (option jsstring);
  (* the LLM endpoint *)
  fetch_groq : list message_ -> fetch_outcome;
  (* the system prompts, string literals of lines 237-267 and 1139-1164;
     the server only passes them on *)
  feedback_system_prompt : jsstring;
  generate_system_prompt : jsstring;
  (* document renderers: the docx tree of lines 486-870 packed by
     docx.Packer, html-to-docx, and puppeteer printing a page *)
  docx_pack : value -> result jsstring;
  htmlToDocx : value -> result jsstring;
  puppeteer_pdf : jsstring -> value -> result jsstring
}.

(** *** Effects: the files on disk and the calls that leave the process *)

Inductive extractor := PdfParseLib | PdftotextLib | TesseractLib.

Inductive event :=
| Extract (x : extractor)             (* an extraction library is invoked *)
| CallLLM (messages : list message_)  (* the request to the LLM is sent *)
| Unlink (p : path).                  (* unlinkSync is called *)

Record state := mkState {
  files : gset path;      (* the paths that exist *)
  events : list event     (* what happened so far, oldest first *)
}.

(** A computation changes the state and returns or throws; what it did
    before throwing stays done. *)
Definition M (A : Type) : Type := state → result A * state.

#[global] Instance M_ret : MRet M := λ _ x s, (inr x, s).
#[global] Instance M_bind : MBind M :=
  λ _ _ f m s, match m s with
               | (inl e, s') => (inl e, s')
               | (inr x, s') => f x s'
               end.
#[global] Instance M_throw : MThrow Error M := λ _ e s, (inl e, s).

Definition lift {A} (r : result A) : M A := λ s, (r, s).

Definition emit (e : event) : M unit :=
  λ s, (inr (), mkState (files s) (events s ++ [e])).

(** [try { body } catch (e) { handler e }] *)
Definition try_catch {A} (body : M A) (handler : Error → M A) : M A :=
  λ s, match body s with
       | (inl e, s') => handler e s'
       | (inr x, s') => (inr x, s')
       end.

(** [try { body } finally { cleanup }]: the completion of [body] stands
    unless [cleanup] throws. *)
Definition try_finally {A} (body : M A) (cleanup : M unit) : M A :=
  λ s, let '(r, s1) := body s in
       match cleanup s1 with
       | (inl e, s2) => (inl e, s2)
       | (inr _, s2) => (r, s2)
       end.

(** A call that rejects with [e] or resolves. *)
Definition await_void (o : option Error) : M unit :=
  match o with Some e => mthrow e | None => mret () end.

(** *** Requests and responses *)

Inductive mimetype := ApplicationPdf | ApplicationDocx | TextPlain | OtherType.

(** [req.file], as multer stores it. *)
Record upload := mkUpload { upload_path : path; upload_mimetype : mimetype }.

Inductive body :=
| FeedbackOk (data : responseData) (processedLength : nat)
    (analyzedDate model : jsstring)    (* { success: true, data, metadata } *)
| Failure (error : jsstring)           (* { success: false, error } *)
| ErrorOnly (error : jsstring)         (* { error } *)
| Parsed (v : value)                   (* res.json(parsed) *)
| Attachment (contentType contentDisposition : jsstring) (bytes : jsstring).
                                       (* res.send(buffer) under these headers *)

Record response := mkResponse { status : nat; resp_body : body }.

Definition MODEL : jsstring := lit "llama3-70b-8192".

Definition dquote : code_unit := 34%N.
Definition newline : code_unit := 10%N.

(** The identifiers bound in server.js: its top-level [const]s and the
    globals of Node that it uses. *)
Definition module_scope : list jsstring :=
  map lit
    [ "express"; "cors"; "fetch"; "puppeteer"; "multer"; "pdfParse";
      "readFileSync"; "existsSync"; "mkdirSync"; "unlinkSync"; "docxParser";
      "createWorker"; "pdftotext"; "htmlToDocx"; "app"; "PORT"; "UPLOAD_DIR";
      "MAX_FILE_SIZE"; "storage"; "fileFilter"; "upload"; "GROQ_API_KEY";
      "MODEL"; "GROQ_API_URL"; "callGroq"; "isPdfTextBased"; "processPdf";
      "processDocx"; "processTextFile"; "validateFile"; "docx"; "Document";
      "Paragraph"; "TextRun"; "HeadingLevel"; "AlignmentType";
      "convertInchesToTwip"; "createCleanHtmlForDocx";
      "require"; "process"; "console"; "Date"; "JSON"; "Math"; "Number";
      "String"; "Array"; "Error"; "encodeURIComponent" ]%string.

(** Evaluating an identifier: a ReferenceError when nothing binds it. *)
Definition resolve_binding (name : jsstring) : M unit :=
  if bool_decide (name ∈ module_scope) then mret ()
  else mthrow (mkError ReferenceError (name ++ lit " is not defined")).

(** [const { key } = v]: destructuring [undefined] or [null] throws. *)
Definition Destructure (v : value) (key source : jsstring) : result value :=
  match v with
  | Undefined | Null =>
      mthrow (mkError TypeError
        (lit "Cannot destructure property '" ++ key ++ lit "' of '" ++ source
           ++ lit "' as it is " ++
           match v with Null => lit "null" | _ => lit "undefined" end ++ lit "."))
  | _ => Get v key
  end.

(** Lines 480-483, 988-991, 1025-1028 and 1031-1034:
    [name.replace(/[^a-zA-Z0-9\s]/g, '').replace(/\s+/g, '-').toLowerCase()] *)
Definition sanitizeFileName (name : jsstring) : jsstring :=
  toLowerCase
    (replace_runs is_space (lit "-")
       (replace_each (λ c, negb (is_alnum_or_space c)) (lit "") name)).

(** The same chain on a truthy value: only a string has [replace]. *)
Definition sanitizeFileName_of (v : value) (expr : jsstring) : result jsstring :=
  match v with
  | Str name => mret (sanitizeFileName name)
  | _ => mthrow (mkError TypeError (expr ++ lit ".replace is not a function"))
  end.

(** What [text && text.trim().length > 20] evaluates to (line 114): the
    text itself when it is falsy ([undefined], [null] or the empty string),
    and the boolean of the comparison otherwise. *)
Inductive text_check :=
| FalsyText (text : option jsstring)
| Compared (b : bool).

(** [text && text.trim().length > 50], lines 129, 138 and 153 *)
Definition usable (text : option jsstring) : bool :=
  match text with
  | Some s => ToBoolean (Str s) && (50 <? length (trim s))%nat
  | None => false
  end.

(** [!resumeText || resumeText.trim().length < 50], line 231 *)
Definition too_short (resumeText : option jsstring) : bool :=
  match resumeText with
  | Some s => negb (ToBoolean (Str s)) || (length (trim s) <? 50)%nat
  | None => true
  end.

Section WithHost.

Context (h : host).

Definition String_ (v : value) : result jsstring :=
  ToString (NumberToString h) v.
Definition Number_ (v : value) : result number :=
  ToNumber (NumberToString h) (StringToNumber h) v.

(** [n || d] on numbers. *)
Definition num_or (n d : number) : number :=
  if ToBoolean (Num n) then n else d.

(** Lines 292-296: the callback of [result.categories.map]. *)
Definition sanitize_category (cat : value) : result category :=
  name ← Get cat (lit "name");
  name ← String_ (or_else name (Str (lit "Uncategorized")));
  score ← Get cat (lit "score");
  score ← Number_ score;
  feedback ← Get cat (lit "feedback");
  feedback ← String_ (or_else feedback (Str (lit "No specific feedback provided")));
  mret {| cat_name := name;
          cat_score := Math_min [Math_max [num_or score (num_of_Z 5); num_of_Z 0];
                                 num_of_Z 10];
          cat_feedback := feedback |}.

Definition importance_levels : list value :=
  [Str (lit "high"); Str (lit "medium"); Str (lit "low")].

(** Lines 312-317: the callback of [result.keywordAnalysis.map]. *)
Definition sanitize_keyword (kw : value) : result keyword_entry :=
  keyword ← Get kw (lit "keyword");
  keyword ← String_ (or_else keyword (Str (lit "")));
  count ← Get kw (lit "count");
  count ← Number_ count;
  importance ← Get kw (lit "importance");
  recommendation ← Get kw (lit "recommendation");
  recommendation ←
    String_ (or_else recommendation (Str (lit "Consider adding this keyword")));
  mret {| kw_keyword := keyword;
          kw_count := Math_max [num_or count (num_of_Z 0); num_of_Z 0];
          kw_importance :=
            if Array_includes importance_levels importance then importance
            else Str (lit "medium");
          kw_recommendation := recommendation |}.

(** Lines 304-309: [Array.isArray(x) ? x.map(s => String(s)).filter(s =>
    s.length > 0) : dflt]. *)
Definition string_list_or (x : value) (dflt : list jsstring)
  : result (list jsstring) :=
  match x with
  | Arr elems =>
      strs ← mapM String_ elems;
      mret (filter (λ s : jsstring, (0 < length s)%nat) strs)
  | _ => mret dflt
  end.

Definition default_categories : list category :=
  [ {| cat_name := lit "General Assessment";
       cat_score := num_of_Z 5;
       cat_feedback :=
         lit "Comprehensive analysis could not be generated. Please try again." |} ].

Definition default_strengths : list jsstring :=
  [ lit "Strong foundational content"; lit "Good structure" ].

Definition default_suggestions : list jsstring :=
  [ lit "Add more quantifiable achievements";
    lit "Include relevant keywords for your industry" ].

(** Lines 291-303: the [categories] field. *)
Definition categories_of (cats : value) : result (list category) :=
  match cats with
  | Arr elems => mapM sanitize_category elems
  | _ => mret default_categories
  end.

(** Lines 311-318: the [keywordAnalysis] field. *)
Definition keywordAnalysis_of (kws : value) : result (list keyword_entry) :=
  match kws with
  | Arr elems =>
      entries ← mapM sanitize_keyword elems;
      mret (filter (λ kw, ToBoolean (Str (kw_keyword kw)) = true) entries)
  | _ => mret []
  end.

(** Lines 289-320: the object literal bound to [responseData]; [reply] is
    the [result] of line 281. *)
Definition build_responseData (reply : value) : result responseData :=
  overall ← Get reply (lit "overallScore");
  overall ← Number_ overall;
  cats ← Get reply (lit "categories");
  cats ← categories_of cats;
  strs ← Get reply (lit "strengths");
  strs ← string_list_or strs default_strengths;
  sugs ← Get reply (lit "suggestions");
  sugs ← string_list_or sugs default_suggestions;
  job ← Get reply (lit "jobTitleMatch");
  job ← String_ (or_else job (Str (lit "Professional")));
  kws ← Get reply (lit "keywordAnalysis");
  kws ← keywordAnalysis_of kws;
  ats ← Get reply (lit "atsScore");
  ats ← Number_ ats;
  mret {| overallScore :=
            Math_min [Math_max [num_or overall (num_of_Z 50); num_of_Z 0];
                      num_of_Z 100];
          categories := cats;
          strengths := strs;
          suggestions := sugs;
          jobTitleMatch := job;
          keywordAnalysis := kws;
          atsScore :=
            Math_min [Math_max [num_or ats (num_of_Z 60); num_of_Z 0];
                      num_of_Z 100] |}.

Definition fallback_suggestions : list jsstring :=
  [ lit "Use more action verbs (e.g., 'managed', 'developed', 'implemented')";
    lit "Quantify achievements with numbers and metrics";
    lit "Include relevant industry keywords";
    lit "Keep resume to 1-2 pages maximum";
    lit "Use consistent formatting throughout" ].

Definition fallback_strengths : list jsstring :=
  [ lit "Clear section organization";
    lit "Relevant experience included";
    lit "Professional presentation" ].

(** Lines 322-339: the two assignments that follow the literal. *)
Definition ensure_some_data (r : responseData) : responseData :=
  let r1 :=
    if bool_decide (length (suggestions r) = 0%nat)
    then mkResponseData (overallScore r) (categories r) (strengths r)
           fallback_suggestions (jobTitleMatch r) (keywordAnalysis r) (atsScore r)
    else r in
  if bool_decide (length (strengths r1) = 0%nat)
  then mkResponseData (overallScore r1) (categories r1) fallback_strengths
         (suggestions r1) (jobTitleMatch r1) (keywordAnalysis r1) (atsScore r1)
  else r1.

(** Lines 288-339: the sanitized response for a parsed reply. *)
Definition sanitize (reply : value) : result responseData :=
  r ← build_responseData reply;
  mret (ensure_some_data r).

(** *** File system (the [fs] functions imported on line 8) *)

Definition ENOENT (p : path) : Error :=
  mkError PlainError (lit "ENOENT: no such file or directory, open '" ++ p ++ lit "'").

Definition existsSync (p : path) : M bool :=
  λ s, (inr (bool_decide (p ∈ files s)), s).

Definition readFileSync (p : path) : M jsstring :=
  λ s, if bool_decide (p ∈ files s) then (read_file h p, s)
       else (inl (ENOENT p), s).

Definition remove_file (p : path) : M unit :=
  λ s, if bool_decide (p ∈ files s) then
         match unlink_failure h p with
         | Some e => (inl e, s)
         | None => (inr (), mkState (files s ∖ {[ p ]}) (events s))
         end
       else (inl (ENOENT p), s).

Definition unlinkSync (p : path) : M unit :=
  _ ← emit (Unlink p); remove_file p.

(** *** Text extraction (lines 110-183) *)

Definition call_pdfParse (dataBuffer : jsstring) : M (option jsstring) :=
  _ ← emit (Extract PdfParseLib); lift (pdfParse h dataBuffer).

Definition call_pdftotext (filePath : path) : M (option jsstring) :=
  _ ← emit (Extract PdftotextLib); lift (pdftotext_getText h filePath).

(** Lines 147-151: the worker is created, prepared, run and terminated. *)
Definition call_tesseract (filePath : path) : M (option jsstring) :=
  _ ← emit (Extract TesseractLib);
  _ ← await_void (createWorker (ocr h));
  _ ← await_void (loadLanguage (ocr h));
  _ ← await_void (initialize (ocr h));
  text ← lift (recognize (ocr h) filePath);
  _ ← await_void (terminate (ocr h));
  mret text.

Definition text_of (text : option jsstring) : jsstring := default [] text.

(** Lines 120-163 *)
Definition processPdf (filePath : path) : M jsstring :=
  try_catch
    (dataBuffer ← readFileSync filePath;
     pdfData ← try_catch (call_pdfParse dataBuffer) (λ err, mret (Some (lit "")));
     if usable pdfData then mret (text_of pdfData)
     else
       returned ←
         try_catch
           (text ← call_pdftotext filePath;
            if usable text then mret (Some (text_of text)) else mret None)
           (λ pdftotextError, mret None);
       match returned with
       | Some text => mret text
       | None =>
           text ← call_tesseract filePath;
           if usable text then mret (text_of text)
           else mthrow (mkError PlainError
                          (lit "PDF could not be processed by any method"))
       end)
    (λ error, mthrow error).

(** Lines 110-118.  Line 114 returns what
    [pdfData.text && pdfData.text.trim().length > 20] evaluates to. *)
Definition isPdfTextBased (filePath : path) : M text_check :=
  try_catch
    (dataBuffer ← readFileSync filePath;
     _ ← emit (Extract PdfParseLib);
     text ← lift (pdfParse_first_page h dataBuffer);
     mret (match text with
           | Some s =>
               if ToBoolean (Str s) then Compared (20 <? length (trim s))%nat
               else FalsyText text
           | None => FalsyText text
           end))
    (λ e, mret (Compared false)).

(** Lines 165-175 *)
Definition processDocx (filePath : path) : M (option jsstring) :=
  match parseDocx h filePath with
  | inl err =>
      mthrow (mkError PlainError (lit "DOCX processing failed: " ++ message err))
  | inr data => mret data
  end.

(** Lines 177-183 *)
Definition processTextFile (filePath : path) : M (option jsstring) :=
  try_catch
    (text ← readFileSync filePath; mret (Some text))
    (λ error,
       mthrow (mkError PlainError
                 (lit "Text file processing failed: " ++ message error))).

(** Lines 216-228: the [switch] on the MIME type. *)
Definition extract_text (file : upload) : M (option jsstring) :=
  match upload_mimetype file with
  | ApplicationPdf => text ← processPdf (upload_path file); mret (Some text)
  | ApplicationDocx => processDocx (upload_path file)
  | TextPlain => processTextFile (upload_path file)
  | OtherType => mthrow (mkError PlainError (lit "Unsupported file type"))
  end.

(** *** The LLM (lines 73-108) *)

Definition callGroq (messages : list message_) : M value :=
  try_catch
    (_ ← emit (CallLLM messages);
     match fetch_groq h messages with
     | FetchRejects e => mthrow e
     | FetchNotOk status errorText =>
         mthrow (mkError PlainError
                   (lit "Groq API error " ++ status ++ lit ": " ++ errorText))
     | FetchBodyRejects e => mthrow e
     | FetchData content =>
         if ToBoolean content then mret content
         else mthrow (mkError PlainError
                        (lit "Invalid response structure from Groq API"))
     | FetchTextRejects e => mthrow e
     | FetchNoData data =>
         choices ← lift (Get (nullish_value data) (lit "choices"));
         mthrow (mkError PlainError
                   (lit "Invalid response structure from Groq API"))
     end)
    (λ error,
       mthrow (mkError PlainError
                 (lit "Failed to call Groq API: " ++ message error))).

(** [JSON.parse(text)]: the argument is converted to a string first. *)
Definition JSON_parse_value (text : value) : result value :=
  s ← String_ text;
  match JSON_parse h s with
  | Some v => mret v
  | None => mthrow (mkError SyntaxError (lit "Unexpected token in JSON"))
  end.

(** *** POST /api/resume/feedback (lines 185-391) *)

Definition feedback_messages (resumeText : jsstring) : list message_ :=
  [ mkMessage (lit "system") (feedback_system_prompt h);
    mkMessage (lit "user")
      (lit "Please analyze this resume and provide comprehensive feedback:"
         ++ [newline; newline] ++ take (Z.to_nat 10000) resumeText) ].

(** Lines 212-349: the [try] block. *)
Definition feedback_try (file : upload) : M response :=
  resumeText ← extract_text file;
  if too_short resumeText then
    mthrow (mkError PlainError
              (lit "Resume text is too short or could not be extracted properly"))
  else
    let resumeText := text_of resumeText in
    content ← callGroq (feedback_messages resumeText);
    if negb (ToBoolean content) then
      mthrow (mkError PlainError (lit "Invalid response structure from AI service"))
    else
      reply ← try_catch (lift (JSON_parse_value content))
                (λ parseError,
                   mthrow (mkError PlainError
                             (lit "Failed to parse AI response as JSON")));
      data ← lift (sanitize reply);
      mret (mkResponse 200
              (FeedbackOk data (length resumeText) (toISOString_now h) MODEL)).

(** Lines 351-380: the [catch] block. *)
Definition feedback_catch (error : Error) : M response :=
  let msg := message error in
  if includes msg (lit "timeout") then
    mret (mkResponse 504 (Failure (lit
      "Analysis timeout. Please try again with a shorter resume or check your internet connection.")))
  else if includes msg (lit "JSON") || includes msg (lit "parse") then
    mret (mkResponse 500 (Failure (lit
      "Failed to process analysis results. Please try again.")))
  else if includes msg (lit "short") || includes msg (lit "extract") then
    mret (mkResponse 400 (Failure (lit
      "Could not extract sufficient text from the resume. Please ensure the file is readable and try again.")))
  else
    mret (mkResponse 500 (Failure (lit "Failed to analyze resume: " ++ msg))).

(** Lines 381-390: the [finally] block. *)
Definition feedback_finally (filePath : path) : M unit :=
  if ToBoolean (Str filePath) then
    there ← existsSync filePath;
    if (there : bool) then
      try_catch (unlinkSync filePath) (λ cleanupError, mret ())
    else mret ()
  else mret ().

Definition feedback_handler (file : upload) : M response :=
  try_finally
    (try_catch (feedback_try file) feedback_catch)
    (feedback_finally (upload_path file)).

(** Lines 185-205: the middleware in front of the handler. *)
Definition validateFile (file : option upload) (next : upload → M response)
  : M response :=
  match file with
  | None => mret (mkResponse 400 (Failure (lit "No file uploaded")))
  | Some f =>
      _ ← match upload_mimetype f with
          | ApplicationPdf =>
              try_catch (_ ← isPdfTextBased (upload_path f); mret ())
                        (λ err, mret ())
          | _ => mret ()
          end;
      next f
  end.

Definition feedback_route (file : option upload) : M response :=
  validateFile file feedback_handler.

(** *** POST /api/resume/generate (lines 1129-1192) *)

Definition generate_messages (prompt : jsstring) : list message_ :=
  [ mkMessage (lit "system") (generate_system_prompt h);
    mkMessage (lit "user")
      (lit "Using the following career details, create a complete professional resume and output it as valid json: "
         ++ prompt) ].

Definition resume_generate (req_body : value) : M response :=
  try_catch
    (prompt ← lift (Destructure req_body (lit "prompt") (lit "req.body"));
     blank ← (if negb (ToBoolean prompt) then mret true
              else match prompt with
                   | Str s => mret (negb (ToBoolean (Str (trim s))))
                   | _ => mthrow (mkError TypeError
                                    (lit "prompt.trim is not a function"))
                   end);
     if (blank : bool) then
       mret (mkResponse 400 (ErrorOnly (lit "Please provide your career details.")))
     else
       prompt ← lift (String_ prompt);
       resultContent ← callGroq (generate_messages prompt);
       if negb (ToBoolean resultContent) then
         mthrow (mkError PlainError (lit "Groq API returned empty content"))
       else
         parsed ← try_catch (lift (JSON_parse_value resultContent))
                    (λ e,
                       text ← lift (String_ resultContent);
                       mthrow (mkError PlainError
                                 (lit "Invalid JSON returned by Groq: " ++ text)));
         mret (mkResponse 200 (Parsed parsed)))
    (λ error, mret (mkResponse 500 (ErrorOnly (message error)))).

(** *** Document generation *)

Definition content_disposition (finalFileName ext : jsstring) : jsstring :=
  lit "attachment; filename=" ++ [dquote] ++ finalFileName ++ ext ++ [dquote].

Definition docx_type : jsstring :=
  lit "application/vnd.openxmlformats-officedocument.wordprocessingml.document".

(** Lines 478-484 *)
Definition finalFileName_doc (resumeData : value) : result jsstring :=
  name ← Get resumeData (lit "name");
  if ToBoolean name then sanitizeFileName_of name (lit "resumeData.name")
  else mret (lit "resume").

(** Lines 469-887: the handler that Express runs for POST
    /api/generate-doc (the first one registered for the route). *)
Definition generate_doc (req_body : value) : M response :=
  try_catch
    (resumeData ← lift (Destructure req_body (lit "resumeData") (lit "req.body"));
     if negb (ToBoolean resumeData) then
       mret (mkResponse 400 (ErrorOnly (lit "No resume data provided")))
     else
       finalFileName ← lift (finalFileName_doc resumeData);
       buffer ← lift (docx_pack h resumeData);
       mret (mkResponse 200
               (Attachment docx_type
                  (content_disposition finalFileName (lit ".docx")) buffer)))
    (λ err,
       mret (mkResponse 500
               (ErrorOnly (lit "Failed to generate DOC: " ++ message err)))).

(** Lines 1022-1035 (and 986-992, where [fileName] is absent) *)
Definition finalFileName_pdf (fileName resumeData : value) : result jsstring :=
  named ← (if ToBoolean resumeData then Get resumeData (lit "name")
           else mret resumeData);
  if ToBoolean named then
    name ← Get resumeData (lit "name");
    sanitizeFileName_of name (lit "resumeData.name")
  else if ToBoolean fileName then sanitizeFileName_of fileName (lit "fileName")
  else mret (lit "resume").

(** Lines 982-1012: registered second for POST /api/generate-doc, so
    Express never reaches it. *)
Definition generate_doc_html (req_body : value) : M response :=
  try_catch
    (resumeData ← lift (Destructure req_body (lit "resumeData") (lit "req.body"));
     finalFileName ← lift (finalFileName_pdf Undefined resumeData);
     fileBuffer ← lift (htmlToDocx h resumeData);
     mret (mkResponse 200
             (Attachment docx_type
                (content_disposition finalFileName (lit ".docx")) fileBuffer)))
    (λ err, mret (mkResponse 500 (ErrorOnly (lit "Failed to generate DOC")))).

(** Lines 1017-1126: POST /api/generate-pdf.  The argument of
    [puppeteer.launch] reads [chromium.args] first. *)
Definition generate_pdf (req_body : value) : M response :=
  try_catch
    (html ← lift (Destructure req_body (lit "html") (lit "req.body"));
     fileName ← lift (Get req_body (lit "fileName"));
     resumeData ← lift (Get req_body (lit "resumeData"));
     finalFileName ← lift (finalFileName_pdf fileName resumeData);
     _ ← resolve_binding (lit "chromium");
     pdfBuffer ← lift (puppeteer_pdf h finalFileName html);
     mret (mkResponse 200
             (Attachment (lit "application/pdf")
                (content_disposition finalFileName (lit ".pdf")) pdfBuffer)))
    (λ err, mret (mkResponse 500 (ErrorOnly (lit "Failed to generate PDF")))).

(** *** The extraction chain as the specification words it

    An extractor produces a text or nothing (it failed, or gave no text).
    The chain tries the extractors in order and stops at the first whose
    text has a trimmed length above 50; it reports which ones it invoked
    and the text it returns, [None] standing for a thrown error. *)

Definition long_enough (text : jsstring) : bool := (50 <? length (trim text))%nat.

Fixpoint first_usable (chain : list (extractor * option jsstring))
  : list extractor * option jsstring :=
  match chain with
  | [] => ([], None)
  | (x, produced) :: rest =>
      match produced with
      | Some text =>
          if long_enough text then ([x], Some text)
          else let '(invoked, out) := first_usable rest in (x :: invoked, out)
      | None => let '(invoked, out) := first_usable rest in (x :: invoked, out)
      end
  end.

Definition pdf_parse_output (dataBuffer : jsstring) : option jsstring :=
  match pdfParse h dataBuffer with inr text => text | inl _ => None end.

Definition pdftotext_output (filePath : path) : option jsstring :=
  match pdftotext_getText h filePath with inr text => text | inl _ => None end.

(** The text of an OCR run that went through, from [createWorker] to
    [terminate]. *)
Definition tesseract_output (filePath : path) : option jsstring :=
  match createWorker (ocr h), loadLanguage (ocr h), initialize (ocr h),
        recognize (ocr h) filePath, terminate (ocr h) with
  | None, None, None, inr text, None => text
  | _, _, _, _, _ => None
  end.

Definition extraction_chain (filePath : path) (dataBuffer : jsstring)
  : list (extractor * option jsstring) :=
  [ (PdfParseLib, pdf_parse_output dataBuffer);
    (PdftotextLib, pdftotext_output filePath);
    (TesseractLib, tesseract_output filePath) ].

End WithHost.

(** *** The upload filter of multer (lines 40-52) and the [switch] labels *)

(** Lines 41-45 *)
Definition allowedTypes : list value :=
  [ Str (lit "application/pdf");
    Str (lit "application/vnd.openxmlformats-officedocument.wordprocessingml.document");
    Str (lit "text/plain") ].

Definition invalid_file_type : Error :=
  mkError PlainError
    (lit "Invalid file type. Only PDF, DOCX, and TXT files are allowed.").

(** Lines 40-52: [inr true] is [cb(null, true)], [inl e] is [cb(e)]. *)
Definition fileFilter (file_mimetype : value) : result bool :=
  if Array_includes allowedTypes file_mimetype then mret true
  else mthrow invalid_file_type.

(** [v === s] for a string literal [s]. *)
Definition is_literal (v : value) (s : jsstring) : bool :=
  match v with Str t => jsstring_eqb t s | _ => false end.

(** The [case] labels of lines 217-227. *)
Definition mimetype_case (file_mimetype : value) : mimetype :=
  if is_literal file_mimetype (lit "application/pdf") then ApplicationPdf
  else if is_literal file_mimetype
            (lit "application/vnd.openxmlformats-officedocument.wordprocessingml.document")
  then ApplicationDocx
  else if is_literal file_mimetype (lit "text/plain") then TextPlain
  else OtherType.


(** *** POST /api/generate-analysis-pdf (lines 393-460) *)

(** The headless browser that puppeteer drives: what each awaited call of
    the handler comes to. *)
Record chrome := mkChrome {
  puppeteer_launch : option Error;            (* why [puppeteer.launch] rejects *)
  browser_newPage : option Error;
  page_setContent : jsstring → option Error;
  page_pdf : jsstring → result jsstring;      (* the page's content ↦ the PDF *)
  browser_close : option Error;
  toLocaleDateString_now : jsstring           (* new Date().toLocaleDateString() *)
}.

(** The calls made to the browser. *)
Inductive browser_call :=
| Launch
| NewPage
| SetContent (html : jsstring)
| PrintPdf
| Close.

(** A computation that calls the browser and returns or throws. *)
Definition Browsing (A : Type) : Type :=
  list browser_call → result A * list browser_call.

#[global] Instance Browsing_ret : MRet Browsing := λ _ x calls, (inr x, calls).
#[global] Instance Browsing_bind : MBind Browsing :=
  λ _ _ f m calls, match m calls with
                   | (inl e, calls') => (inl e, calls')
                   | (inr x, calls') => f x calls'
                   end.

Definition pure_step {A} (r : result A) : Browsing A := λ calls, (r, calls).

(** [await c] for a call [c] to the browser that resolves with [r]. *)
Definition await_call {A} (c : browser_call) (r : result A) : Browsing A :=
  λ calls, (r, calls ++ [c]).

Definition settled (o : option Error) : result unit :=
  match o with Some e => inl e | None => inr () end.

Definition catching {A} (body : Browsing A) (handler : Error → Browsing A)
  : Browsing A :=
  λ calls, match body calls with
           | (inl e, calls') => handler e calls'
           | (inr x, calls') => (inr x, calls')
           end.

(** Pieces of text separated by double quotes, and lines separated by
    line feeds. *)
Definition quoted (pieces : list string) : jsstring :=
  match pieces with
  | [] => []
  | p :: rest => lit p ++ flat_map (λ x, dquote :: lit x) rest
  end.

Definition html_lines (lines : list (list string)) : jsstring :=
  match lines with
  | [] => []
  | l :: rest => quoted l ++ flat_map (λ x, newline :: quoted x) rest
  end.

Definition bullet : code_unit := 8226%N.

(** [v.map(f).join('')] where [f] returns strings; [expr] is the source
    text of [v]. *)
Definition map_join (v : value) (expr : jsstring) (f : value → result jsstring)
  : result jsstring :=
  match v with
  | Arr elems => strs ← mapM f elems; mret (concat strs)
  | Undefined | Null => _ ← Get v (lit "map"); mret []
  | _ => mthrow (mkError TypeError (expr ++ lit ".map is not a function"))
  end.

Section AnalysisPdf.

Context (h : host) (c : chrome).

(** Lines 425-430: the callback of [analysisData.categories.map]. *)
Definition category_html (cat : value) : result jsstring :=
  name ← Get cat (lit "name");
  name ← String_ h name;
  score ← Get cat (lit "score");
  score ← String_ h score;
  feedback ← Get cat (lit "feedback");
  feedback ← String_ h feedback;
  mret (html_lines [ [""];
                     ["          <div class="; "category"; ">"];
                     ["            <h3>"] ]%string
          ++ name ++ lit " - " ++ score ++
        html_lines [ ["/10</h3>"];
                     ["            <p>"] ]%string
          ++ feedback ++
        html_lines [ ["</p>"];
                     ["          </div>"];
                     ["        "] ]%string).

(** Lines 433-435: the callback of [analysisData.suggestions.map]. *)
Definition suggestion_html (sug : value) : result jsstring :=
  sug ← String_ h sug;
  mret (html_lines [ [""];
                     ["          <div class="; "suggestion"; ">"] ]%string
          ++ [bullet] ++ lit " " ++ sug ++
        html_lines [ ["</div>"];
                     ["        "] ]%string).

(** Lines 404-438: the template literal. *)
Definition htmlTemplate (analysisData : value) : result jsstring :=
  overall ← Get analysisData (lit "overallScore");
  overall ← String_ h overall;
  cats ← Get analysisData (lit "categories");
  cats ← map_join cats (lit "analysisData.categories") category_html;
  sugs ← Get analysisData (lit "suggestions");
  sugs ← map_join sugs (lit "analysisData.suggestions") suggestion_html;
  mret (html_lines
          [ [""];
            ["      <!DOCTYPE html>"];
            ["      <html>"];
            ["      <head>"];
            ["        <meta charset="; "UTF-8"; ">"];
            ["        <style>"];
            ["          body { font-family: Arial, sans-serif; margin: 40px; }"];
            ["          .header { text-align: center; margin-bottom: 30px; }"];
            ["          .score { font-size: 48px; color: #d97706; font-weight: bold; }"];
            ["          .category { margin: 20px 0; padding: 15px; border: 1px solid #ddd; }"];
            ["          .suggestion { margin: 10px 0; }"];
            ["        </style>"];
            ["      </head>"];
            ["      <body>"];
            ["        <div class="; "header"; ">"];
            ["          <h1>Resume Analysis Report</h1>"];
            ["          <div class="; "score"; ">"] ]%string
          ++ overall ++
        html_lines [ ["/100</div>"];
                     ["          <p>Generated on "] ]%string
          ++ toLocaleDateString_now c ++
        html_lines [ ["</p>"];
                     ["        </div>"];
                     ["        "];
                     ["        <h2>Category Scores</h2>"];
                     ["        "] ]%string
          ++ cats ++
        html_lines [ [""];
                     ["        "];
                     ["        <h2>Actionable Suggestions</h2>"];
                     ["        "] ]%string
          ++ sugs ++
        html_lines [ [""];
                     ["      </body>"];
                     ["      </html>"];
                     ["    "] ]%string).

Definition report_disposition : jsstring :=
  quoted ["attachment; filename="; "resume_analysis_report.pdf"; ""]%string.

Definition generate_analysis_pdf (req_body : value) : Browsing response :=
  catching
    (analysisData ← pure_step (Destructure req_body (lit "analysisData") (lit "req.body"));
     resumeData ← pure_step (Destructure req_body (lit "resumeData") (lit "req.body"));
     _ ← await_call Launch (settled (puppeteer_launch c));
     _ ← await_call NewPage (settled (browser_newPage c));
     html ← pure_step (htmlTemplate analysisData);
     _ ← await_call (SetContent html) (settled (page_setContent c html));
     pdfBuffer ← await_call PrintPdf (page_pdf c html);
     _ ← await_call Close (settled (browser_close c));
     mret (mkResponse 200
             (Attachment (lit "application/pdf") report_disposition pdfBuffer)))
    (λ err, mret (mkResponse 500 (ErrorOnly (lit "Failed to generate PDF")))).

End AnalysisPdf.

(** *** Vocabulary of the statements *)

(** [lo <= n <= hi] on doubles; NaN is in no range. *)
Definition within (lo hi : Z) (n : number) : Prop :=
  num_le (num_of_Z lo) n = true ∧ num_le n (num_of_Z hi) = true.

(** A lowercase ASCII letter, a digit or a hyphen. *)
Definition filename_unit (c : code_unit) : Prop :=
  is_lower c = true ∨ is_digit c = true ∨ c = hyphen.

(** What the file name is before it is lowercased. *)
Definition alnum_or_hyphen (c : code_unit) : Prop :=
  is_lower c = true ∨ is_upper c = true ∨ is_digit c = true ∨ c = hyphen.

(** [resumeData && resumeData.name] is falsy: there is no [resumeData], or
    its [name] is missing or empty. *)
Definition no_usable_name (resumeData : value) : Prop :=
  ToBoolean resumeData = false ∨
  ∃ v, Get resumeData (lit "name") = inr v ∧ ToBoolean v = false.

(** The error text of the 400 answer of POST /api/resume/feedback
    (line 372). *)
Definition not_enough_text : jsstring :=
  lit "Could not extract sufficient text from the resume. Please ensure the file is readable and try again.".

(** The sanitized response in which every field has its default. *)
Definition all_defaults : responseData := {|
  overallScore := num_of_Z 50;
  categories := default_categories;
  strengths := default_strengths;
  suggestions := default_suggestions;
  jobTitleMatch := lit "Professional";
  keywordAnalysis := [];
  atsScore := num_of_Z 60
|}.

(** [s'] differs from [s] by events that are all [allowed], logged after
    those of [s]; the files are the same. *)
Definition grows_by (allowed : event → Prop) (s s' : state) : Prop :=
  files s' = files s ∧ ∃ evs, events s' = events s ++ evs ∧ Forall allowed evs.

(** A computation that leaves the files alone and logs only [allowed]
    events, whether it returns or throws. *)
Definition keeps (allowed : event → Prop) {A} (m : M A) : Prop :=
  ∀ s, grows_by allowed s (m s).2.

Definition is_extract (e : event) : Prop := ∃ x, e = Extract x.
Definition not_unlink (e : event) : Prop := ∀ p, e ≠ Unlink p.

(** The outcome of a computation with the identity of a thrown error
    forgotten. *)
Definition returned {A} (r : result A) : option A :=
  match r with inr x => Some x | inl _ => None end.

(** *** Vocabulary of the properties beyond the specification *)

(** The error of a value that has no primitive to convert to. *)
Definition conversion_error : Error :=
  mkError TypeError (lit "Cannot convert object to primitive value").

(** What reading [choices] of [null] or [undefined] throws (line 99). *)
Definition no_choices (data : nullish) : Error :=
  mkError TypeError
    (lit "Cannot read properties of "
       ++ match data with JustNull => lit "null" | JustUndefined => lit "undefined" end
       ++ lit " (reading 'choices')").

(** The properties that lines 289-320 read. *)
Definition reply_keys : list jsstring :=
  map lit [ "overallScore"; "categories"; "strengths"; "suggestions";
            "jobTitleMatch"; "keywordAnalysis"; "atsScore";
            "name"; "score"; "feedback";
            "keyword"; "count"; "importance"; "recommendation" ]%string.

(** The messages of the errors that building the response can throw. *)
Definition sanitize_error_messages : list jsstring :=
  message conversion_error ::
  flat_map (λ key,
    [ lit "Cannot read properties of undefined (reading '" ++ key ++ lit "')";
      lit "Cannot read properties of null (reading '" ++ key ++ lit "')" ])
    reply_keys.

Definition sanitize_error (e : Error) : Prop :=
  kind e = TypeError ∧ message e ∈ sanitize_error_messages.

(** The fixed answers of lines 1133, 358, 365, 475 and 458. *)
Definition please_provide : jsstring := lit "Please provide your career details.".

Definition analysis_timeout : jsstring :=
  lit "Analysis timeout. Please try again with a shorter resume or check your internet connection.".

Definition results_unreadable : jsstring :=
  lit "Failed to process analysis results. Please try again.".

Definition no_resume_data : jsstring := lit "No resume data provided".

Definition pdf_failed : response :=
  mkResponse 500 (ErrorOnly (lit "Failed to generate PDF")).

(** The message of line 158. *)
Definition no_method : jsstring := lit "PDF could not be processed by any method".

(** A text that line 129, 138 or 153 passes over: absent, or of a trimmed
    length of 50 at most. *)
Definition unusable (text : option jsstring) : Prop :=
  ∀ t, text = Some t → (length (trim t) ≤ 50)%nat.

(** The number of requests sent to the LLM among some events. *)
Definition is_llm_call (e : event) : bool :=
  match e with CallLLM _ => true | _ => false end.

Definition llm_calls (evs : list event) : nat :=
  length (filter (λ e, is_llm_call e = true) evs).

(** The score that [Math.min(hi, Math.max(lo, n || dflt))] comes to, case
    by case. *)
Definition clamped (dflt lo hi : Z) (n : number) : number :=
  if is_nan n || is_zero n then num_of_Z dflt
  else if num_lt n (num_of_Z lo) then num_of_Z lo
  else if num_lt (num_of_Z hi) n then num_of_Z hi
  else n.

(** The count that [Math.max(0, n || 0)] comes to. *)
Definition floored (n : number) : number :=
  if is_nan n || is_zero n then num_of_Z 0
  else if num_lt n (num_of_Z 0) then num_of_Z 0
  else n.

(** *** What a field of the reply becomes in the response

    [text_or]: the default for a value that is missing or falsy, the
    string of the value otherwise.  [score_from]: the number of the value,
    with the default when that is NaN (the value is missing or is not
    numeric) or zero, and the nearer bound when it is out of range.
    [strings_from]: the default list when the value is no array, otherwise
    the non-empty strings of its elements, or the fallback list if there is
    none. *)
Definition text_or (h : host) (dflt : jsstring) (v : value) (out : jsstring)
  : Prop :=
  if ToBoolean v then String_ h v = inr out else out = dflt.

Definition score_from (h : host) (dflt hi : Z) (v : value) (out : number) : Prop :=
  ∃ n, Number_ h v = inr n ∧ out = clamped dflt 0 hi n.

Definition count_from (h : host) (v : value) (out : number) : Prop :=
  ∃ n, Number_ h v = inr n ∧ out = floored n.

Definition strings_from (h : host) (dflt fallback : list jsstring) (v : value)
    (out : list jsstring) : Prop :=
  match v with
  | Arr elems =>
      ∃ strs, Forall2 (λ x s, String_ h x = inr s) elems strs ∧
        out = match filter (λ s : jsstring, s ≠ []) strs with
              | [] => fallback
              | kept => kept
              end
  | _ => out = dflt
  end.

Definition category_from (h : host) (cat : value) (c : category) : Prop :=
  ∃ name score feedback,
    Get cat (lit "name") = inr name ∧
    Get cat (lit "score") = inr score ∧
    Get cat (lit "feedback") = inr feedback ∧
    text_or h (lit "Uncategorized") name (cat_name c) ∧
    score_from h 5 10 score (cat_score c) ∧
    text_or h (lit "No specific feedback provided") feedback (cat_feedback c).

Definition keyword_from (h : host) (kw : value) (e : keyword_entry) : Prop :=
  ∃ keyword count importance recommendation,
    Get kw (lit "keyword") = inr keyword ∧
    Get kw (lit "count") = inr count ∧
    Get kw (lit "importance") = inr importance ∧
    Get kw (lit "recommendation") = inr recommendation ∧
    text_or h (lit "") keyword (kw_keyword e) ∧
    count_from h count (kw_count e) ∧
    (importance ∈ importance_levels → kw_importance e = importance) ∧
    (importance ∉ importance_levels → kw_importance e = Str (lit "medium")) ∧
    text_or h (lit "Consider adding this keyword") recommendation
      (kw_recommendation e).

(** The response [data] is the reply coerced field by field. *)
Definition coerced (h : host) (reply : value) (data : responseData) : Prop :=
  (∃ v, Get reply (lit "overallScore") = inr v ∧
        score_from h 50 100 v (overallScore data)) ∧
  (∃ v, Get reply (lit "categories") = inr v ∧
        match v with
        | Arr elems => Forall2 (category_from h) elems (categories data)
        | _ => categories data = default_categories
        end) ∧
  (∃ v, Get reply (lit "strengths") = inr v ∧
        strings_from h default_strengths fallback_strengths v (strengths data)) ∧
  (∃ v, Get reply (lit "suggestions") = inr v ∧
        strings_from h default_suggestions fallback_suggestions v
          (suggestions data)) ∧
  (∃ v, Get reply (lit "jobTitleMatch") = inr v ∧
        text_or h (lit "Professional") v (jobTitleMatch data)) ∧
  (∃ v, Get reply (lit "keywordAnalysis") = inr v ∧
        match v with
        | Arr elems =>
            ∃ entries, Forall2 (keyword_from h) elems entries ∧
              keywordAnalysis data = filter (λ e, kw_keyword e ≠ []) entries
        | _ => keywordAnalysis data = []
        end) ∧
  (∃ v, Get reply (lit "atsScore") = inr v ∧
        score_from h 60 100 v (atsScore data)).

(** The class [[a-zA-Z0-9]], and a string with [--] in it. *)
Definition is_alnum (c : code_unit) : bool := is_lower c || is_upper c || is_digit c.

Fixpoint adjacent_hyphens (s : jsstring) : bool :=
  match s with
  | a :: (b :: _) as rest =>
      ((a =? hyphen)%N && (b =? hyphen)%N) || adjacent_hyphens rest
  | _ => false
  end.

(** Whatever [m] returns satisfies [P]. *)
Definition yields {A} (P : A → Prop) (m : M A) : Prop :=
  ∀ s x s', m s = (inr x, s') → P x.

(** *** Concrete hosts and requests, to run the handlers on *)

Definition EPERM : Error := mkError PlainError (lit "EPERM: operation not permitted").

Definition sixty_letters : jsstring := replicate 60 97%N.

(** A host where text files hold sixty letters, every PDF extractor comes
    back empty-handed, the LLM answers the text [{}] and nothing fails. *)
Definition calm_host : host := {|
  NumberToString := λ _, lit "0";
  StringToNumber := λ _, NaN;
  JSON_parse := λ s, if bool_decide (s = lit "{}") then Some (Obj [])
                     else if bool_decide (s = lit "[]") then Some (Arr [])
                     else None;
  toISOString_now := lit "2024-01-01T00:00:00.000Z";
  read_file := λ _, inr sixty_letters;
  unlink_failure := λ _, None;
  pdfParse := λ _, inr (Some (lit ""));
  pdfParse_first_page := λ _, inr (Some (lit ""));
  pdftotext_getText := λ _, inr (Some (lit ""));
  ocr := mkTesseract None None None (λ _, inr (Some (lit ""))) None;
  parseDocx := λ _, inr (Some (lit "too short"));
  fetch_groq := λ _, FetchData (Str (lit "{}"));
  feedback_system_prompt := lit "You are a professional resume analyst";
  generate_system_prompt := lit "You are a professional resume writer";
  docx_pack := λ _, inr (lit "PK");
  htmlToDocx := λ _, inr (lit "PK");
  puppeteer_pdf := λ _ _, inr (lit "%PDF")
|}.

(** The same host where pdf-parse finds sixty letters. *)
Definition text_pdf_host : host :=
  mkHost (NumberToString calm_host) (StringToNumber calm_host)
    (JSON_parse calm_host) (toISOString_now calm_host) (read_file calm_host)
    (unlink_failure calm_host) (λ _, inr (Some sixty_letters))
    (pdfParse_first_page calm_host) (pdftotext_getText calm_host)
    (ocr calm_host) (parseDocx calm_host) (fetch_groq calm_host)
    (feedback_system_prompt calm_host) (generate_system_prompt calm_host)
    (docx_pack calm_host) (htmlToDocx calm_host) (puppeteer_pdf calm_host).

(** The same host where unlinking is refused by the operating system. *)
Definition stubborn_host : host :=
  mkHost (NumberToString calm_host) (StringToNumber calm_host)
    (JSON_parse calm_host) (toISOString_now calm_host) (read_file calm_host)
    (λ _, Some EPERM) (pdfParse calm_host)
    (pdfParse_first_page calm_host) (pdftotext_getText calm_host)
    (ocr calm_host) (parseDocx calm_host) (fetch_groq calm_host)
    (feedback_system_prompt calm_host) (generate_system_prompt calm_host)
    (docx_pack calm_host) (htmlToDocx calm_host) (puppeteer_pdf calm_host).

(** The same host where the LLM answers the text [[]]. *)
Definition list_host : host :=
  mkHost (NumberToString calm_host) (StringToNumber calm_host)
    (JSON_parse calm_host) (toISOString_now calm_host) (read_file calm_host)
    (unlink_failure calm_host) (pdfParse calm_host)
    (pdfParse_first_page calm_host) (pdftotext_getText calm_host)
    (ocr calm_host) (parseDocx calm_host) (λ _, FetchData (Str (lit "[]")))
    (feedback_system_prompt calm_host) (generate_system_prompt calm_host)
    (docx_pack calm_host) (htmlToDocx calm_host) (puppeteer_pdf calm_host).

(** Request bodies. *)
Definition career_body : value :=
  Obj [ (lit "prompt", Str (lit "Nurse, five years in intensive care")) ].

Definition jane_resume : value :=
  Obj [ (lit "name", Str (lit "Jane  O'Neil 3rd")) ].

Definition jane_body : value := Obj [ (lit "resumeData", jane_resume) ].

Definition cv_txt : upload := mkUpload (lit "uploads/1700000000000-cv.txt") TextPlain.
Definition cv_pdf : upload := mkUpload (lit "uploads/1700000000000-cv.pdf") ApplicationPdf.
Definition cv_docx : upload := mkUpload (lit "uploads/1700000000000-cv.docx") ApplicationDocx.

(** The upload directory once multer has stored the three files. *)
Definition disk : state :=
  mkState {[ upload_path cv_txt; upload_path cv_pdf; upload_path cv_docx ]} [].

(** A reply with zero scores and untidy lists. *)
Definition zero_reply : value :=
  Obj [ (lit "overallScore", Num pos_zero);
        (lit "categories",
           Arr [ Obj [ (lit "name", Str (lit "Formatting"));
                       (lit "score", Num neg_zero) ] ]);
        (lit "strengths", Arr [ Str (lit ""); Arr [] ]);
        (lit "suggestions", Str (lit "none"));
        (lit "keywordAnalysis",
           Arr [ Obj [ (lit "keyword", Str (lit "SQL"));
                       (lit "count", Num (num_of_Z (-3)));
                       (lit "importance", Str (lit "critical")) ];
                 Obj [ (lit "keyword", Arr []);
                       (lit "importance", Str (lit "high")) ] ]);
        (lit "atsScore", Num pos_zero) ].

(** A reply whose fields have the wrong types or are out of range, and
    what the sanitizer makes of it. *)
Definition wrong_typed_reply : value :=
  Obj [ (lit "overallScore", Str (lit "n/a"));
        (lit "categories", Str (lit "none"));
        (lit "strengths", Num (num_of_Z 7));
        (lit "jobTitleMatch", Bool true);
        (lit "keywordAnalysis", Obj []);
        (lit "atsScore", Num (num_of_Z 150)) ].

Definition wrong_typed_reply_sanitized : responseData := {|
  overallScore := num_of_Z 50;
  categories := default_categories;
  strengths := default_strengths;
  suggestions := default_suggestions;
  jobTitleMatch := lit "true";
  keywordAnalysis := [];
  atsScore := num_of_Z 100
|}.

(** What the sanitizer makes of [zero_reply]. *)
Definition zero_reply_sanitized : responseData := {|
  overallScore := num_of_Z 50;
  categories :=
    [ {| cat_name := lit "Formatting";
         cat_score := num_of_Z 5;
         cat_feedback := lit "No specific feedback provided" |} ];
  strengths := fallback_strengths;
  suggestions := default_suggestions;
  jobTitleMatch := lit "Professional";
  keywordAnalysis :=
    [ {| kw_keyword := lit "SQL";
         kw_count := pos_zero;
         kw_importance := Str (lit "medium");
         kw_recommendation := lit "Consider adding this keyword" |} ];
  atsScore := num_of_Z 60
|}.

(** The calm host with another outcome of the request to the LLM. *)
Definition with_llm (outcome : fetch_outcome) : host :=
  mkHost (NumberToString calm_host) (StringToNumber calm_host)
    (JSON_parse calm_host) (toISOString_now calm_host) (read_file calm_host)
    (unlink_failure calm_host) (pdfParse calm_host)
    (pdfParse_first_page calm_host) (pdftotext_getText calm_host)
    (ocr calm_host) (parseDocx calm_host) (λ _, outcome)
    (feedback_system_prompt calm_host) (generate_system_prompt calm_host)
    (docx_pack calm_host) (htmlToDocx calm_host) (puppeteer_pdf calm_host).

(** The request to the LLM runs into the timeout of node-fetch. *)
Definition network_timeout : Error :=
  mkError PlainError
    (lit "network timeout at: https://api.groq.com/openai/v1/chat/completions").

Definition slow_host : host := with_llm (FetchRejects network_timeout).

(** The LLM answers with prose. *)
Definition prose : jsstring := lit "Here is the analysis you asked for".

Definition chatty_host : host := with_llm (FetchData (Str prose)).

(** The LLM answers the text [null], which JSON.parse reads as [null]. *)
Definition null_host : host :=
  mkHost (NumberToString calm_host) (StringToNumber calm_host)
    (λ s, if bool_decide (s = lit "null") then Some Null else None)
    (toISOString_now calm_host) (read_file calm_host)
    (unlink_failure calm_host) (pdfParse calm_host)
    (pdfParse_first_page calm_host) (pdftotext_getText calm_host)
    (ocr calm_host) (parseDocx calm_host) (λ _, FetchData (Str (lit "null")))
    (feedback_system_prompt calm_host) (generate_system_prompt calm_host)
    (docx_pack calm_host) (htmlToDocx calm_host) (puppeteer_pdf calm_host).

Definition null_property : Error :=
  mkError TypeError (lit "Cannot read properties of null (reading 'overallScore')").

(** More request bodies. *)
Definition blank_body : value := Obj [ (lit "prompt", Str (lit "   ")) ].

Definition numbered_body : value :=
  Obj [ (lit "resumeData", Obj [ (lit "name", Num (num_of_Z 7)) ]) ].

Definition symbols_body : value :=
  Obj [ (lit "resumeData", Obj [ (lit "name", Str (lit "!?!")) ]) ].

(** A browser in which every call goes through. *)
Definition idle_chrome : chrome := {|
  puppeteer_launch := None;
  browser_newPage := None;
  page_setContent := λ _, None;
  page_pdf := λ _, inr (lit "%PDF");
  browser_close := None;
  toLocaleDateString_now := lit "1/1/2024"
|}.

End Server.

(** ** utils/jobFetcher.js

    [fetchJobs] asks the Remotive API for jobs and simplifies the first
    ten.  Its arguments are taken among the values of JSON and
    [undefined]; what it catches it only logs. *)

Module JobFetcher.

Import JS.

(** An element of the array that [fetchJobs] resolves with. *)
Record job_entry := mkJob {
  job_title : value;
  job_company : value;
  job_location : value;
  job_url : value;
  job_platform : jsstring
}.

(** What [await fetch(url)] and [await response.json()] come to. *)
Inductive fetch_result :=
| Rejects (e : Error)         (* fetch rejects *)
| NotOk (status : number)     (* [response.ok] is false *)
| BodyRejects (e : Error)     (* [response.json()] rejects *)
| Data (data : value).

Record remote := mkRemote {
  number_text : number → jsstring;                  (* Number::toString *)
  encodeURIComponent : jsstring → result jsstring;  (* URIError on a lone surrogate *)
  fetch_url : jsstring → fetch_result                   (* GET on the URL *)
}.

Definition is_high_surrogate (c : code_unit) : bool := in_range 55296 56319 c.
Definition is_low_surrogate (c : code_unit) : bool := in_range 56320 57343 c.

(** The strings that iterating over a string yields: one per code point. *)
Fixpoint code_points (s : jsstring) : list jsstring :=
  match s with
  | [] => []
  | a :: rest =>
      match rest with
      | b :: rest' =>
          if is_high_surrogate a && is_low_surrogate b
          then [a; b] :: code_points rest'
          else [a] :: code_points rest
      | [] => [[a]]
      end
  end.

(** [...v] in an array literal: arrays and strings are the iterable values
    here. *)
Definition spread_elements (v : value) (expr : jsstring) : result (list value) :=
  match v with
  | Arr elems => mret elems
  | Str s => mret (map Str (code_points s))
  | _ => mthrow (mkError TypeError (expr ++ lit " is not iterable"))
  end.

(** Array.prototype.Array_join(sep) *)
Definition Array_join (elem_to_string : value → result jsstring) (sep : jsstring)
  : list value → result jsstring :=
  fix go (l : list value) : result jsstring :=
    match l with
    | [] => mret []
    | x :: rest =>
        next ← match x with
               | Undefined | Null => mret []
               | _ => elem_to_string x
               end;
        match rest with
        | [] => mret next
        | _ :: _ => tail ← go rest; mret (next ++ sep ++ tail)
        end
    end.

(** Lines 19-25: the callback of [map]. *)
Definition simplified (job : value) : result job_entry :=
  title ← Get job (lit "title");
  company_name ← Get job (lit "company_name");
  candidate_required_location ← Get job (lit "candidate_required_location");
  url ← Get job (lit "url");
  mret {| job_title := title;
          job_company := company_name;
          job_location := or_else candidate_required_location (Str (lit "Remote"));
          job_url := url;
          job_platform := lit "Remotive" |}.

(** Line 19: [data.jobs.slice(0, 10).map(...)]; only an array has both
    methods. *)
Definition first_ten (data : value) : result (list job_entry) :=
  jobs ← Get data (lit "jobs");
  match jobs with
  | Arr elems => mapM simplified (take 10 elems)
  | Undefined | Null => _ ← Get jobs (lit "slice"); mret []
  | Str _ =>
      mthrow (mkError TypeError (lit "data.jobs.slice(...).map is not a function"))
  | _ => mthrow (mkError TypeError (lit "data.jobs.slice is not a function"))
  end.

Definition search_url : jsstring := lit "https://remotive.com/api/remote-jobs?search=".

Section WithRemote.

Context (r : remote).

(** Lines 6-9: the URL. *)
Definition job_url_of (jobTitle skills : value) : result jsstring :=
  let skills := match skills with Undefined => Arr [] | _ => skills end in
  spreaded ← spread_elements skills (lit "skills");
  joined ← Array_join (ToString (number_text r)) (lit " ") (jobTitle :: spreaded);
  query ← encodeURIComponent r joined;
  mret (search_url ++ query).

(** Lines 10-25, for the response to the request. *)
Definition jobs_of (response : fetch_result) : result (list job_entry) :=
  match response with
  | Rejects e => mthrow e
  | NotOk status =>
      mthrow (mkError PlainError
                (lit "Failed to fetch jobs: " ++ number_text r status))
  | BodyRejects e => mthrow e
  | Data data => first_ten data
  end.

(** Lines 5-25, the [try] block: what it completes with and the URLs it
    requested. *)
Definition fetchJobs_try (jobTitle skills : value)
  : result (list job_entry) * list jsstring :=
  match job_url_of jobTitle skills with
  | inl e => (inl e, [])
  | inr url => (jobs_of (fetch_url r url), [url])
  end.

(** Lines 4-30 *)
Definition fetchJobs (jobTitle skills : value) : list job_entry * list jsstring :=
  match fetchJobs_try jobTitle skills with
  | (inr jobs, requested) => (jobs, requested)
  | (inl error, requested) => ([], requested)
  end.

End WithRemote.

(** A job as the API lists it, and a service that lists twelve of them
    after a broken one. *)
Definition listed_job : value :=
  Obj [ (lit "title", Str (lit "Backend Engineer"));
        (lit "company_name", Str (lit "Acme"));
        (lit "url", Str (lit "https://remotive.com/remote-jobs/1")) ].

Definition listed_job_simplified : job_entry := {|
  job_title := Str (lit "Backend Engineer");
  job_company := Str (lit "Acme");
  job_location := Str (lit "Remote");
  job_url := Str (lit "https://remotive.com/remote-jobs/1");
  job_platform := lit "Remotive"
|}.

Definition service (jobs : list value) : remote := {|
  number_text := λ _, lit "0";
  encodeURIComponent := λ s, inr s;
  fetch_url := λ _, Data (Obj [ (lit "jobs", Arr jobs) ])
|}.

End JobFetcher.

Import JS Server.


(** * Properties *)

(** ** Comparison, Math.max and Math.min on doubles *)

Section Numbers.

Implicit Types a b x : number.

Lemma num_lt_le a b : num_lt a b = true → num_le a b = true.
Proof. unfold num_lt, num_le, SFltb, SFleb. by destruct (SFcompare a b) as [[]|]. Qed.

Lemma SFcompare_antisym a b :
SFcompare b a = option_map CompOpp (SFcompare a b).
Proof.
destruct a as [[]|[]| |[] ma ea], b as [[]|[]| |[] mb eb]; try reflexivity;
  simpl; rewrite (Z.compare_antisym ea eb);
  destruct (ea ?= eb)%Z; simpl; try reflexivity;
  rewrite (Pos.compare_cont_antisym ma mb Eq); simpl;
  try reflexivity; by rewrite CompOpp_involutive.
Qed.

Lemma not_lt_le a b :
is_nan a = false → is_nan b = false → num_lt b a = false → num_le a b = true.
Proof.
intros Ha Hb. unfold num_lt, num_le, SFltb, SFleb.
rewrite (SFcompare_antisym a b).
destruct (SFcompare a b) as [[]|] eqn:E; simpl; try done.
destruct a, b; try done.
Qed.
Lemma num_le_refl a : is_nan a = false → num_le a a = true.
Proof.
intros Ha. apply not_lt_le; try done.
unfold num_lt, SFltb. pose proof (SFcompare_antisym a a) as H.
destruct (SFcompare a a) as [[]|]; simpl in *; congruence.
Qed.
Lemma num_le_not_nan a b : num_le a b = true → is_nan a = false ∧ is_nan b = false.
Proof. unfold num_le, SFleb. destruct a, b; simpl; try done. Qed.

Lemma max_step_first x : is_nan x = false → max_step (Some neg_infinity) x = Some x.
Proof. by destruct x as [[]|[]| |[] m e]. Qed.
Lemma min_step_first x : is_nan x = false → min_step (Some pos_infinity) x = Some x.
Proof. by destruct x as [[]|[]| |[] m e]. Qed.

Lemma Math_max_two x lo :
is_nan x = false → is_nan lo = false →
is_nan (Math_max [x; lo]) = false ∧ num_le lo (Math_max [x; lo]) = true ∧
(Math_max [x; lo] = x ∨ Math_max [x; lo] = lo).
Proof.
intros Hx Hlo. unfold Math_max. cbn [fold_left]. rewrite max_step_first by done.
set (o := max_step (Some x) lo).
assert (Ho : o = (if num_lt x lo then Some lo else Some x) ∨ o = Some lo).
{ unfold o, max_step. rewrite Hlo.
  destruct lo as [[]| | |], x as [[]| | |]; auto. }
destruct Ho as [-> | ->].
- destruct (num_lt x lo) eqn:E; auto using num_le_refl, not_lt_le.
- auto using num_le_refl.
Qed.

Lemma Math_min_two x hi :
is_nan x = false → is_nan hi = false →
is_nan (Math_min [x; hi]) = false ∧ num_le (Math_min [x; hi]) hi = true ∧
(Math_min [x; hi] = x ∨ Math_min [x; hi] = hi).
Proof.
intros Hx Hhi. unfold Math_min. cbn [fold_left]. rewrite min_step_first by done.
set (o := min_step (Some x) hi).
assert (Ho : o = (if num_lt hi x then Some hi else Some x) ∨ o = Some hi).
{ unfold o, min_step. rewrite Hhi.
  destruct hi as [[]| | |], x as [[]| | |]; auto. }
destruct Ho as [-> | ->].
- destruct (num_lt hi x) eqn:E; auto using num_le_refl, not_lt_le.
- auto using num_le_refl.
Qed.

Lemma clamp_within x lo hi :
is_nan x = false → num_le (num_of_Z lo) (num_of_Z hi) = true →
within lo hi (Math_min [Math_max [x; num_of_Z lo]; num_of_Z hi]).
Proof.
intros Hx Hle. destruct (num_le_not_nan _ _ Hle) as [Hlo Hhi].
destruct (Math_max_two x _ Hx Hlo) as (Hn & Hge & _).
destruct (Math_min_two _ _ Hn Hhi) as (_ & Hle' & Hor).
split; [|done]. by destruct Hor as [E|E]; rewrite E.
Qed.

Lemma num_or_not_nan n d : is_nan d = false → is_nan (num_or n d) = false.
Proof. intros Hd. unfold num_or. by destruct n. Qed.

End Numbers.

(** *** The clamps in closed form *)

Lemma num_le_not_gt (a b : number) : num_le a b = true → num_lt b a = false.
Proof.
  unfold num_lt, num_le, SFltb, SFleb. rewrite (SFcompare_antisym a b).
  by destruct (SFcompare a b) as [[]|].
Qed.

Lemma clamp_exact (x lo hi : number) :
  is_nan x = false → is_zero x = false →
  is_nan lo = false → is_zero hi = false → num_le lo hi = true →
  Math_min [Math_max [x; lo]; hi] =
  if num_lt x lo then lo else if num_lt hi x then hi else x.
Proof.
  intros Hx Hz Hlo Hhz Hle.
  destruct (num_le_not_nan _ _ Hle) as [_ Hhi].
  assert (Hmax : Math_max [x; lo] = if num_lt x lo then lo else x).
  { unfold Math_max. cbn [fold_left]. rewrite max_step_first by done.
    unfold max_step. rewrite Hlo.
    destruct lo as [[]| | |], x as [[]| | |]; try done;
      by match goal with |- context [num_lt ?a ?b] => destruct (num_lt a b) end. }
  rewrite Hmax.
  assert (Hmin : ∀ m, is_nan m = false →
            Math_min [m; hi] = if num_lt hi m then hi else m).
  { intros m Hm. unfold Math_min. cbn [fold_left]. rewrite min_step_first by done.
    unfold min_step. rewrite Hhi.
    destruct hi as [[]| | |], m as [[]| | |]; try done;
      by match goal with |- context [num_lt ?a ?b] => destruct (num_lt a b) end. }
  destruct (num_lt x lo) eqn:E.
  - rewrite Hmin by done. by rewrite (num_le_not_gt _ _ Hle).
  - by rewrite Hmin.
Qed.

Lemma num_or_clamped (n : number) dflt lo hi :
  is_zero (num_of_Z dflt) = false → is_zero (num_of_Z hi) = false →
  num_le (num_of_Z lo) (num_of_Z dflt) = true →
  num_le (num_of_Z dflt) (num_of_Z hi) = true →
  num_le (num_of_Z lo) (num_of_Z hi) = true →
  Math_min [Math_max [num_or n (num_of_Z dflt); num_of_Z lo]; num_of_Z hi] =
  clamped dflt lo hi n.
Proof.
  intros Hd Hh H1 H2 Hle.
  destruct (num_le_not_nan _ _ H1) as [Hlo Hdn].
  unfold clamped, num_or.
  destruct (is_nan n || is_zero n) eqn:E.
  - assert (ToBoolean (Num n) = false) as -> by (by destruct n).
    rewrite clamp_exact by done.
    by rewrite (num_le_not_gt _ _ H1), (num_le_not_gt _ _ H2).
  - assert (ToBoolean (Num n) = true) as -> by (by destruct n).
    apply orb_false_iff in E as [En Ez]. by rewrite clamp_exact.
Qed.

Lemma score_clamped (n : number) :
  Math_min [Math_max [num_or n (num_of_Z 50); num_of_Z 0]; num_of_Z 100] =
  clamped 50 0 100 n.
Proof. by apply num_or_clamped. Qed.

Lemma ats_clamped (n : number) :
  Math_min [Math_max [num_or n (num_of_Z 60); num_of_Z 0]; num_of_Z 100] =
  clamped 60 0 100 n.
Proof. by apply num_or_clamped. Qed.

Lemma category_clamped (n : number) :
  Math_min [Math_max [num_or n (num_of_Z 5); num_of_Z 0]; num_of_Z 10] =
  clamped 5 0 10 n.
Proof. by apply num_or_clamped. Qed.

Lemma Math_max_floor (x lo : number) :
  is_nan x = false → is_zero x = false → is_nan lo = false →
  Math_max [x; lo] = if num_lt x lo then lo else x.
Proof.
  intros Hx Hz Hlo. unfold Math_max. cbn [fold_left].
  rewrite max_step_first by done. unfold max_step. rewrite Hlo.
  destruct lo as [[]| | |], x as [[]| | |]; try done;
    by match goal with |- context [num_lt ?a ?b] => destruct (num_lt a b) end.
Qed.

Lemma count_floored (n : number) :
  Math_max [num_or n (num_of_Z 0); num_of_Z 0] = floored n.
Proof.
  unfold floored, num_or. destruct (is_nan n || is_zero n) eqn:E.
  - by assert (ToBoolean (Num n) = false) as -> by (by destruct n).
  - assert (ToBoolean (Num n) = true) as -> by (by destruct n).
    apply orb_false_iff in E as [En Ez]. by rewrite Math_max_floor.
Qed.

(** ** The result monad *)

Lemma bind_inr {A B} (m : result A) (f : A → result B) (y : B) :
  m ≫= f = inr y ↔ ∃ x, m = inr x ∧ f x = inr y.
Proof.
  destruct m as [e|x]; simpl; split.
  - done.
  - by intros (x & [=] & _).
  - eauto.
  - by intros (x' & [= <-] & ?).
Qed.

Lemma mapM_inr {A B} (f : A → result B) (l : list A) (l' : list B) :
  mapM f l = inr l' → Forall2 (λ x y, f x = inr y) l l'.
Proof.
  revert l'. induction l as [|x l IH]; intros l' H.
  - injection H as <-. constructor.
  - cbn in H. apply bind_inr in H as (y & Hy & H).
    apply bind_inr in H as (k & Hk & [= <-]).
    constructor; auto.
Qed.

Ltac bind_inv H :=
  repeat (let x := fresh "x" in let E := fresh "E" in
          apply bind_inr in H; destruct H as (x & E & H)).

Lemma build_responseData_inr h reply r :
  build_responseData h reply = inr r →
  ∃ v1 n1 v2 v3 v4 v5 v6 v7 n7,
    Get reply (lit "overallScore") = inr v1 ∧ Number_ h v1 = inr n1 ∧
    Get reply (lit "categories") = inr v2 ∧
    categories_of h v2 = inr (categories r) ∧
    Get reply (lit "strengths") = inr v3 ∧
    string_list_or h v3 default_strengths = inr (strengths r) ∧
    Get reply (lit "suggestions") = inr v4 ∧
    string_list_or h v4 default_suggestions = inr (suggestions r) ∧
    Get reply (lit "jobTitleMatch") = inr v5 ∧
    String_ h (or_else v5 (Str (lit "Professional"))) = inr (jobTitleMatch r) ∧
    Get reply (lit "keywordAnalysis") = inr v6 ∧
    keywordAnalysis_of h v6 = inr (keywordAnalysis r) ∧
    Get reply (lit "atsScore") = inr v7 ∧ Number_ h v7 = inr n7 ∧
    overallScore r =
      Math_min [Math_max [num_or n1 (num_of_Z 50); num_of_Z 0]; num_of_Z 100] ∧
    atsScore r =
      Math_min [Math_max [num_or n7 (num_of_Z 60); num_of_Z 0]; num_of_Z 100].
Proof.
  unfold build_responseData. intros H. bind_inv H. injection H as <-.
  cbn [overallScore categories strengths suggestions jobTitleMatch
       keywordAnalysis atsScore].
  do 9 eexists. repeat (split; [eassumption|]). done.
Qed.

(** ** The sanitized feedback response (lines 288-339) *)

Lemma sanitize_inr h reply r :
  sanitize h reply = inr r →
  ∃ r0, build_responseData h reply = inr r0 ∧ r = ensure_some_data r0.
Proof.
  unfold sanitize. intros H. apply bind_inr in H as (r0 & H0 & [= <-]). eauto.
Qed.

Lemma ensure_some_data_fields r :
  overallScore (ensure_some_data r) = overallScore r ∧
  categories (ensure_some_data r) = categories r ∧
  jobTitleMatch (ensure_some_data r) = jobTitleMatch r ∧
  keywordAnalysis (ensure_some_data r) = keywordAnalysis r ∧
  atsScore (ensure_some_data r) = atsScore r ∧
  strengths (ensure_some_data r) =
    (if bool_decide (strengths r = []) then fallback_strengths else strengths r) ∧
  suggestions (ensure_some_data r) =
    (if bool_decide (suggestions r = []) then fallback_suggestions
     else suggestions r).
Proof.
  destruct r as [o c st su j k a]. unfold ensure_some_data.
  by destruct su, st.
Qed.

Lemma sanitize_category_score h cat c :
  sanitize_category h cat = inr c →
  ∃ v n, Get cat (lit "score") = inr v ∧ Number_ h v = inr n ∧
    cat_score c =
      Math_min [Math_max [num_or n (num_of_Z 5); num_of_Z 0]; num_of_Z 10].
Proof.
  unfold sanitize_category. intros H. bind_inv H. injection H as <-. eauto.
Qed.

Lemma categories_of_within h v cats :
  categories_of h v = inr cats → Forall (λ c, within 0 10 (cat_score c)) cats.
Proof.
  assert (Hd : Forall (λ c, within 0 10 (cat_score c)) default_categories).
  { repeat constructor. }
  destruct v; try (by intros [= <-]).
  intros H%mapM_inr. induction H as [|cat c ? ? Hc _ IH]; constructor; [|done].
  apply sanitize_category_score in Hc as (v & n & _ & _ & ->).
  apply clamp_within; [by apply num_or_not_nan | done].
Qed.

(** C1.  Whatever the LLM replied, if the sanitized response is built then
    its overallScore and atsScore are numbers between 0 and 100 and the
    score of every category is a number between 0 and 10 (bounds
    included; NaN is excluded). *)
Theorem scores_are_clamped h reply r :
  sanitize h reply = inr r →
  within 0 100 (overallScore r) ∧ within 0 100 (atsScore r) ∧
  Forall (λ c, within 0 10 (cat_score c)) (categories r).
Proof.
  intros (r0 & H0 & ->)%sanitize_inr.
  destruct (ensure_some_data_fields r0) as (-> & -> & _ & _ & -> & _).
  apply build_responseData_inr in H0
    as (v1 & n1 & v2 & v3 & v4 & v5 & v6 & v7 & n7 & H).
  destruct H as (_ & _ & _ & Hc & _ & _ & _ & _ & _ & _ & _ & _ & _ & _ & -> & ->).
  split; [|split].
  - apply clamp_within; [by apply num_or_not_nan | done].
  - apply clamp_within; [by apply num_or_not_nan | done].
  - by eapply categories_of_within.
Qed.


Lemma string_list_or_inr h v dflt l :
  string_list_or h v dflt = inr l →
  (Array_isArray v = false ∧ l = dflt) ∨
  (∃ elems strs, v = Arr elems ∧ mapM (String_ h) elems = inr strs ∧
     l = filter (λ s : jsstring, (0 < length s)%nat) strs).
Proof.
  destruct v; try (intros [= <-]; by left).
  cbn. intros H. apply bind_inr in H as (strs & Hs & [= <-]).
  right. eauto.
Qed.

Lemma filter_nonempty_Forall (strs : list jsstring) :
  Forall (λ s, s ≠ []) (filter (λ s : jsstring, (0 < length s)%nat) strs).
Proof.
  apply Forall_forall. intros s [Hs _]%list_elem_of_filter.
  destruct s; [simpl in Hs; lia | done].
Qed.

Lemma filter_nonempty_nil (strs : list jsstring) :
  Forall (λ s, s = []) strs →
  filter (λ s : jsstring, (0 < length s)%nat) strs = [].
Proof.
  induction 1 as [|s strs -> _ IH]; [done|].
  rewrite filter_cons_False by (simpl; lia). done.
Qed.

Lemma string_list_nonempty h v dflt fallback l :
  dflt ≠ [] → Forall (λ s, s ≠ []) dflt →
  fallback ≠ [] → Forall (λ s, s ≠ []) fallback →
  string_list_or h v dflt = inr l →
  let final := if bool_decide (l = []) then fallback else l in
  final ≠ [] ∧ Forall (λ s, s ≠ []) final.
Proof.
  intros Hd Hd' Hf Hf' H. cbn. case_bool_decide as Hl; [done|].
  split; [done|].
  apply string_list_or_inr in H as [[_ ->] | (elems & strs & _ & _ & ->)];
    [done | apply filter_nonempty_Forall].
Qed.

Lemma literal_lists_nonempty :
  Forall (λ l, l ≠ [] ∧ Forall (λ s : jsstring, s ≠ []) l)
    [default_strengths; default_suggestions; fallback_strengths; fallback_suggestions].
Proof. repeat constructor; done. Qed.

(** C7.  In the sanitized response, strengths and suggestions are non-empty
    lists of non-empty strings.  When the reply gives no array for one of
    them (the field is missing or is something else) the two-element
    default list stands in; when the array yields only empty strings (or
    is empty) the longer fallback list does. *)
Theorem strengths_and_suggestions_filled h reply r :
  sanitize h reply = inr r →
  (strengths r ≠ [] ∧ Forall (λ s, s ≠ []) (strengths r)) ∧
  (suggestions r ≠ [] ∧ Forall (λ s, s ≠ []) (suggestions r)) ∧
  (∀ v, Get reply (lit "strengths") = inr v → Array_isArray v = false →
        strengths r = default_strengths) ∧
  (∀ v, Get reply (lit "suggestions") = inr v → Array_isArray v = false →
        suggestions r = default_suggestions) ∧
  (∀ elems strs, Get reply (lit "strengths") = inr (Arr elems) →
        mapM (String_ h) elems = inr strs → Forall (λ s, s = []) strs →
        strengths r = fallback_strengths) ∧
  (∀ elems strs, Get reply (lit "suggestions") = inr (Arr elems) →
        mapM (String_ h) elems = inr strs → Forall (λ s, s = []) strs →
        suggestions r = fallback_suggestions).
Proof.
  intros (r0 & H0 & ->)%sanitize_inr.
  destruct (ensure_some_data_fields r0) as (_ & _ & _ & _ & _ & -> & ->).
  apply build_responseData_inr in H0
    as (v1 & n1 & v2 & v3 & v4 & v5 & v6 & v7 & n7 & H).
  destruct H as (_ & _ & _ & _ & G3 & H3 & G4 & H4 & _).
  pose proof literal_lists_nonempty as L.
  apply Forall_cons in L as [[D1 D1'] L]. apply Forall_cons in L as [[D2 D2'] L].
  apply Forall_cons in L as [[F1 F1'] L]. apply Forall_cons in L as [[F2 F2'] _].
  split; [exact (string_list_nonempty h v3 _ _ _ D1 D1' F1 F1' H3)|].
  split; [exact (string_list_nonempty h v4 _ _ _ D2 D2' F2 F2' H4)|].
  repeat split.
  - intros v Hv Hna. rewrite G3 in Hv. injection Hv as <-.
    apply string_list_or_inr in H3 as [[_ ->] | (? & ? & -> & _)]; done.
  - intros v Hv Hna. rewrite G4 in Hv. injection Hv as <-.
    apply string_list_or_inr in H4 as [[_ ->] | (? & ? & -> & _)]; done.
  - intros elems strs Hv Hs Hall. rewrite G3 in Hv. injection Hv as ->.
    apply string_list_or_inr in H3 as [[? _] | (? & strs' & [= <-] & Hs' & ->)];
      [done|].
    rewrite Hs in Hs'. injection Hs' as <-.
    by rewrite filter_nonempty_nil.
  - intros elems strs Hv Hs Hall. rewrite G4 in Hv. injection Hv as ->.
    apply string_list_or_inr in H4 as [[? _] | (? & strs' & [= <-] & Hs' & ->)];
      [done|].
    rewrite Hs in Hs'. injection Hs' as <-.
    by rewrite filter_nonempty_nil.
Qed.

Lemma Array_includes_levels v :
  Array_includes importance_levels v = true ↔ v ∈ importance_levels.
Proof.
  unfold Array_includes, importance_levels. cbn [existsb]. split.
  - destruct v; cbn; try done. unfold jsstring_eqb.
    repeat case_bool_decide; subst; cbn; try done; set_solver.
  - intros Hin. apply list_elem_of_In in Hin. cbn in Hin.
    destruct Hin as [<- | [<- | [<- | []]]]; done.
Qed.

Lemma sanitize_keyword_inr h kw e :
  sanitize_keyword h kw = inr e →
  ∃ c n imp, Get kw (lit "count") = inr c ∧ Number_ h c = inr n ∧
    Get kw (lit "importance") = inr imp ∧
    kw_count e = Math_max [num_or n (num_of_Z 0); num_of_Z 0] ∧
    kw_importance e =
      (if Array_includes importance_levels imp then imp else Str (lit "medium")).
Proof.
  unfold sanitize_keyword. intros H. bind_inv H. injection H as <-.
  cbn. eauto 10.
Qed.

Lemma sanitize_keyword_sound h kw e :
  sanitize_keyword h kw = inr e →
  num_le (num_of_Z 0) (kw_count e) = true ∧ kw_importance e ∈ importance_levels.
Proof.
  intros (c & n & imp & _ & _ & _ & -> & ->)%sanitize_keyword_inr. split.
  - apply Math_max_two; [by apply num_or_not_nan | done].
  - destruct (Array_includes importance_levels imp) eqn:E.
    + by apply Array_includes_levels.
    + unfold importance_levels. set_solver.
Qed.

Lemma keywordAnalysis_of_inr h v kws :
  keywordAnalysis_of h v = inr kws →
  (Array_isArray v = false ∧ kws = []) ∨
  (∃ elems entries, v = Arr elems ∧
     Forall2 (λ kw e, sanitize_keyword h kw = inr e) elems entries ∧
     kws = filter (λ e, kw_keyword e ≠ []) entries).
Proof.
  destruct v; try (intros [= <-]; by left).
  cbn. intros H. apply bind_inr in H as (entries & He & [= <-]).
  right. exists elems, entries. split; [done|]. split; [by apply mapM_inr|].
  apply list_filter_iff. intros e. cbn. by case_bool_decide.
Qed.

Lemma sanitize_keyword_importance h kw e imp :
  sanitize_keyword h kw = inr e → Get kw (lit "importance") = inr imp →
  (imp ∈ importance_levels → kw_importance e = imp) ∧
  (imp ∉ importance_levels → kw_importance e = Str (lit "medium")).
Proof.
  intros (c & n & imp' & _ & _ & Hi & _ & ->)%sanitize_keyword_inr Hi'.
  rewrite Hi in Hi'. injection Hi' as ->.
  destruct (Array_includes importance_levels imp) eqn:E.
  - split; [done|]. intros []. by apply Array_includes_levels.
  - split; [|done]. intros Hin%Array_includes_levels. congruence.
Qed.

(** C8.  Every entry of keywordAnalysis in the sanitized response has a
    non-empty keyword, a count that is a number not below 0 and an
    importance among "high", "medium" and "low"; the list is what remains of
    the sanitized entries once those with an empty keyword are removed; an
    importance of the reply that is not one of the three is replaced by
    "medium". *)
Theorem keyword_entries_are_well_formed h reply r :
  sanitize h reply = inr r →
  Forall (λ e, kw_keyword e ≠ [] ∧
               num_le (num_of_Z 0) (kw_count e) = true ∧
               kw_importance e ∈ importance_levels) (keywordAnalysis r) ∧
  (∀ elems, Get reply (lit "keywordAnalysis") = inr (Arr elems) →
     ∃ entries,
       Forall2 (λ kw e, sanitize_keyword h kw = inr e) elems entries ∧
       keywordAnalysis r = filter (λ e, kw_keyword e ≠ []) entries) ∧
  (∀ kw e imp, sanitize_keyword h kw = inr e →
     Get kw (lit "importance") = inr imp →
     (imp ∈ importance_levels → kw_importance e = imp) ∧
     (imp ∉ importance_levels → kw_importance e = Str (lit "medium"))).
Proof.
  intros (r0 & H0 & ->)%sanitize_inr.
  destruct (ensure_some_data_fields r0) as (_ & _ & _ & -> & _).
  apply build_responseData_inr in H0
    as (v1 & n1 & v2 & v3 & v4 & v5 & v6 & v7 & n7 & H).
  destruct H as (_ & _ & _ & _ & _ & _ & _ & _ & _ & _ & G6 & H6 & _).
  apply keywordAnalysis_of_inr in H6
    as [[Hna ->] | (elems & entries & -> & Hall & ->)].
  - split; [constructor|]. split.
    + intros elems Hv. rewrite G6 in Hv. by injection Hv as ->.
    + intros kw e imp. apply sanitize_keyword_importance.
  - split; [|split].
    + apply Forall_forall. intros e [Hne Hin]%list_elem_of_filter.
      split; [done|].
      apply list_elem_of_lookup in Hin as [i Hi].
      destruct (Forall2_lookup_r _ _ _ _ _ Hall Hi) as (kw & _ & Hkw).
      by eapply sanitize_keyword_sound.
    + intros elems' Hv. rewrite G6 in Hv. injection Hv as <-. eauto.
    + intros kw e imp. apply sanitize_keyword_importance.
Qed.

Lemma Number_Num h z : Number_ h (Num z) = inr z.
Proof. done. Qed.

Lemma num_or_zero z d : is_zero z = true → num_or z d = d.
Proof. by destruct z. Qed.

Lemma categories_of_zero h elems cats :
  categories_of h (Arr elems) = inr cats →
  Forall2 (λ cat c, ∀ z, Get cat (lit "score") = inr (Num z) →
                         is_zero z = true → cat_score c = num_of_Z 5)
    elems cats.
Proof.
  intros H%mapM_inr. induction H as [|cat c ? ? Hc _ IH]; constructor; [|done].
  intros z Hz Hzero.
  apply sanitize_category_score in Hc as (v & n & Hv & Hn & ->).
  rewrite Hz in Hv. injection Hv as <-. injection Hn as <-.
  by rewrite num_or_zero.
Qed.

(** C9.  A score of exactly 0 (of either sign) in the reply is not kept: an
    overallScore of 0 becomes 50, an atsScore of 0 becomes 60 and a category
    score of 0 becomes 5. *)
Theorem zero_scores_are_replaced h reply r :
  sanitize h reply = inr r →
  (∀ z, Get reply (lit "overallScore") = inr (Num z) → is_zero z = true →
        overallScore r = num_of_Z 50) ∧
  (∀ z, Get reply (lit "atsScore") = inr (Num z) → is_zero z = true →
        atsScore r = num_of_Z 60) ∧
  (∀ elems, Get reply (lit "categories") = inr (Arr elems) →
     Forall2 (λ cat c, ∀ z, Get cat (lit "score") = inr (Num z) →
                            is_zero z = true → cat_score c = num_of_Z 5)
       elems (categories r)).
Proof.
  intros (r0 & H0 & ->)%sanitize_inr.
  destruct (ensure_some_data_fields r0) as (-> & -> & _ & _ & -> & _).
  apply build_responseData_inr in H0
    as (v1 & n1 & v2 & v3 & v4 & v5 & v6 & v7 & n7 & H).
  destruct H as (G1 & N1 & G2 & H2 & _ & _ & _ & _ & _ & _ & _ & _ & G7 & N7 & -> & ->).
  split; [|split].
  - intros z Hz Hzero. rewrite G1 in Hz. injection Hz as ->.
    injection N1 as <-. by rewrite num_or_zero.
  - intros z Hz Hzero. rewrite G7 in Hz. injection Hz as ->.
    injection N7 as <-. by rewrite num_or_zero.
  - intros elems Hv. rewrite G2 in Hv. injection Hv as ->.
    by apply (categories_of_zero h).
Qed.

(** ** File names of the generated documents (lines 478-484, 1022-1035) *)

Lemma replace_each_removes cls s :
  replace_each cls (lit "") s = filter (λ c, cls c = false) s.
Proof.
  induction s as [|c s IH]; [done|]. cbn [replace_each].
  destruct (cls c) eqn:E.
  - rewrite filter_cons_False by congruence. done.
  - rewrite filter_cons_True by done. by rewrite IH.
Qed.

Lemma replace_runs_from_units in_run cls by_ s :
  Forall (λ c, (c ∈ s ∧ cls c = false) ∨ c ∈ by_)
    (replace_runs_from in_run cls by_ s).
Proof.
  revert in_run. induction s as [|c s IH]; intros in_run; [constructor|].
  cbn [replace_runs_from].
  assert (Hrest : ∀ b, Forall (λ c0, (c0 ∈ c :: s ∧ cls c0 = false) ∨ c0 ∈ by_)
                         (replace_runs_from b cls by_ s)).
  { intros b. eapply Forall_impl; [apply IH|]. intros x [[? ?]|?]; [left|right]; [|done].
    split; [by right | done]. }
  destruct (cls c) eqn:E.
  - apply Forall_app. split; [|apply Hrest].
    destruct in_run; [constructor|]. apply Forall_forall. auto.
  - constructor; [|apply Hrest]. left. split; [by left | done].
Qed.

Lemma lower_unit_clean c : alnum_or_hyphen c → filename_unit (lower_unit c).
Proof.
  unfold alnum_or_hyphen, filename_unit, lower_unit, is_lower, is_upper,
    is_digit, in_range, hyphen.
  intros H. destruct (65 <=? c)%N eqn:E1, (c <=? 90)%N eqn:E2; cbn [andb];
    repeat match goal with
           | H : (_ <=? _)%N = true |- _ => apply N.leb_le in H
           | H : (_ <=? _)%N = false |- _ => apply N.leb_gt in H
           end;
    try (destruct H as [H | [H | [H | H]]]; auto; discriminate).
  left. apply andb_true_iff. split; apply N.leb_le; lia.
Qed.

Lemma sanitizeFileName_before_lowercase name :
  Forall alnum_or_hyphen
    (replace_runs is_space (lit "-")
       (replace_each (λ c, negb (is_alnum_or_space c)) (lit "") name)).
Proof.
  eapply Forall_impl; [apply replace_runs_from_units|].
  intros c [[Hin Hns] | Hh].
  - rewrite replace_each_removes in Hin.
    apply list_elem_of_filter in Hin as [Hk _]. apply negb_false_iff in Hk.
    unfold is_alnum_or_space in Hk. rewrite Hns, orb_false_r in Hk.
    unfold alnum_or_hyphen.
    apply orb_true_iff in Hk as [Hk|Hk]; [|auto].
    apply orb_true_iff in Hk as [Hk|Hk]; auto.
  - apply list_elem_of_In in Hh. cbn in Hh. destruct Hh as [<- | []].
    unfold alnum_or_hyphen. auto.
Qed.

Lemma sanitizeFileName_clean name : Forall filename_unit (sanitizeFileName name).
Proof.
  unfold sanitizeFileName, toLowerCase. apply Forall_map.
  eapply Forall_impl; [apply sanitizeFileName_before_lowercase|].
  apply lower_unit_clean.
Qed.

Lemma replace_runs_in_run cls by_ ws rest :
  Forall (λ c, cls c = true) ws →
  replace_runs_from true cls by_ (ws ++ rest) = replace_runs_from true cls by_ rest.
Proof.
  induction 1 as [|c ws Hc _ IH]; [done|].
  cbn [app replace_runs_from]. by rewrite Hc.
Qed.

Lemma replace_runs_run cls by_ ws rest :
  ws ≠ [] → Forall (λ c, cls c = true) ws →
  replace_runs cls by_ (ws ++ rest) = by_ ++ replace_runs_from true cls by_ rest.
Proof.
  intros Hne Hws. destruct Hws as [|c ws Hc Hws]; [done|].
  unfold replace_runs. cbn [app replace_runs_from]. rewrite Hc.
  by rewrite replace_runs_in_run.
Qed.

Lemma replace_runs_after_run cls by_ c rest :
  cls c = false →
  replace_runs_from true cls by_ (c :: rest) = c :: replace_runs cls by_ rest.
Proof. intros Hc. cbn [replace_runs_from]. by rewrite Hc. Qed.

Lemma replace_runs_other cls by_ c rest :
  cls c = false →
  replace_runs cls by_ (c :: rest) = c :: replace_runs cls by_ rest.
Proof. intros Hc. unfold replace_runs. cbn [replace_runs_from]. by rewrite Hc. Qed.


Lemma resume_clean : Forall filename_unit (lit "resume").
Proof. repeat constructor. Qed.

Lemma sanitizeFileName_of_inr v expr f :
  sanitizeFileName_of v expr = inr f → ∃ name, v = Str name ∧ f = sanitizeFileName name.
Proof. destruct v; try done. intros [= <-]. eauto. Qed.

Lemma finalFileName_doc_inr resumeData f :
  finalFileName_doc resumeData = inr f →
  (∃ name, Get resumeData (lit "name") = inr name ∧ ToBoolean name = false ∧
           f = lit "resume") ∨
  (∃ name, Get resumeData (lit "name") = inr (Str name) ∧ name ≠ [] ∧
           f = sanitizeFileName name).
Proof.
  unfold finalFileName_doc. intros H. apply bind_inr in H as (v & Hv & H).
  destruct (ToBoolean v) eqn:E.
  - apply sanitizeFileName_of_inr in H as (name & -> & ->). right.
    exists name. repeat split; [done|]. intros ->. done.
  - injection H as <-. left. eauto.
Qed.

Lemma finalFileName_pdf_inr fileName resumeData f :
  finalFileName_pdf fileName resumeData = inr f →
  (∃ name, ToBoolean resumeData = true ∧
           Get resumeData (lit "name") = inr (Str name) ∧ name ≠ [] ∧
           f = sanitizeFileName name) ∨
  (∃ name, fileName = Str name ∧ name ≠ [] ∧ f = sanitizeFileName name) ∨
  (ToBoolean fileName = false ∧ f = lit "resume").
Proof.
  unfold finalFileName_pdf. intros H. apply bind_inr in H as (named & Hn & H).
  destruct (ToBoolean named) eqn:E.
  - apply bind_inr in H as (v & Hv & H).
    apply sanitizeFileName_of_inr in H as (name & -> & ->). left.
    destruct (ToBoolean resumeData) eqn:Er.
    + exists name. rewrite Hv in Hn. injection Hn as <-.
      repeat split; try done. intros ->. done.
    + injection Hn as <-. congruence.
  - destruct (ToBoolean fileName) eqn:Ef.
    + apply sanitizeFileName_of_inr in H as (name & -> & ->). right. left.
      exists name. repeat split; try done. intros ->. done.
    + injection H as <-. auto.
Qed.

Lemma finalFileName_doc_clean resumeData f :
  finalFileName_doc resumeData = inr f → Forall filename_unit f.
Proof.
  intros [(? & _ & _ & ->) | (name & _ & _ & ->)]%finalFileName_doc_inr;
    auto using resume_clean, sanitizeFileName_clean.
Qed.

Lemma finalFileName_pdf_clean fileName resumeData f :
  finalFileName_pdf fileName resumeData = inr f → Forall filename_unit f.
Proof.
  intros [(? & _ & _ & _ & ->) | [(? & _ & _ & ->) | [_ ->]]]%finalFileName_pdf_inr;
    auto using resume_clean, sanitizeFileName_clean.
Qed.

Lemma generate_doc_run h req_body s :
  generate_doc h req_body s =
  (inr match Destructure req_body (lit "resumeData") (lit "req.body") with
       | inl e => mkResponse 500 (ErrorOnly (lit "Failed to generate DOC: " ++ message e))
       | inr resumeData =>
           if ToBoolean resumeData then
             match finalFileName_doc resumeData with
             | inl e =>
                 mkResponse 500 (ErrorOnly (lit "Failed to generate DOC: " ++ message e))
             | inr finalFileName =>
                 match docx_pack h resumeData with
                 | inl e =>
                     mkResponse 500
                       (ErrorOnly (lit "Failed to generate DOC: " ++ message e))
                 | inr buffer =>
                     mkResponse 200
                       (Attachment docx_type
                          (content_disposition finalFileName (lit ".docx")) buffer)
                 end
             end
           else mkResponse 400 (ErrorOnly no_resume_data)
       end, s).
Proof.
  unfold generate_doc, try_catch, mbind, M_bind, lift, mret, M_ret.
  destruct (Destructure req_body _ _) as [e|resumeData]; [done|].
  destruct (ToBoolean resumeData); [|done]. cbn [negb].
  destruct (finalFileName_doc resumeData); [done|].
  by destruct (docx_pack h resumeData).
Qed.

Lemma generate_doc_attachment h req_body s st ct cd bytes s' :
  generate_doc h req_body s = (inr (mkResponse st (Attachment ct cd bytes)), s') →
  ∃ resumeData f,
    Destructure req_body (lit "resumeData") (lit "req.body") = inr resumeData ∧
    ToBoolean resumeData = true ∧
    finalFileName_doc resumeData = inr f ∧
    docx_pack h resumeData = inr bytes ∧
    cd = content_disposition f (lit ".docx").
Proof.
  rewrite generate_doc_run.
  destruct (Destructure req_body _ _) as [e|resumeData] eqn:Hd; [done|].
  destruct (ToBoolean resumeData) eqn:Ht; [|done].
  destruct (finalFileName_doc resumeData) as [e|f] eqn:Ef; [done|].
  destruct (docx_pack h resumeData) as [e|buffer] eqn:Hp; [done|].
  intros [= <- <- <- <- <-]. eauto 10.
Qed.

Lemma named_is_truthy resumeData name :
  Get resumeData (lit "name") = inr (Str name) → ToBoolean resumeData = true.
Proof. by destruct resumeData. Qed.


Lemma nonempty_truthy (name : jsstring) : name ≠ [] → ToBoolean (Str name) = true.
Proof. intros H. cbn. by rewrite bool_decide_eq_false_2. Qed.

Lemma finalFileName_doc_named resumeData name :
  Get resumeData (lit "name") = inr (Str name) → name ≠ [] →
  finalFileName_doc resumeData = inr (sanitizeFileName name).
Proof.
  intros Hg Hne. unfold finalFileName_doc. rewrite Hg. cbn [mbind result_bind].
  by rewrite nonempty_truthy.
Qed.

Lemma finalFileName_doc_default resumeData v :
  Get resumeData (lit "name") = inr v → ToBoolean v = false →
  finalFileName_doc resumeData = inr (lit "resume").
Proof.
  intros Hg Hf. unfold finalFileName_doc. rewrite Hg. cbn [mbind result_bind].
  by rewrite Hf.
Qed.

Lemma finalFileName_pdf_named fileName resumeData name :
  ToBoolean resumeData = true →
  Get resumeData (lit "name") = inr (Str name) → name ≠ [] →
  finalFileName_pdf fileName resumeData = inr (sanitizeFileName name).
Proof.
  intros Ht Hg Hne. unfold finalFileName_pdf. rewrite Ht, Hg.
  cbn [mbind result_bind]. by rewrite nonempty_truthy.
Qed.

Lemma finalFileName_pdf_unnamed fileName resumeData :
  no_usable_name resumeData →
  finalFileName_pdf fileName resumeData =
  (if ToBoolean fileName then sanitizeFileName_of fileName (lit "fileName")
   else inr (lit "resume")).
Proof.
  unfold finalFileName_pdf. intros [Hf | (v & Hg & Hf)].
  - rewrite Hf. cbn [mbind result_bind mret result_ret]. by rewrite Hf.
  - destruct (ToBoolean resumeData) eqn:E.
    + rewrite Hg. cbn [mbind result_bind]. by rewrite Hf.
    + cbn [mbind result_bind mret result_ret]. by rewrite E.
Qed.

(** ** POST /api/generate-pdf (lines 1017-1126) *)

Lemma chromium_unbound s :
  resolve_binding (lit "chromium") s =
  (inl (mkError ReferenceError (lit "chromium is not defined")), s).
Proof. reflexivity. Qed.

Lemma generate_pdf_fails h req_body s :
  generate_pdf h req_body s =
  (inr (mkResponse 500 (ErrorOnly (lit "Failed to generate PDF"))), s).
Proof.
  unfold generate_pdf, try_catch, mbind, M_bind, lift, mret, M_ret.
  destruct (Destructure req_body _ _) as [e|html]; [done|].
  destruct (Get req_body (lit "fileName")) as [e|fileName]; [done|].
  destruct (Get req_body (lit "resumeData")) as [e|resumeData]; [done|].
  destruct (finalFileName_pdf fileName resumeData) as [e|f]; [done|].
  by rewrite chromium_unbound.
Qed.

(** C4.  The identifier [chromium] is bound nowhere in server.js, and the
    handler of POST /api/generate-pdf evaluates it before it launches the
    browser: whatever the request body, the answer is status 500 with the
    body { error: "Failed to generate PDF" }, and nothing else has happened
    (the state is the one the handler started in). *)
Theorem generate_pdf_always_fails :
  (lit "chromium" ∉ module_scope) ∧
  (∀ h req_body s,
     generate_pdf h req_body s =
     (inr (mkResponse 500 (ErrorOnly (lit "Failed to generate PDF"))), s)).
Proof.
  split; [|apply generate_pdf_fails].
  apply (bool_decide_eq_false_1 _). reflexivity.
Qed.

(** C10.  The file name that POST /api/generate-doc and POST
    /api/generate-pdf compute from a name string holds only lowercase ASCII
    letters, digits and hyphens: the code units other than ASCII letters,
    digits and whitespace are removed, every run of whitespace becomes one
    hyphen, and the result is lowercased.  [resumeData.name] is used when
    it is a non-empty string, otherwise (generate-pdf only) [fileName], and
    without a name the file name is "resume".  The Content-Disposition
    header of every document that POST /api/generate-doc sends is
    [attachment; filename="<file name>.docx"] with the file name computed
    from the [resumeData] of the request: for a non-empty name string the
    name so cleaned, without a name "resume".  POST /api/generate-pdf
    computes its file name by the same rule and never sends a document. *)
Theorem download_filename_is_clean :
  (∀ name, Forall filename_unit (sanitizeFileName name)) ∧
  (∀ name, sanitizeFileName name =
     toLowerCase (replace_runs is_space (lit "-")
                    (filter (λ c, is_alnum_or_space c = true) name))) ∧
  (∀ ws c rest, ws ≠ [] → Forall (λ c, is_space c = true) ws → is_space c = false →
     replace_runs is_space (lit "-") (ws ++ c :: rest) =
     hyphen :: c :: replace_runs is_space (lit "-") rest) ∧
  (∀ ws, ws ≠ [] → Forall (λ c, is_space c = true) ws →
     replace_runs is_space (lit "-") ws = [hyphen]) ∧
  (∀ c rest, is_space c = false →
     replace_runs is_space (lit "-") (c :: rest) =
     c :: replace_runs is_space (lit "-") rest) ∧
  (∀ resumeData name,
     Get resumeData (lit "name") = inr (Str name) → name ≠ [] →
     finalFileName_doc resumeData = inr (sanitizeFileName name)) ∧
  (∀ resumeData v,
     Get resumeData (lit "name") = inr v → ToBoolean v = false →
     finalFileName_doc resumeData = inr (lit "resume")) ∧
  (∀ fileName resumeData name,
     ToBoolean resumeData = true →
     Get resumeData (lit "name") = inr (Str name) → name ≠ [] →
     finalFileName_pdf fileName resumeData = inr (sanitizeFileName name)) ∧
  (∀ resumeData name,
     no_usable_name resumeData → name ≠ [] →
     finalFileName_pdf (Str name) resumeData = inr (sanitizeFileName name)) ∧
  (∀ fileName resumeData,
     no_usable_name resumeData → ToBoolean fileName = false →
     finalFileName_pdf fileName resumeData = inr (lit "resume")) ∧
  (∀ resumeData f, finalFileName_doc resumeData = inr f → Forall filename_unit f) ∧
  (∀ fileName resumeData f,
     finalFileName_pdf fileName resumeData = inr f → Forall filename_unit f) ∧
  (∀ h req_body s st ct cd bytes s',
     generate_doc h req_body s = (inr (mkResponse st (Attachment ct cd bytes)), s') →
     ∃ resumeData f,
       Destructure req_body (lit "resumeData") (lit "req.body") = inr resumeData ∧
       finalFileName_doc resumeData = inr f ∧
       cd = lit "attachment; filename=" ++ [dquote] ++ f ++ lit ".docx" ++ [dquote] ∧
       Forall filename_unit f ∧
       (∀ name, Get resumeData (lit "name") = inr (Str name) → name ≠ [] →
                f = sanitizeFileName name) ∧
       (∀ v, Get resumeData (lit "name") = inr v → ToBoolean v = false →
             f = lit "resume")) ∧
  (∀ h req_body s resumeData name buffer,
     Destructure req_body (lit "resumeData") (lit "req.body") = inr resumeData →
     Get resumeData (lit "name") = inr (Str name) → name ≠ [] →
     docx_pack h resumeData = inr buffer →
     generate_doc h req_body s =
     (inr (mkResponse 200
             (Attachment docx_type
                (lit "attachment; filename=" ++ [dquote] ++ sanitizeFileName name
                   ++ lit ".docx" ++ [dquote])
                buffer)), s)) ∧
  (∀ h req_body s resumeData v buffer,
     Destructure req_body (lit "resumeData") (lit "req.body") = inr resumeData →
     ToBoolean resumeData = true →
     Get resumeData (lit "name") = inr v → ToBoolean v = false →
     docx_pack h resumeData = inr buffer →
     generate_doc h req_body s =
     (inr (mkResponse 200
             (Attachment docx_type
                (lit "attachment; filename=" ++ [dquote] ++ lit "resume"
                   ++ lit ".docx" ++ [dquote])
                buffer)), s)) ∧
  (∀ h req_body s st ct cd bytes s',
     generate_pdf h req_body s ≠ (inr (mkResponse st (Attachment ct cd bytes)), s')).
Proof.
  split; [apply sanitizeFileName_clean|].
  split.
  { intros name. unfold sanitizeFileName. rewrite replace_each_removes.
    do 2 f_equal. apply list_filter_iff. intros c.
    by rewrite negb_false_iff. }
  split.
  { intros ws c rest Hne Hws Hc. rewrite replace_runs_run by done.
    by rewrite replace_runs_after_run. }
  split.
  { intros ws Hne Hws. rewrite <- (app_nil_r ws).
    by rewrite replace_runs_run. }
  split; [intros c rest; apply replace_runs_other|].
  split; [apply finalFileName_doc_named|].
  split; [apply finalFileName_doc_default|].
  split; [apply finalFileName_pdf_named|].
  split.
  { intros resumeData name Hno Hne. rewrite finalFileName_pdf_unnamed by done.
    by rewrite nonempty_truthy. }
  split.
  { intros fileName resumeData Hno Hf. rewrite finalFileName_pdf_unnamed by done.
    by rewrite Hf. }
  split; [apply finalFileName_doc_clean|].
  split; [apply finalFileName_pdf_clean|].
  split.
  { intros h req_body s st ct cd bytes s' Hrun.
    apply generate_doc_attachment in Hrun
      as (resumeData & f & Hd & _ & Hf & _ & ->).
    exists resumeData, f. split; [done|]. split; [done|]. split; [done|].
    split; [by eapply finalFileName_doc_clean|]. split.
    - intros name Hg Hne. rewrite (finalFileName_doc_named _ _ Hg Hne) in Hf.
      by injection Hf.
    - intros v Hg Hv. rewrite (finalFileName_doc_default _ _ Hg Hv) in Hf.
      by injection Hf. }
  split.
  { intros h req_body s resumeData name buffer Hd Hg Hne Hpack.
    rewrite generate_doc_run, Hd, (named_is_truthy _ _ Hg).
    by rewrite (finalFileName_doc_named _ _ Hg Hne), Hpack. }
  split.
  { intros h req_body s resumeData v buffer Hd Ht Hg Hv Hpack.
    rewrite generate_doc_run, Hd, Ht.
    by rewrite (finalFileName_doc_default _ _ Hg Hv), Hpack. }
  intros h req_body s st ct cd bytes s'. by rewrite generate_pdf_fails.
Qed.

(** ** Text extraction (lines 120-163) *)

Lemma long_enough_truthy s : long_enough s = true → ToBoolean (Str s) = true.
Proof. intros H. destruct s; [done|]. done. Qed.

Lemma usable_Some s : usable (Some s) = long_enough s.
Proof.
  unfold usable. destruct (long_enough s) eqn:E.
  - by rewrite long_enough_truthy.
  - unfold long_enough in E. rewrite E. apply andb_false_r.
Qed.

Lemma readFileSync_existing h p s :
  p ∈ files s → readFileSync h p s = (read_file h p, s).
Proof. intros Hp. unfold readFileSync. by rewrite bool_decide_eq_true_2. Qed.

#[local] Arguments usable : simpl never.
#[local] Arguments long_enough : simpl never.

Ltac chain_done E :=
  cbn in E; injection E as <- <-; cbn; split; [done | by rewrite <- ?app_assoc].

Ltac chain_test E t :=
  cbn in E; rewrite ?usable_Some in E; cbn [usable] in E;
  try (destruct (long_enough t) eqn:?; [chain_done E|]).

(** C2.  On the path of a readable file, processPdf behaves as the chain
    pdf-parse, pdftotextjs, Tesseract OCR of the specification: it invokes
    the extractors in that order, stops at the first one whose text has a
    trimmed length above 50 and returns that text, and throws when none of
    the three produces such a text.  The log tells which extractors were
    invoked; the files are untouched. *)
Theorem processPdf_follows_the_chain h filePath dataBuffer s :
  filePath ∈ files s → read_file h filePath = inr dataBuffer →
  returned (processPdf h filePath s).1 =
    (first_usable (extraction_chain h filePath dataBuffer)).2 ∧
  (processPdf h filePath s).2 =
    mkState (files s)
      (events s ++
         map Extract (first_usable (extraction_chain h filePath dataBuffer)).1).
Proof.
  intros Hin Hread.
  destruct (processPdf h filePath s) as [r s'] eqn:E. cbn [fst snd].
  unfold processPdf in E.
  unfold try_catch at 1, mbind at 1, M_bind at 1 in E.
  rewrite readFileSync_existing, Hread in E by done.
  unfold extraction_chain, first_usable, pdf_parse_output, pdftotext_output,
    tesseract_output.
  unfold call_pdfParse, call_pdftotext, call_tesseract in E.
  unfold try_catch, mbind, M_bind, mret, M_ret, mthrow, M_throw, lift,
    emit, await_void in E.
  destruct (pdfParse h dataBuffer) as [e1|[t1|]]; chain_test E t1.
  all: destruct (pdftotext_getText h filePath) as [e2|[t2|]]; chain_test E t2.
  all: destruct (createWorker (ocr h)) as [w1|]; [chain_done E|];
       destruct (loadLanguage (ocr h)) as [w2|]; [chain_done E|];
       destruct (initialize (ocr h)) as [w3|]; [chain_done E|];
       destruct (recognize (ocr h) filePath) as [e3|[t3|]]; [chain_done E| |];
       (destruct (terminate (ocr h)) as [w4|]; [chain_done E|]);
       chain_test E t3; chain_done E.
Qed.

(** ** What the handlers do to the files and the log *)

Section Effects.
Context (allowed : event → Prop).

Lemma grows_refl s : grows_by allowed s s.
Proof. split; [done|]. exists []. by rewrite app_nil_r. Qed.

Lemma grows_trans s1 s2 s3 :
  grows_by allowed s1 s2 → grows_by allowed s2 s3 → grows_by allowed s1 s3.
Proof.
  intros [F1 (e1 & E1 & A1)] [F2 (e2 & E2 & A2)]. split; [congruence|].
  exists (e1 ++ e2). rewrite E2, E1, app_assoc. split; [done|].
  by apply Forall_app.
Qed.

Lemma keeps_ret {A} (x : A) : keeps allowed (mret x).
Proof. intros s. apply grows_refl. Qed.

Lemma keeps_throw {A} (e : Error) : keeps allowed (mthrow e : M A).
Proof. intros s. apply grows_refl. Qed.

Lemma keeps_lift {A} (r : result A) : keeps allowed (lift r).
Proof. intros s. apply grows_refl. Qed.

Lemma keeps_emit e : allowed e → keeps allowed (emit e).
Proof. intros He s. split; [done|]. exists [e]. by repeat constructor. Qed.

Lemma keeps_bind {A B} (m : M A) (f : A → M B) :
  keeps allowed m → (∀ x, keeps allowed (f x)) → keeps allowed (m ≫= f).
Proof.
  intros Hm Hf s. unfold mbind, M_bind. specialize (Hm s).
  destruct (m s) as [[e|x] s1]; [done|].
  eapply grows_trans; [exact Hm | apply Hf].
Qed.

Lemma keeps_try_catch {A} (m : M A) (handler : Error → M A) :
  keeps allowed m → (∀ e, keeps allowed (handler e)) →
  keeps allowed (try_catch m handler).
Proof.
  intros Hm Hh s. unfold try_catch. specialize (Hm s).
  destruct (m s) as [[e|x] s1]; [|done].
  eapply grows_trans; [exact Hm | apply Hh].
Qed.

Lemma keeps_await_void o : keeps allowed (await_void o).
Proof. destruct o; [apply keeps_throw | apply keeps_ret]. Qed.

Lemma keeps_existsSync p : keeps allowed (existsSync p).
Proof. intros s. apply grows_refl. Qed.

Lemma keeps_readFileSync h p : keeps allowed (readFileSync h p).
Proof.
  intros s. unfold readFileSync. case_bool_decide; apply grows_refl.
Qed.
End Effects.

Lemma keeps_weaken (P Q : event → Prop) {A} (m : M A) :
  (∀ e, P e → Q e) → keeps P m → keeps Q m.
Proof.
  intros HPQ Hm s. destruct (Hm s) as [F (evs & E & Hall)].
  split; [done|]. exists evs. split; [done|]. by eapply Forall_impl.
Qed.

Ltac keeps_step :=
  match goal with
  | |- keeps _ (mbind _ _) => apply keeps_bind
  | |- keeps _ (_ ≫= _) => apply keeps_bind
  | |- keeps _ (try_catch _ _) => apply keeps_try_catch
  | |- keeps _ (mret _) => apply keeps_ret
  | |- keeps _ (mthrow _) => apply keeps_throw
  | |- keeps _ (lift _) => apply keeps_lift
  | |- keeps _ (await_void _) => apply keeps_await_void
  | |- keeps _ (readFileSync _ _) => apply keeps_readFileSync
  | |- keeps _ (existsSync _) => apply keeps_existsSync
  | |- keeps _ (emit _) => apply keeps_emit
  | |- keeps _ (if ?b then _ else _) => destruct b
  | |- keeps _ (match ?x with _ => _ end) => destruct x
  | |- ∀ _, _ => intros ?
  end.

Lemma extract_is_extract x : is_extract (Extract x).
Proof. by exists x. Qed.

Lemma keeps_processPdf h p : keeps is_extract (processPdf h p).
Proof.
  unfold processPdf, call_pdfParse, call_pdftotext, call_tesseract.
  repeat keeps_step; apply extract_is_extract.
Qed.

Lemma keeps_extract_text h file : keeps is_extract (extract_text h file).
Proof.
  unfold extract_text, processDocx, processTextFile.
  repeat first [apply keeps_processPdf | keeps_step].
Qed.

Lemma is_extract_not_unlink e : is_extract e → not_unlink e.
Proof. intros [x ->] p. done. Qed.

Lemma keeps_callGroq h messages : keeps not_unlink (callGroq h messages).
Proof. unfold callGroq. repeat keeps_step. done. Qed.

Lemma keeps_feedback_try h file : keeps not_unlink (feedback_try h file).
Proof.
  unfold feedback_try.
  apply keeps_bind.
  { eapply keeps_weaken; [apply is_extract_not_unlink | apply keeps_extract_text]. }
  repeat first [apply keeps_callGroq | keeps_step].
Qed.

Lemma feedback_catch_returns error s :
  ∃ resp, feedback_catch error s = (inr resp, s) ∧ status resp ≠ 200%nat.
Proof.
  unfold feedback_catch.
  repeat match goal with
         | |- context [if ?b then _ else _] => destruct b
         end; eexists; (split; [reflexivity | done]).
Qed.

(** ** POST /api/resume/feedback (lines 208-391) *)

Lemma feedback_finally_spec h p s :
  ∃ s2, feedback_finally h p s = (inr (), s2) ∧
    ((p ≠ [] ∧ p ∈ files s ∧
      events s2 = events s ++ [Unlink p] ∧
      files s2 = match unlink_failure h p with
                 | None => files s ∖ {[ p ]}
                 | Some _ => files s
                 end) ∨
     ((p = [] ∨ p ∉ files s) ∧ s2 = s)).
Proof.
  unfold feedback_finally. destruct p as [|c p].
  { cbn. eexists. split; [done|]. right. auto. }
  change (ToBoolean (Str (c :: p))) with true. cbn iota.
  unfold unlinkSync.
  unfold mbind, M_bind, mret, M_ret, existsSync, try_catch, emit, remove_file.
  cbn [files events]. case_bool_decide as Hin; cbn.
  - rewrite bool_decide_eq_true_2 by done.
    destruct (unlink_failure h (c :: p)); eexists; (split; [done|]); left; done.
  - eexists. split; [done|]. right. auto.
Qed.

Lemma feedback_finally_events h p s :
  ∃ s2 evs, feedback_finally h p s = (inr (), s2) ∧
    events s2 = events s ++ evs ∧ Forall (λ e, e = Unlink p) evs.
Proof.
  destruct (feedback_finally_spec h p s) as (s2 & E & [(_ & _ & Ev & _) | [_ ->]]).
  - exists s2, [Unlink p]. repeat split; [done..|]. by repeat constructor.
  - exists s, []. rewrite app_nil_r. by repeat split.
Qed.

Lemma feedback_without_llm h file s r s1 resp :
  extract_text h file s = (r, s1) →
  try_catch (feedback_try h file) feedback_catch s = (inr resp, s1) →
  ∃ s2 added,
    feedback_handler h file s = (inr resp, s2) ∧
    events s2 = events s ++ added ∧
    ∀ messages, CallLLM messages ∉ added.
Proof.
  intros Hext Htry.
  destruct (keeps_extract_text h file s) as [_ (evs1 & Ev1 & Hall1)].
  rewrite Hext in Ev1. cbn [snd] in Ev1.
  destruct (feedback_finally_events h (upload_path file) s1)
    as (s2 & evs2 & Hfin & Ev2 & Hall2).
  exists s2, (evs1 ++ evs2). split; [|split].
  - unfold feedback_handler, try_finally. by rewrite Htry, Hfin.
  - by rewrite Ev2, Ev1, app_assoc.
  - intros messages [Hin | Hin]%elem_of_app.
    + rewrite Forall_forall in Hall1. by destruct (Hall1 _ Hin).
    + rewrite Forall_forall in Hall2. by specialize (Hall2 _ Hin).
Qed.

Lemma too_short_iff resumeText :
  too_short resumeText = true ↔
  resumeText = None ∨
  ∃ text, resumeText = Some text ∧ (length (trim text) < 50)%nat.
Proof.
  destruct resumeText as [text|]; cbn [too_short]; [|by split; [left|]].
  split.
  - intros H. right. exists text. split; [done|].
    apply orb_true_iff in H as [H | H%Nat.ltb_lt]; [|done].
    destruct text; [cbn; lia | done].
  - intros [[=] | (t & [= <-] & H%Nat.ltb_lt)]. rewrite H. apply orb_true_r.
Qed.

(** X24.  When the extraction step (the switch of lines 216-228) returns a
    text that is absent or whose trimmed length is below 50, POST
    /api/resume/feedback answers 400 with { success: false, error: ... };
    and neither then nor when the extraction step throws is a request to
    the LLM among the events of the run.  (processDocx and processTextFile
    can return such a text; processPdf never does.) *)
Theorem short_text_is_rejected h file s s1 :
  (∀ resumeText,
     extract_text h file s = (inr resumeText, s1) →
     resumeText = None ∨
     (∃ text, resumeText = Some text ∧ (length (trim text) < 50)%nat) →
     ∃ s2 added,
       feedback_handler h file s =
         (inr (mkResponse 400 (Failure not_enough_text)), s2) ∧
       events s2 = events s ++ added ∧
       ∀ messages, CallLLM messages ∉ added) ∧
  (∀ error,
     extract_text h file s = (inl error, s1) →
     ∃ resp s2 added,
       feedback_handler h file s = (inr resp, s2) ∧
       events s2 = events s ++ added ∧
       ∀ messages, CallLLM messages ∉ added).
Proof.
  split.
  - intros resumeText Hext Hshort%too_short_iff.
    apply (feedback_without_llm h file s (inr resumeText) s1); [done|].
    unfold try_catch, feedback_try. unfold mbind at 1, M_bind at 1.
    by rewrite Hext, Hshort.
  - intros error Hext.
    destruct (feedback_catch_returns error s1) as (resp & Hcatch & _).
    exists resp.
    apply (feedback_without_llm h file s (inl error) s1); [done|].
    unfold try_catch, feedback_try. unfold mbind at 1, M_bind at 1.
    by rewrite Hext.
Qed.

Lemma keeps_feedback_catch error : keeps not_unlink (feedback_catch error).
Proof. unfold feedback_catch. repeat keeps_step. Qed.

Lemma feedback_body_returns h file s :
  ∃ resp s1,
    try_catch (feedback_try h file) feedback_catch s = (inr resp, s1) ∧
    files s1 = files s.
Proof.
  pose proof (keeps_try_catch not_unlink _ _ (keeps_feedback_try h file)
                keeps_feedback_catch s) as [Hfiles _].
  unfold try_catch in *.
  destruct (feedback_try h file s) as [[e|resp] s1].
  - destruct (feedback_catch_returns e s1) as (resp & E & _).
    rewrite E in *. eauto.
  - eauto.
Qed.

(** C6, amended.  When the uploaded file is on disk, the handler of POST
    /api/resume/feedback always answers, whether its [try] block returned or
    threw, and its last action is to call unlinkSync on the file.  The file
    is gone afterwards unless unlinkSync itself fails; that failure is
    caught, and then the files are the ones the handler started with. *)
Theorem temp_file_is_unlinked h file s :
  upload_path file ≠ [] → upload_path file ∈ files s →
  ∃ resp s1 s2,
    try_catch (feedback_try h file) feedback_catch s = (inr resp, s1) ∧
    feedback_handler h file s = (inr resp, s2) ∧
    events s2 = events s1 ++ [Unlink (upload_path file)] ∧
    (unlink_failure h (upload_path file) = None → upload_path file ∉ files s2) ∧
    (unlink_failure h (upload_path file) ≠ None → files s2 = files s).
Proof.
  intros Hne Hin.
  destruct (feedback_body_returns h file s) as (resp & s1 & Hbody & Hfiles).
  destruct (feedback_finally_spec h (upload_path file) s1)
    as (s2 & Hfin & [(_ & _ & Ev & Hf) | [[? | Hnot] _]]);
    [| done | by rewrite Hfiles in Hnot].
  exists resp, s1, s2. split; [done|]. split.
  { unfold feedback_handler, try_finally. by rewrite Hbody, Hfin. }
  split; [done|]. split.
  - intros Hok. rewrite Hok in Hf. rewrite Hf.
    intros [_ Hn]%elem_of_difference. apply Hn. by apply elem_of_singleton.
  - intros Hfail. destruct (unlink_failure h (upload_path file)); [|done].
    congruence.
Qed.

Lemma callGroq_inr h messages s content s' :
  callGroq h messages s = (inr content, s') →
  fetch_groq h messages = FetchData content ∧ ToBoolean content = true.
Proof.
  unfold callGroq, try_catch, mbind, M_bind, emit.
  destruct (fetch_groq h messages) as [e|st txt|e|c|e|[]]; try done.
  cbn. destruct (ToBoolean c) eqn:E; [|done]. by intros [= <- <-].
Qed.

Lemma feedback_try_inr h file s resp s1 :
  feedback_try h file s = (inr resp, s1) →
  ∃ text content reply data,
    fetch_groq h (feedback_messages h text) = FetchData content ∧
    JSON_parse_value h content = inr reply ∧
    sanitize h reply = inr data ∧
    resp = mkResponse 200 (FeedbackOk data (length text) (toISOString_now h) MODEL).
Proof.
  unfold feedback_try. unfold mbind at 1, M_bind at 1.
  destruct (extract_text h file s) as [[e|resumeText] s0]; [done|].
  destruct (too_short resumeText); [done|].
  unfold mbind at 1, M_bind at 1.
  destruct (callGroq h _ s0) as [[e|content] s0'] eqn:Eg; [done|].
  apply callGroq_inr in Eg as [Hf Ht]. rewrite Ht. cbn [negb].
  unfold try_catch, mbind, M_bind, lift, mret, M_ret, mthrow, M_throw.
  destruct (JSON_parse_value h content) as [e|reply] eqn:Ep; [done|].
  destruct (sanitize h reply) as [e|data] eqn:Es; [done|].
  intros [= <- <-]. eauto 10.
Qed.

Lemma resume_generate_ok h req_body s resp s' :
  resume_generate h req_body s = (inr resp, s') → status resp = 200%nat →
  ∃ prompt content parsed,
    fetch_groq h (generate_messages h prompt) = FetchData content ∧
    JSON_parse_value h content = inr parsed ∧
    resp_body resp = Parsed parsed.
Proof.
  unfold resume_generate, try_catch. unfold mbind at 1, M_bind at 1, lift at 1.
  destruct (Destructure req_body _ _) as [e|prompt]; [by intros [= <- <-]|].
  unfold mbind at 1, M_bind at 1.
  set (blank := if negb (ToBoolean prompt) then _ else _).
  destruct (blank s) as [[e|[]] s0] eqn:Eb; try (by intros [= <- <-]).
  unfold mbind at 1, M_bind at 1, lift at 1.
  destruct (String_ h prompt) as [e|p]; [by intros [= <- <-]|].
  unfold mbind at 1, M_bind at 1.
  destruct (callGroq h _ s0) as [[e|content] s0'] eqn:Eg; [by intros [= <- <-]|].
  apply callGroq_inr in Eg as [Hf Ht]. rewrite Ht. cbn [negb].
  unfold mbind, M_bind, lift, mret, M_ret, mthrow, M_throw.
  destruct (JSON_parse_value h content) as [e|parsed] eqn:Ep.
  - destruct (String_ h content); by intros [= <- <-].
  - intros [= <- <-] _. eauto 10.
Qed.

(** ** The two handlers that call the LLM *)

Lemma sanitize_missing_fields h reply :
  (∀ key, Get reply key = inr Undefined) → sanitize h reply = inr all_defaults.
Proof.
  intros Hmissing. unfold sanitize, build_responseData.
  rewrite !Hmissing. reflexivity.
Qed.

Lemma feedback_handler_ok h file s resp s' :
  feedback_handler h file s = (inr resp, s') → status resp = 200%nat →
  ∃ text content reply data,
    fetch_groq h (feedback_messages h text) = FetchData content ∧
    JSON_parse_value h content = inr reply ∧
    sanitize h reply = inr data ∧
    resp_body resp =
      FeedbackOk data (length text) (toISOString_now h) MODEL.
Proof.
  unfold feedback_handler, try_finally. intros Hrun Hstatus.
  destruct (try_catch (feedback_try h file) feedback_catch s) as [r1 s1] eqn:Hbody.
  destruct (feedback_finally_spec h (upload_path file) s1) as (s2 & Hfin & _).
  rewrite Hfin in Hrun. injection Hrun as -> <-.
  unfold try_catch in Hbody.
  destruct (feedback_try h file s) as [[e|resp0] s0] eqn:Htry.
  - destruct (feedback_catch_returns e s0) as (resp1 & E & Hne).
    rewrite E in Hbody. injection Hbody as <- <-. done.
  - injection Hbody as <- <-.
    apply feedback_try_inr in Htry as (text & content & reply & data & ? & ? & ? & ->).
    eauto 10.
Qed.

(** *** The response, field by field *)

Lemma text_or_intro h dflt v out :
  String_ h (or_else v (Str dflt)) = inr out → text_or h dflt v out.
Proof.
  unfold text_or, or_else. destruct (ToBoolean v); [done|]. by intros [= <-].
Qed.

Lemma sanitize_category_from h cat c :
  sanitize_category h cat = inr c → category_from h cat c.
Proof.
  unfold sanitize_category. intros H.
  apply bind_inr in H as (name & Hname & H).
  apply bind_inr in H as (name' & Hname' & H).
  apply bind_inr in H as (score & Hscore & H).
  apply bind_inr in H as (n & Hn & H).
  apply bind_inr in H as (feedback & Hfeedback & H).
  apply bind_inr in H as (feedback' & Hfeedback' & H).
  injection H as <-. exists name, score, feedback.
  cbn [cat_name cat_score cat_feedback].
  split; [done|]. split; [done|]. split; [done|].
  split; [by apply text_or_intro|].
  split; [|by apply text_or_intro].
  exists n. split; [done|]. apply category_clamped.
Qed.

Lemma sanitize_keyword_from h kw e :
  sanitize_keyword h kw = inr e → keyword_from h kw e.
Proof.
  intros H0. pose proof H0 as H. unfold sanitize_keyword in H.
  apply bind_inr in H as (keyword & Hkeyword & H).
  apply bind_inr in H as (keyword' & Hkeyword' & H).
  apply bind_inr in H as (count & Hcount & H).
  apply bind_inr in H as (n & Hn & H).
  apply bind_inr in H as (importance & Himportance & H).
  apply bind_inr in H as (recommendation & Hrecommendation & H).
  apply bind_inr in H as (recommendation' & Hrecommendation' & H).
  destruct (sanitize_keyword_importance h kw e importance H0 Himportance)
    as [Hyes Hno].
  exists keyword, count, importance, recommendation.
  split; [done|]. split; [done|]. split; [done|]. split; [done|].
  injection H as <-.
  split; [by apply text_or_intro|].
  split; [exists n; split; [done | apply count_floored]|].
  split; [exact Hyes|]. split; [exact Hno|]. by apply text_or_intro.
Qed.

Lemma strings_from_intro h v dflt fallback l :
  dflt ≠ [] →
  string_list_or h v dflt = inr l →
  strings_from h dflt fallback v (if bool_decide (l = []) then fallback else l).
Proof.
  intros Hd [[Hv ->] | (elems & strs & -> & Hs & ->)]%string_list_or_inr.
  - rewrite bool_decide_eq_false_2 by done. by destruct v.
  - cbn [strings_from]. exists strs. split; [by apply mapM_inr|].
    assert (Hf : filter (λ s : jsstring, (0 < length s)%nat) strs =
                 filter (λ s : jsstring, s ≠ []) strs).
    { apply list_filter_iff. intros s. destruct s; cbn; [|split; [done|lia]].
      split; [lia | done]. }
    rewrite Hf. generalize (filter (λ s : jsstring, s ≠ []) strs).
    intros [|x kept]; by case_bool_decide.
Qed.

Lemma sanitize_coerced h reply data :
  sanitize h reply = inr data → coerced h reply data.
Proof.
  intros (r0 & H0 & ->)%sanitize_inr. unfold coerced.
  destruct (ensure_some_data_fields r0) as (-> & -> & -> & -> & -> & -> & ->).
  apply build_responseData_inr in H0
    as (v1 & n1 & v2 & v3 & v4 & v5 & v6 & v7 & n7 & H0).
  destruct H0 as (G1 & N1 & G2 & H2 & G3 & H3 & G4 & H4 & G5 & H5 & G6 & H6
                  & G7 & N7 & -> & ->).
  split; [exists v1; split; [done|]; exists n1; split; [done | apply score_clamped]|].
  split.
  { exists v2. split; [done|]. destruct v2; try (by injection H2 as <-).
    apply mapM_inr in H2. eapply Forall2_impl; [exact H2|].
    apply sanitize_category_from. }
  split; [exists v3; split; [done|]; by apply strings_from_intro|].
  split; [exists v4; split; [done|]; by apply strings_from_intro|].
  split; [exists v5; split; [done|]; by apply text_or_intro|].
  split.
  { exists v6. split; [done|].
    apply keywordAnalysis_of_inr in H6
      as [[Hv ->] | (elems & entries & -> & Hall & ->)]; [by destruct v6|].
    exists entries. split; [|done]. eapply Forall2_impl; [exact Hall|].
    apply sanitize_keyword_from. }
  exists v7. split; [done|]. exists n7. split; [done | apply ats_clamped].
Qed.

Lemma invalid_fields_get_defaults h reply data :
  sanitize h reply = inr data →
  (∀ v, Get reply (lit "overallScore") = inr v → Number_ h v = inr NaN →
        overallScore data = num_of_Z 50) ∧
  (∀ v, Get reply (lit "categories") = inr v → Array_isArray v = false →
        categories data = default_categories) ∧
  (∀ v, Get reply (lit "strengths") = inr v → Array_isArray v = false →
        strengths data = default_strengths) ∧
  (∀ v, Get reply (lit "suggestions") = inr v → Array_isArray v = false →
        suggestions data = default_suggestions) ∧
  (∀ v, Get reply (lit "jobTitleMatch") = inr v → ToBoolean v = false →
        jobTitleMatch data = lit "Professional") ∧
  (∀ v, Get reply (lit "keywordAnalysis") = inr v → Array_isArray v = false →
        keywordAnalysis data = []) ∧
  (∀ v, Get reply (lit "atsScore") = inr v → Number_ h v = inr NaN →
        atsScore data = num_of_Z 60).
Proof.
  intros (F1 & F2 & F3 & F4 & F5 & F6 & F7)%sanitize_coerced.
  destruct F1 as (v1 & G1 & n1 & N1 & E1), F2 as (v2 & G2 & E2),
    F3 as (v3 & G3 & E3), F4 as (v4 & G4 & E4), F5 as (v5 & G5 & E5),
    F6 as (v6 & G6 & E6), F7 as (v7 & G7 & n7 & N7 & E7).
  repeat split; intros v Hv Hbad; rewrite Hv in *;
    match goal with H : inr _ = inr _ |- _ => injection H as <- end.
  - rewrite N1 in Hbad. injection Hbad as ->. exact E1.
  - by destruct v.
  - by destruct v.
  - by destruct v.
  - unfold text_or in E5. by rewrite Hbad in E5.
  - by destruct v.
  - rewrite N7 in Hbad. injection Hbad as ->. exact E7.
Qed.

Lemma missing_fields_get_defaults h reply r :
  sanitize h reply = inr r →
  (Get reply (lit "overallScore") = inr Undefined → overallScore r = num_of_Z 50) ∧
  (Get reply (lit "categories") = inr Undefined → categories r = default_categories) ∧
  (Get reply (lit "strengths") = inr Undefined → strengths r = default_strengths) ∧
  (Get reply (lit "suggestions") = inr Undefined →
     suggestions r = default_suggestions) ∧
  (Get reply (lit "jobTitleMatch") = inr Undefined →
     jobTitleMatch r = lit "Professional") ∧
  (Get reply (lit "keywordAnalysis") = inr Undefined → keywordAnalysis r = []) ∧
  (Get reply (lit "atsScore") = inr Undefined → atsScore r = num_of_Z 60).
Proof.
  intros (r0 & H0 & ->)%sanitize_inr.
  destruct (ensure_some_data_fields r0) as (-> & -> & -> & -> & -> & -> & ->).
  apply build_responseData_inr in H0
    as (v1 & n1 & v2 & v3 & v4 & v5 & v6 & v7 & n7 & H).
  destruct H as (G1 & N1 & G2 & H2 & G3 & H3 & G4 & H4 & G5 & H5 & G6 & H6 &
                 G7 & N7 & -> & ->).
  repeat split; intros Hm.
  - rewrite G1 in Hm. injection Hm as ->. by injection N1 as <-.
  - rewrite G2 in Hm. injection Hm as ->. by injection H2 as <-.
  - rewrite G3 in Hm. injection Hm as ->. by injection H3 as <-.
  - rewrite G4 in Hm. injection Hm as ->. by injection H4 as <-.
  - rewrite G5 in Hm. injection Hm as ->. by injection H5 as <-.
  - rewrite G6 in Hm. injection Hm as ->. by injection H6 as <-.
  - rewrite G7 in Hm. injection Hm as ->. by injection N7 as <-.
Qed.

(** C3, amended.  Of the two handlers that call the LLM, POST
    /api/resume/feedback answers 200 only with the sanitized form of the
    parsed reply, which has a fixed shape with defaults for the missing and
    the invalid fields: a score that is missing, not a number or zero gets
    its default, a score out of its range the nearer bound; a list that is
    missing or no array gets its default list; a text that is missing or
    falsy gets its default, any other value is converted to a string; an
    importance other than high, medium and low becomes medium.  POST
    /api/resume/generate answers 200 with the parsed reply itself. *)
Theorem only_feedback_reply_is_coerced :
  (∀ h file s resp s',
     feedback_handler h file s = (inr resp, s') → status resp = 200%nat →
     ∃ text content reply data,
       fetch_groq h (feedback_messages h text) = FetchData content ∧
       JSON_parse_value h content = inr reply ∧
       sanitize h reply = inr data ∧
       resp_body resp =
         FeedbackOk data (length text) (toISOString_now h) MODEL) ∧
  (∀ h reply r,
     sanitize h reply = inr r →
     (Get reply (lit "overallScore") = inr Undefined →
        overallScore r = num_of_Z 50) ∧
     (Get reply (lit "categories") = inr Undefined →
        categories r = default_categories) ∧
     (Get reply (lit "strengths") = inr Undefined →
        strengths r = default_strengths) ∧
     (Get reply (lit "suggestions") = inr Undefined →
        suggestions r = default_suggestions) ∧
     (Get reply (lit "jobTitleMatch") = inr Undefined →
        jobTitleMatch r = lit "Professional") ∧
     (Get reply (lit "keywordAnalysis") = inr Undefined →
        keywordAnalysis r = []) ∧
     (Get reply (lit "atsScore") = inr Undefined → atsScore r = num_of_Z 60)) ∧
  (∀ h reply,
     (∀ key, Get reply key = inr Undefined) → sanitize h reply = inr all_defaults) ∧
  (∀ h reply data, sanitize h reply = inr data → coerced h reply data) ∧
  (∀ h reply data,
     sanitize h reply = inr data →
     (∀ v, Get reply (lit "overallScore") = inr v → Number_ h v = inr NaN →
           overallScore data = num_of_Z 50) ∧
     (∀ v, Get reply (lit "categories") = inr v → Array_isArray v = false →
           categories data = default_categories) ∧
     (∀ v, Get reply (lit "strengths") = inr v → Array_isArray v = false →
           strengths data = default_strengths) ∧
     (∀ v, Get reply (lit "suggestions") = inr v → Array_isArray v = false →
           suggestions data = default_suggestions) ∧
     (∀ v, Get reply (lit "jobTitleMatch") = inr v → ToBoolean v = false →
           jobTitleMatch data = lit "Professional") ∧
     (∀ v, Get reply (lit "keywordAnalysis") = inr v → Array_isArray v = false →
           keywordAnalysis data = []) ∧
     (∀ v, Get reply (lit "atsScore") = inr v → Number_ h v = inr NaN →
           atsScore data = num_of_Z 60)) ∧
  (∀ h req_body s resp s',
     resume_generate h req_body s = (inr resp, s') → status resp = 200%nat →
     ∃ prompt content parsed,
       fetch_groq h (generate_messages h prompt) = FetchData content ∧
       JSON_parse_value h content = inr parsed ∧
       resp_body resp = Parsed parsed).
Proof.
  split; [apply feedback_handler_ok|].
  split; [apply missing_fields_get_defaults|].
  split; [apply sanitize_missing_fields|].
  split; [apply sanitize_coerced|].
  split; [apply invalid_fields_get_defaults | apply resume_generate_ok].
Qed.

(** ** The theorems at work on concrete requests *)

Lemma cv_pdf_on_disk : upload_path cv_pdf ∈ files disk.
Proof. vm_compute. reflexivity. Defined.

Lemma cv_txt_on_disk : upload_path cv_txt ∈ files disk.
Proof. vm_compute. reflexivity. Defined.

Lemma scores_are_clamped_witness :
  sanitize calm_host zero_reply = inr zero_reply_sanitized ∧
  within 0 100 (overallScore zero_reply_sanitized) ∧
  within 0 100 (atsScore zero_reply_sanitized) ∧
  Forall (λ c, within 0 10 (cat_score c)) (categories zero_reply_sanitized).
Proof.
  split; [reflexivity|].
  exact (scores_are_clamped calm_host zero_reply zero_reply_sanitized eq_refl).
Defined.

Lemma processPdf_witness :
  returned (processPdf text_pdf_host (upload_path cv_pdf) disk).1 = Some sixty_letters ∧
  (processPdf text_pdf_host (upload_path cv_pdf) disk).2 =
    mkState (files disk) [Extract PdfParseLib].
Proof.
  exact (processPdf_follows_the_chain text_pdf_host (upload_path cv_pdf)
           sixty_letters disk cv_pdf_on_disk eq_refl).
Defined.

Lemma short_text_witness :
  ∃ s2 added,
    feedback_handler calm_host cv_docx disk =
      (inr (mkResponse 400 (Failure not_enough_text)), s2) ∧
    events s2 = events disk ++ added ∧
    ∀ messages, CallLLM messages ∉ added.
Proof.
  refine (proj1 (short_text_is_rejected calm_host cv_docx disk disk)
            (Some (lit "too short")) eq_refl _).
  right. exists (lit "too short"). split; [reflexivity | vm_compute; lia].
Defined.

Lemma temp_file_witness :
  ∃ resp s1 s2,
    try_catch (feedback_try calm_host cv_txt) feedback_catch disk = (inr resp, s1) ∧
    feedback_handler calm_host cv_txt disk = (inr resp, s2) ∧
    events s2 = events s1 ++ [Unlink (upload_path cv_txt)] ∧
    (unlink_failure calm_host (upload_path cv_txt) = None →
     upload_path cv_txt ∉ files s2) ∧
    (unlink_failure calm_host (upload_path cv_txt) ≠ None → files s2 = files disk).
Proof.
  apply (temp_file_is_unlinked calm_host cv_txt disk);
    [discriminate | exact cv_txt_on_disk].
Defined.

Lemma feedback_reply_witness :
  (∃ text content reply data,
     fetch_groq calm_host (feedback_messages calm_host text) = FetchData content ∧
     JSON_parse_value calm_host content = inr reply ∧
     sanitize calm_host reply = inr data ∧
     FeedbackOk all_defaults 60 (toISOString_now calm_host) MODEL =
       FeedbackOk data (length text) (toISOString_now calm_host) MODEL) ∧
  sanitize calm_host wrong_typed_reply = inr wrong_typed_reply_sanitized ∧
  coerced calm_host wrong_typed_reply wrong_typed_reply_sanitized.
Proof.
  destruct only_feedback_reply_is_coerced as (Hok & _ & _ & Hcoerced & _).
  split; [|split].
  - apply (Hok calm_host cv_txt disk
             (mkResponse 200
                (FeedbackOk all_defaults 60 (toISOString_now calm_host) MODEL))
             (feedback_handler calm_host cv_txt disk).2);
      [vm_compute; reflexivity | reflexivity].
  - reflexivity.
  - exact (Hcoerced calm_host wrong_typed_reply wrong_typed_reply_sanitized eq_refl).
Defined.

Lemma strengths_and_suggestions_witness :
  strengths zero_reply_sanitized = fallback_strengths ∧
  suggestions zero_reply_sanitized = default_suggestions.
Proof.
  destruct (strengths_and_suggestions_filled calm_host zero_reply
              zero_reply_sanitized eq_refl) as (_ & _ & _ & Hsug & Hstr & _).
  split.
  - apply (Hstr [Str (lit ""); Arr []] [lit ""; lit ""]);
      [reflexivity | reflexivity | repeat constructor].
  - apply (Hsug (Str (lit "none"))); reflexivity.
Defined.

Lemma keyword_entries_witness :
  Forall (λ e, kw_keyword e ≠ [] ∧
               num_le (num_of_Z 0) (kw_count e) = true ∧
               kw_importance e ∈ importance_levels)
    (keywordAnalysis zero_reply_sanitized).
Proof.
  exact (proj1 (keyword_entries_are_well_formed calm_host zero_reply
                  zero_reply_sanitized eq_refl)).
Defined.

Lemma zero_scores_witness :
  overallScore zero_reply_sanitized = num_of_Z 50 ∧
  atsScore zero_reply_sanitized = num_of_Z 60.
Proof.
  destruct (zero_scores_are_replaced calm_host zero_reply zero_reply_sanitized
              eq_refl) as (Hoverall & Hats & _).
  split; [apply (Hoverall pos_zero) | apply (Hats pos_zero)]; reflexivity.
Defined.

Lemma download_filename_witness :
  finalFileName_doc jane_resume = inr (lit "jane-oneil-3rd") ∧
  Forall filename_unit (lit "jane-oneil-3rd") ∧
  generate_doc calm_host jane_body disk =
    (inr (mkResponse 200
            (Attachment docx_type
               (lit "attachment; filename=" ++ [dquote] ++ lit "jane-oneil-3rd"
                  ++ lit ".docx" ++ [dquote])
               (lit "PK"))), disk).
Proof.
  destruct download_filename_is_clean
    as (Hclean & _ & _ & _ & _ & Hdoc & _ & _ & _ & _ & _ & _ & _ & Hsent & _).
  split; [|split].
  - apply (Hdoc jane_resume (lit "Jane  O'Neil 3rd")); [reflexivity | discriminate].
  - exact (Hclean (lit "Jane  O'Neil 3rd")).
  - apply (Hsent calm_host jane_body disk jane_resume (lit "Jane  O'Neil 3rd")
             (lit "PK")); [reflexivity | reflexivity | discriminate | reflexivity].
Defined.

(** ** Where the specification and the code part *)

(** C3, as stated, fails: POST /api/resume/generate forwards a prompt to
    the LLM and answers with whatever JSON came back.  The reply [{}] is
    answered as the empty object, the reply [[]] as the empty array: no
    fixed shape, and no default for any missing field. *)
Lemma generate_returns_the_raw_reply :
  (resume_generate calm_host career_body disk).1 =
    inr (mkResponse 200 (Parsed (Obj []))) ∧
  (resume_generate list_host career_body disk).1 =
    inr (mkResponse 200 (Parsed (Arr []))).
Proof. split; reflexivity. Qed.

(** C6, as stated, fails: where unlinkSync is refused, the uploaded file is
    still on disk when the handler has finished, after a request that
    succeeded (the text file) and after one that failed (the DOCX file). *)
Lemma failed_unlink_leaves_the_file :
  status <$> returned (feedback_handler stubborn_host cv_txt disk).1 = Some 200%nat ∧
  upload_path cv_txt ∈ files (feedback_handler stubborn_host cv_txt disk).2 ∧
  status <$> returned (feedback_handler stubborn_host cv_docx disk).1 = Some 400%nat ∧
  upload_path cv_docx ∈ files (feedback_handler stubborn_host cv_docx disk).2.
Proof. repeat split; vm_compute; reflexivity. Qed.

(** C5.  Where the code departs from the claim: from this PDF each of the
    three extractors obtains the empty text, so the extracted resume text
    is absent; the LLM is not called, but the answer is 500 rather than
    400.  processPdf throws "PDF could not be processed by any method", a
    message with none of the words "short" and "extract" that the catch
    block looks for.  On the same host the DOCX upload, whose text is too
    short as well, is answered 400. *)
Lemma exhausted_pdf_answers_500 :
  extraction_chain calm_host (upload_path cv_pdf) sixty_letters =
    [ (PdfParseLib, Some (lit "")); (PdftotextLib, Some (lit ""));
      (TesseractLib, Some (lit "")) ] ∧
  (feedback_handler calm_host cv_pdf disk).1 =
    inr (mkResponse 500
           (Failure (lit "Failed to analyze resume: PDF could not be processed by any method"))) ∧
  events (feedback_handler calm_host cv_pdf disk).2 =
    [ Extract PdfParseLib; Extract PdftotextLib; Extract TesseractLib;
      Unlink (upload_path cv_pdf) ] ∧
  (feedback_handler calm_host cv_docx disk).1 =
    inr (mkResponse 400 (Failure not_enough_text)).
Proof. repeat split; vm_compute; reflexivity. Qed.

(** ** A reply from which no response is built *)

(** The reply [null] has no properties to read: no response is built. *)
Example null_reply_builds_nothing : returned (sanitize calm_host Null) = None.
Proof. reflexivity. Qed.

(** * More of the server *)

Lemma includes_app_r (a b sub : jsstring) :
  includes b sub = true → includes (a ++ b) sub = true.
Proof.
  intros H. induction a as [|c a IH]; [done|].
  cbn [app includes]. rewrite IH. apply orb_true_r.
Qed.

#[local] Arguments lit : simpl never.

(** The outcome of callGroq, by what the request leads to. *)
Lemma callGroq_run h messages s :
  callGroq h messages s =
  (match fetch_groq h messages with
   | FetchRejects e | FetchBodyRejects e | FetchTextRejects e =>
       inl (mkError PlainError (lit "Failed to call Groq API: " ++ message e))
   | FetchNotOk status errorText =>
       inl (mkError PlainError
              (lit "Failed to call Groq API: " ++
               (lit "Groq API error " ++ status ++ lit ": " ++ errorText)))
   | FetchData content =>
       if ToBoolean content then inr content
       else inl (mkError PlainError
                   (lit "Failed to call Groq API: " ++
                    lit "Invalid response structure from Groq API"))
   | FetchNoData data =>
       inl (mkError PlainError
              (lit "Failed to call Groq API: " ++ message (no_choices data)))
   end,
   mkState (files s) (events s ++ [CallLLM messages])).
Proof.
  unfold callGroq, try_catch, mbind, M_bind, emit.
  destruct (fetch_groq h messages) as [e|st txt|e|c|e|[]]; try done.
  cbn. by destruct (ToBoolean c).
Qed.

(** ** callGroq (lines 73-108) *)

(** X1.  callGroq sends exactly one request, whatever comes of it, and
    leaves the files alone.  It returns only a truthy content that the
    endpoint delivered.  Every error it throws is a plain Error whose
    message is "Failed to call Groq API: " followed by the message of what
    went wrong inside: the rejection of fetch, of resp.text() or of
    resp.json(); "Groq API error <status>: <body text>" for a response that
    is not ok; "Cannot read properties of null (reading 'choices')" (or
    "of undefined") when resp.json() resolves with [null] (or
    [undefined]), which line 99 reads [choices] of; and "Invalid response
    structure from Groq API" for a falsy content. *)
Theorem callGroq_wraps_every_failure h messages s :
  (callGroq h messages s).2 = mkState (files s) (events s ++ [CallLLM messages]) ∧
  match (callGroq h messages s).1 with
  | inr content =>
      fetch_groq h messages = FetchData content ∧ ToBoolean content = true
  | inl e =>
      kind e = PlainError ∧
      ∃ inner, message e = lit "Failed to call Groq API: " ++ inner ∧
        match fetch_groq h messages with
        | FetchRejects e0 | FetchBodyRejects e0 | FetchTextRejects e0 =>
            inner = message e0
        | FetchNotOk status errorText =>
            inner = lit "Groq API error " ++ status ++ lit ": " ++ errorText
        | FetchData content =>
            ToBoolean content = false ∧
            inner = lit "Invalid response structure from Groq API"
        | FetchNoData JustNull =>
            inner = lit "Cannot read properties of null (reading 'choices')"
        | FetchNoData JustUndefined =>
            inner = lit "Cannot read properties of undefined (reading 'choices')"
        end
  end.
Proof.
  rewrite callGroq_run. split; [done|]. cbn [fst].
  destruct (fetch_groq h messages) as [e|st txt|e|c|e|[]]; eauto.
  destruct (ToBoolean c) eqn:E; eauto.
Qed.

Lemma value_nested_ind (P : value → Prop) :
  P Undefined → P Null → (∀ b, P (Bool b)) → (∀ n, P (Num n)) →
  (∀ s, P (Str s)) →
  (∀ elems, Forall P elems → P (Arr elems)) →
  (∀ props, Forall (λ kv, P kv.2) props → P (Obj props)) →
  ∀ v, P v.
Proof.
  intros HU HN HB HNum HS HA HO. fix IH 1.
  intros [| |b|n|s|elems|props];
    [exact HU | exact HN | apply HB | apply HNum | apply HS | |].
  - apply HA. induction elems as [|x rest IHl]; constructor; [apply IH | exact IHl].
  - apply HO. induction props as [|[k x] rest IHl]; constructor;
      [apply IH | exact IHl].
Qed.

Lemma join_with_error (f : value → result jsstring) (P : Error → Prop) elems e :
  Forall (λ x, ∀ e, f x = inl e → P e) elems →
  join_with f elems = inl e → P e.
Proof.
  induction 1 as [|x rest Hx _ IH]; [done|].
  cbn [join_with]. fold (join_with f).
  intros H.
  destruct (match x with Undefined | Null => mret [] | _ => f x end)
    as [e0|next] eqn:En.
  - cbn in H. injection H as <-.
    destruct x; try done; by apply Hx.
  - cbn in H. destruct rest as [|y rest]; [done|].
    destruct (join_with f (y :: rest)) as [e1|tail]; [|done].
    cbn in H. injection H as <-. by apply IH.
Qed.

Lemma ToString_error nts v e : ToString nts v = inl e → e = conversion_error.
Proof.
  revert e. induction v as [| |b|n|s|elems IH|props IH] using value_nested_ind;
    intros e; cbn [ToString]; try done.
  - by destruct b.
  - by apply (join_with_error _ (λ e, e = conversion_error)).
  - unfold object_to_primitive. destruct (own_property _ _); [|done].
    by intros [= <-].
Qed.

Lemma bind_inl {A B} (m : result A) (f : A → result B) (e : Error) :
  m ≫= f = inl e ↔ m = inl e ∨ ∃ x, m = inr x ∧ f x = inl e.
Proof.
  destruct m as [e0|x]; cbn; split.
  - intros [= <-]. by left.
  - intros [[= <-] | (x & [=] & _)]. done.
  - intros H. right. eauto.
  - intros [[=] | (x' & [= <-] & H)]. done.
Qed.

Lemma ToNumber_error nts stn v e : ToNumber nts stn v = inl e → e = conversion_error.
Proof.
  destruct v as [| |b|n|s|elems|props]; cbn [ToNumber]; try done.
  - by destruct b.
  - intros [H | (x & _ & [=])]%bind_inl. by apply ToString_error in H.
  - intros [H | (x & _ & [=])]%bind_inl. by apply ToString_error in H.
Qed.

Lemma conversion_is_sanitize_error : sanitize_error conversion_error.
Proof. split; [done|]. left. Qed.

Lemma Get_sanitize_error v key e :
  key ∈ reply_keys → Get v key = inl e → sanitize_error e.
Proof.
  intros Hk. destruct v; try done; intros [= <-]; (split; [done|]); right;
    apply list_elem_of_In, in_flat_map; exists key;
    (split; [by apply list_elem_of_In | cbn; auto]).
Qed.

Lemma mapM_inl {A B} (f : A → result B) (l : list A) e :
  mapM f l = inl e → ∃ x, x ∈ l ∧ f x = inl e.
Proof.
  induction l as [|x l IH]; [done|]. cbn.
  intros [H | (y & _ & [H | (k & _ & [=])]%bind_inl)]%bind_inl.
  - exists x. split; [left | done].
  - destruct (IH H) as (x' & Hin & Hx'). exists x'. split; [by right | done].
Qed.

Ltac key_in := apply (bool_decide_unpack _); vm_compute; exact I.

Ltac sanitize_err H :=
  repeat match type of H with
    | (_ ≫= _) = inl _ =>
        apply bind_inl in H; destruct H as [H | (? & _ & H)]
    | String_ _ _ = inl _ =>
        apply ToString_error in H; subst; apply conversion_is_sanitize_error
    | Number_ _ _ = inl _ =>
        apply ToNumber_error in H; subst; apply conversion_is_sanitize_error
    | Get _ _ = inl _ =>
        eapply Get_sanitize_error; [|exact H]; key_in
    | mret _ = inl _ => discriminate H
    | inr _ = inl _ => discriminate H
    end.

Lemma sanitize_category_error h cat e :
  sanitize_category h cat = inl e → sanitize_error e.
Proof. unfold sanitize_category. intros H. sanitize_err H. Qed.

Lemma sanitize_keyword_error h kw e :
  sanitize_keyword h kw = inl e → sanitize_error e.
Proof. unfold sanitize_keyword. intros H. sanitize_err H. Qed.

Lemma string_list_or_error h v dflt e :
  string_list_or h v dflt = inl e → sanitize_error e.
Proof.
  destruct v; try done. cbn. intros H. sanitize_err H.
  apply mapM_inl in H as (x & _ & H). sanitize_err H.
Qed.

Lemma categories_of_error h v e : categories_of h v = inl e → sanitize_error e.
Proof.
  destruct v; try done. cbn. intros (x & _ & H)%mapM_inl.
  by eapply sanitize_category_error.
Qed.

Lemma keywordAnalysis_of_error h v e :
  keywordAnalysis_of h v = inl e → sanitize_error e.
Proof.
  destruct v; try done. cbn. intros H. sanitize_err H.
  apply mapM_inl in H as (x & _ & H). by eapply sanitize_keyword_error.
Qed.

Lemma build_responseData_error h reply e :
  build_responseData h reply = inl e → sanitize_error e.
Proof.
  unfold build_responseData. intros H.
  repeat match type of H with
    | (_ ≫= _) = inl _ =>
        apply bind_inl in H; destruct H as [H | (? & _ & H)]
    end;
    eauto using string_list_or_error, categories_of_error, keywordAnalysis_of_error;
    sanitize_err H.
Qed.

(** X2.  When building the response from a parsed reply throws (lines
    289-339), the error is a TypeError, and its message is one of a fixed
    list: reading one of the fourteen properties of [undefined] or of
    [null], or "Cannot convert object to primitive value" (a [toString]
    member that is not callable).  Nothing else makes the sanitizer fail. *)
Theorem sanitize_throws_type_errors h reply e :
  sanitize h reply = inl e → sanitize_error e.
Proof.
  unfold sanitize.
  intros [H | (r & _ & H)]%bind_inl; [|discriminate H].
  by apply build_responseData_error in H.
Qed.

(** What the [try] block does once extraction has returned enough text. *)
Lemma feedback_try_with_text h file s t s1 :
  extract_text h file s = (inr t, s1) → too_short t = false →
  feedback_try h file s =
  match callGroq h (feedback_messages h (text_of t)) s1 with
  | (inl e, s2) => (inl e, s2)
  | (inr content, s2) =>
      match JSON_parse_value h content with
      | inl _ =>
          (inl (mkError PlainError (lit "Failed to parse AI response as JSON")), s2)
      | inr reply =>
          match sanitize h reply with
          | inl e => (inl e, s2)
          | inr data =>
              (inr (mkResponse 200
                      (FeedbackOk data (length (text_of t)) (toISOString_now h) MODEL)),
               s2)
          end
      end
  end.
Proof.
  intros Hext Hlong. unfold feedback_try. unfold mbind at 1, M_bind at 1.
  rewrite Hext, Hlong. unfold mbind at 1, M_bind at 1.
  destruct (callGroq h _ s1) as [[e|content] s2] eqn:Eg; [done|].
  apply callGroq_inr in Eg as [_ ->]. cbn [negb].
  unfold try_catch, mbind, M_bind, lift, mret, M_ret, mthrow, M_throw.
  destruct (JSON_parse_value h content); [done|].
  by destruct (sanitize h _).
Qed.

Lemma feedback_handler_of_body h file s resp s1 :
  try_catch (feedback_try h file) feedback_catch s = (inr resp, s1) →
  ∃ s2, feedback_handler h file s = (inr resp, s2).
Proof.
  intros Hbody. destruct (feedback_finally_spec h (upload_path file) s1)
    as (s2 & Hfin & _).
  exists s2. unfold feedback_handler, try_finally. by rewrite Hbody, Hfin.
Qed.

Lemma timeout_is_504 error s :
  includes (message error) (lit "timeout") = true →
  feedback_catch error s = (inr (mkResponse 504 (Failure analysis_timeout)), s).
Proof. intros H. unfold feedback_catch. by rewrite H. Qed.

(** The body of the reply is the text [null]: line 99 reads [choices] of
    [null], and callGroq wraps the TypeError. *)
Example null_data_is_wrapped :
  (callGroq (with_llm (FetchNoData JustNull)) [] disk).1 =
    inl (mkError PlainError
           (lit "Failed to call Groq API: Cannot read properties of null (reading 'choices')")).
Proof. reflexivity. Qed.

(** ** The answers of POST /api/resume/feedback to failures (lines 351-380) *)

(** X3.  Once enough text is extracted: if the request to the LLM rejects
    with a message that includes "timeout", or the endpoint answers not-ok
    with a body text that includes "timeout", the handler answers 504 with
    the timeout message.  (callGroq wraps the message and the wrapped text
    still includes the word.) *)
Theorem llm_timeout_is_answered_504 h file s t s1 :
  extract_text h file s = (inr t, s1) → too_short t = false →
  (∀ e, fetch_groq h (feedback_messages h (text_of t)) = FetchRejects e →
        includes (message e) (lit "timeout") = true →
        ∃ s2, feedback_handler h file s =
                (inr (mkResponse 504 (Failure analysis_timeout)), s2)) ∧
  (∀ status errorText,
        fetch_groq h (feedback_messages h (text_of t)) = FetchNotOk status errorText →
        includes errorText (lit "timeout") = true →
        ∃ s2, feedback_handler h file s =
                (inr (mkResponse 504 (Failure analysis_timeout)), s2)).
Proof.
  intros Hext Hlong.
  pose proof (feedback_try_with_text h file s t s1 Hext Hlong) as Htry.
  split.
  - intros e Hf Ht. apply (feedback_handler_of_body h file s _
      (mkState (files s1) (events s1 ++ [CallLLM (feedback_messages h (text_of t))]))).
    unfold try_catch. rewrite Htry, callGroq_run, Hf.
    apply timeout_is_504. cbn [message]. by apply includes_app_r.
  - intros status errorText Hf Ht. apply (feedback_handler_of_body h file s _
      (mkState (files s1) (events s1 ++ [CallLLM (feedback_messages h (text_of t))]))).
    unfold try_catch. rewrite Htry, callGroq_run, Hf.
    apply timeout_is_504. cbn [message].
    do 2 apply includes_app_r. rewrite app_assoc. by apply includes_app_r.
Qed.

(** X4.  Once enough text is extracted and the LLM has delivered a content:
    if JSON.parse throws on it, the handler answers 500 with "Failed to
    process analysis results. Please try again." *)
Theorem unparseable_reply_is_answered_500 h file s t s1 content s2 :
  extract_text h file s = (inr t, s1) → too_short t = false →
  callGroq h (feedback_messages h (text_of t)) s1 = (inr content, s2) →
  returned (JSON_parse_value h content) = None →
  ∃ s3, feedback_handler h file s =
          (inr (mkResponse 500 (Failure results_unreadable)), s3).
Proof.
  intros Hext Hlong Hg Hp.
  apply (feedback_handler_of_body h file s _ s2).
  unfold try_catch. rewrite (feedback_try_with_text h file s t s1 Hext Hlong), Hg.
  by destruct (JSON_parse_value h content).
Qed.

Lemma sanitize_error_is_500 e s :
  sanitize_error e →
  feedback_catch e s =
  (inr (mkResponse 500 (Failure (lit "Failed to analyze resume: " ++ message e))), s).
Proof.
  destruct e as [k m]. intros [_ Hm]. cbn [message] in *.
  unfold feedback_catch. cbn [message]. revert m Hm.
  apply Forall_forall.
  repeat (constructor; [reflexivity|]). constructor.
Qed.

(** X5.  Once enough text is extracted and the reply is parsed: if building
    the response throws, the error is a TypeError and the handler answers
    500 with "Failed to analyze resume: " followed by the error's message;
    none of the words the catch block looks for occurs in such a message. *)
Theorem malformed_reply_is_answered_500 h file s t s1 content s2 reply e :
  extract_text h file s = (inr t, s1) → too_short t = false →
  callGroq h (feedback_messages h (text_of t)) s1 = (inr content, s2) →
  JSON_parse_value h content = inr reply →
  sanitize h reply = inl e →
  kind e = TypeError ∧
  ∃ s3, feedback_handler h file s =
          (inr (mkResponse 500
                  (Failure (lit "Failed to analyze resume: " ++ message e))), s3).
Proof.
  intros Hext Hlong Hg Hp Hs.
  assert (He : sanitize_error e).
  { unfold sanitize in Hs.
    apply bind_inl in Hs as [Hs | (r & _ & Hs)]; [|discriminate Hs].
    by apply build_responseData_error in Hs. }
  split; [apply He|].
  apply (feedback_handler_of_body h file s _ s2).
  unfold try_catch. rewrite (feedback_try_with_text h file s t s1 Hext Hlong), Hg, Hp, Hs.
  by apply sanitize_error_is_500.
Qed.

Lemma llm_calls_app evs1 evs2 : llm_calls (evs1 ++ evs2) = (llm_calls evs1 + llm_calls evs2)%nat.
Proof. unfold llm_calls. by rewrite filter_app, length_app. Qed.

Lemma llm_calls_none evs :
  Forall (λ e, is_llm_call e = false) evs → llm_calls evs = 0%nat.
Proof.
  unfold llm_calls. induction 1 as [|e evs He _ IH]; [done|].
  rewrite filter_cons_False by congruence. done.
Qed.

Lemma extracts_are_no_llm_calls evs :
  Forall is_extract evs → llm_calls evs = 0%nat.
Proof.
  intros H. apply llm_calls_none. eapply Forall_impl; [exact H|].
  by intros e [x ->].
Qed.

Lemma unlinks_are_no_llm_calls p evs :
  Forall (λ e, e = Unlink p) evs → llm_calls evs = 0%nat.
Proof.
  intros H. apply llm_calls_none. eapply Forall_impl; [exact H|].
  by intros e ->.
Qed.

Lemma feedback_catch_answers error s :
  ∃ resp, feedback_catch error s = (inr resp, s) ∧
    status resp ∈ [400; 500; 504]%nat ∧ ∃ msg, resp_body resp = Failure msg.
Proof.
  unfold feedback_catch.
  repeat match goal with
         | |- context [if ?b then _ else _] => destruct b
         end; eexists; (split; [reflexivity|]); cbn; (split; [key_in | eauto]).
Qed.

(** X6.  The handler of POST /api/resume/feedback never throws: for every
    host, upload and state it answers with status 200, 400, 500 or 504;
    every answer other than 200 is { success: false, error }; it sends at
    most one request to the LLM, and exactly one when it answers 200. *)
Theorem feedback_handler_always_answers h file s :
  ∃ resp s' added,
    feedback_handler h file s = (inr resp, s') ∧
    status resp ∈ [200; 400; 500; 504]%nat ∧
    (status resp ≠ 200%nat → ∃ msg, resp_body resp = Failure msg) ∧
    events s' = events s ++ added ∧
    (llm_calls added ≤ 1)%nat ∧
    (status resp = 200%nat → llm_calls added = 1%nat).
Proof.
  destruct (extract_text h file s) as [r s1] eqn:Hext.
  destruct (keeps_extract_text h file s) as [_ (ex & Ev1 & Hex)].
  rewrite Hext in Ev1. cbn [snd] in Ev1.
  assert (Hfin : ∀ resp sb mid,
    try_catch (feedback_try h file) feedback_catch s = (inr resp, sb) →
    events sb = events s ++ mid →
    ∃ s' added, feedback_handler h file s = (inr resp, s') ∧
      events s' = events s ++ added ∧ llm_calls added = llm_calls mid).
  { intros resp sb mid Hbody Hev.
    destruct (feedback_finally_events h (upload_path file) sb)
      as (s' & evs2 & Hf & Ev2 & Hun).
    exists s', (mid ++ evs2). split; [|split].
    - unfold feedback_handler, try_finally. by rewrite Hbody, Hf.
    - by rewrite Ev2, Hev, app_assoc.
    - rewrite llm_calls_app, (unlinks_are_no_llm_calls _ _ Hun). lia. }
  assert (Hquiet : ∀ e, try_catch (feedback_try h file) feedback_catch s =
                          feedback_catch e s1 →
    ∃ resp s' added,
      feedback_handler h file s = (inr resp, s') ∧
      status resp ∈ [200; 400; 500; 504]%nat ∧
      (status resp ≠ 200%nat → ∃ msg, resp_body resp = Failure msg) ∧
      events s' = events s ++ added ∧
      (llm_calls added ≤ 1)%nat ∧
      (status resp = 200%nat → llm_calls added = 1%nat)).
  { intros e Hbody.
    destruct (feedback_catch_answers e s1) as (resp & Hc & Hst & Hmsg).
    rewrite Hc in Hbody.
    destruct (Hfin resp s1 ex Hbody Ev1) as (s' & added & Hh & Hev & Hn).
    rewrite (extracts_are_no_llm_calls _ Hex) in Hn.
    exists resp, s', added. repeat split; try done.
    - by apply list_elem_of_further.
    - lia.
    - intros E. rewrite E in Hst. apply (bool_decide_pack _) in Hst.
      by vm_compute in Hst. }
  destruct r as [e|t].
  { apply (Hquiet e). unfold try_catch, feedback_try.
    unfold mbind at 1, M_bind at 1. by rewrite Hext. }
  destruct (too_short t) eqn:Hshort.
  { apply (Hquiet (mkError PlainError
      (lit "Resume text is too short or could not be extracted properly"))).
    unfold try_catch, feedback_try. unfold mbind at 1, M_bind at 1.
    by rewrite Hext, Hshort. }
  pose proof (feedback_try_with_text h file s t s1 Hext Hshort) as Htry.
  rewrite callGroq_run in Htry.
  set (s2 := mkState (files s1)
               (events s1 ++ [CallLLM (feedback_messages h (text_of t))])) in *.
  assert (Ev2 : events s2 = events s ++ (ex ++ [CallLLM (feedback_messages h (text_of t))])).
  { unfold s2. cbn. by rewrite Ev1, app_assoc. }
  assert (Hone : llm_calls (ex ++ [CallLLM (feedback_messages h (text_of t))]) = 1%nat).
  { by rewrite llm_calls_app, (extracts_are_no_llm_calls _ Hex). }
  assert (Hthrown : ∀ e, feedback_try h file s = (inl e, s2) →
    ∃ resp s' added,
      feedback_handler h file s = (inr resp, s') ∧
      status resp ∈ [200; 400; 500; 504]%nat ∧
      (status resp ≠ 200%nat → ∃ msg, resp_body resp = Failure msg) ∧
      events s' = events s ++ added ∧
      (llm_calls added ≤ 1)%nat ∧
      (status resp = 200%nat → llm_calls added = 1%nat)).
  { intros e He.
    destruct (feedback_catch_answers e s2) as (resp & Hc & Hst & Hmsg).
    assert (Hbody : try_catch (feedback_try h file) feedback_catch s = (inr resp, s2)).
    { unfold try_catch. by rewrite He. }
    destruct (Hfin resp s2 _ Hbody Ev2) as (s' & added & Hh & Hev & Hn).
    exists resp, s', added. repeat split; try done.
    - by apply list_elem_of_further.
    - lia.
    - lia. }
  destruct (fetch_groq h _) as [e|st txt|e|content|e|[]]; try (by eapply Hthrown).
  destruct (ToBoolean content); [|by eapply Hthrown].
  destruct (JSON_parse_value h content) as [e|reply]; [by eapply Hthrown|].
  destruct (sanitize h reply) as [e|data]; [by eapply Hthrown|].
  assert (Hbody : try_catch (feedback_try h file) feedback_catch s =
    (inr (mkResponse 200
            (FeedbackOk data (length (text_of t)) (toISOString_now h) MODEL)), s2)).
  { unfold try_catch. by rewrite Htry. }
  destruct (Hfin _ s2 _ Hbody Ev2) as (s' & added & Hh & Hev & Hn).
  eexists _, s', added. repeat split; try done.
  - apply list_elem_of_here.
  - lia.
  - lia.
Qed.

Lemma keeps_isPdfTextBased h p : keeps is_extract (isPdfTextBased h p).
Proof. unfold isPdfTextBased. repeat keeps_step. apply extract_is_extract. Qed.

(** ** isPdfTextBased (lines 110-118) *)


(** ** validateFile (lines 185-205) *)

(** X8.  Without a file validateFile answers 400 "No file uploaded" and does
    not run the handler.  With a file it always hands over to the handler,
    with the same file, whatever the PDF check returned or threw; it
    changes no file, invokes nothing but an extractor, and for a file that
    is no PDF it does nothing at all. *)
Theorem validateFile_never_blocks h :
  (∀ next s,
     validateFile h None next s =
     (inr (mkResponse 400 (Failure (lit "No file uploaded"))), s)) ∧
  (∀ f next s,
     ∃ s', validateFile h (Some f) next s = next f s' ∧
           grows_by is_extract s s' ∧
           (upload_mimetype f ≠ ApplicationPdf → s' = s)).
Proof.
  split; [done|]. intros f next s. unfold validateFile.
  destruct (upload_mimetype f) eqn:Em;
    try (exists s; split; [done|]; split; [apply grows_refl | done]).
  pose proof (keeps_isPdfTextBased h (upload_path f) s) as Hk.
  unfold try_catch, mbind, M_bind, mret, M_ret.
  destruct (isPdfTextBased h (upload_path f) s) as [[e|b] s'].
  all: exists s'; split; [done|]; split; [exact Hk | done].
Qed.

Lemma resume_generate_blank h req_body s prompt :
  Destructure req_body (lit "prompt") (lit "req.body") = inr prompt →
  ToBoolean prompt = false ∨ (∃ p, prompt = Str p ∧ trim p = []) →
  resume_generate h req_body s = (inr (mkResponse 400 (ErrorOnly please_provide)), s).
Proof.
  intros Hd Hblank. unfold resume_generate, try_catch.
  unfold mbind at 1, M_bind at 1, lift at 1. rewrite Hd.
  destruct Hblank as [Hf | (p & -> & Hp)].
  - by rewrite Hf.
  - destruct (ToBoolean (Str p)); [|done]. cbn [negb]. by rewrite Hp.
Qed.

Lemma resume_generate_with_prompt h req_body s p :
  Destructure req_body (lit "prompt") (lit "req.body") = inr (Str p) →
  trim p ≠ [] →
  resume_generate h req_body s =
  (inr match fetch_groq h (generate_messages h p) with
       | FetchRejects e | FetchBodyRejects e | FetchTextRejects e =>
           mkResponse 500 (ErrorOnly (lit "Failed to call Groq API: " ++ message e))
       | FetchNoData data =>
           mkResponse 500
             (ErrorOnly (lit "Failed to call Groq API: " ++ message (no_choices data)))
       | FetchNotOk status errorText =>
           mkResponse 500
             (ErrorOnly (lit "Failed to call Groq API: " ++
                         (lit "Groq API error " ++ status ++ lit ": " ++ errorText)))
       | FetchData content =>
           if ToBoolean content then
             match JSON_parse_value h content with
             | inr parsed => mkResponse 200 (Parsed parsed)
             | inl _ =>
                 match String_ h content with
                 | inr text =>
                     mkResponse 500
                       (ErrorOnly (lit "Invalid JSON returned by Groq: " ++ text))
                 | inl e => mkResponse 500 (ErrorOnly (message e))
                 end
             end
           else
             mkResponse 500
               (ErrorOnly (lit "Failed to call Groq API: " ++
                           lit "Invalid response structure from Groq API"))
       end,
   mkState (files s) (events s ++ [CallLLM (generate_messages h p)])).
Proof.
  intros Hd Hp. unfold resume_generate, try_catch.
  unfold mbind at 1, M_bind at 1, lift at 1. rewrite Hd.
  assert (Ht : ToBoolean (Str p) = true).
  { destruct p; [done|]. done. }
  rewrite Ht. cbn [negb]. unfold mbind at 1, M_bind at 1, mret at 1, M_ret at 1.
  assert (Ht' : ToBoolean (Str (trim p)) = true).
  { by apply nonempty_truthy. }
  rewrite Ht'. cbn [negb].
  unfold mbind at 1, M_bind at 1, lift at 1. cbn [String_ ToString mret result_ret].
  unfold mbind at 1, M_bind at 1. rewrite callGroq_run.
  destruct (fetch_groq h _) as [e|st txt|e|content|e|[]]; try reflexivity.
  destruct (ToBoolean content) eqn:Ec; [|reflexivity].
  cbv beta iota. rewrite Ec. cbn [negb].
  unfold mbind, M_bind, lift, mret, M_ret, mthrow, M_throw.
  destruct (JSON_parse_value h content); [|reflexivity].
  by destruct (String_ h content).
Qed.

(** ** POST /api/resume/generate (lines 1129-1192) *)

(** X9.  For a body from which [prompt] can be read, the handler answers 400
    "Please provide your career details." with nothing done, exactly when
    the prompt is falsy or a string of white space only. *)
Theorem blank_prompt_is_rejected h req_body s prompt :
  Destructure req_body (lit "prompt") (lit "req.body") = inr prompt →
  (ToBoolean prompt = false ∨ (∃ p, prompt = Str p ∧ trim p = [])) ↔
  resume_generate h req_body s = (inr (mkResponse 400 (ErrorOnly please_provide)), s).
Proof.
  intros Hd. split; [by apply resume_generate_blank|].
  intros Hrun. destruct (ToBoolean prompt) eqn:Ht; [|by left]. right.
  assert (Hcase : (∃ p, prompt = Str p) ∨ (∀ p, prompt ≠ Str p))
    by (destruct prompt; eauto).
  destruct Hcase as [[p ->]|Hno].
  - exists p. split; [done|]. destruct (trim p) as [|u tp] eqn:Hp; [done|].
    rewrite (resume_generate_with_prompt h req_body s p Hd) in Hrun
      by (by rewrite Hp).
    exfalso. injection Hrun as Hresp _. revert Hresp.
    destruct (fetch_groq h _) as [e|st txt|e|content|e|[]]; try done.
    destruct (ToBoolean content); [|done].
    destruct (JSON_parse_value h content); [|done].
    by destruct (String_ h content).
  - exfalso. revert Hrun. unfold resume_generate, try_catch.
    unfold mbind at 1, M_bind at 1, lift at 1. rewrite Hd.
    cbv beta iota. rewrite Ht. cbn [negb].
    destruct prompt; try done. by destruct (Hno s0).
Qed.


(** X11.  For a prompt with text in it, POST /api/resume/generate passes
    upstream text on to the caller: the body text of a not-ok response of
    the endpoint, and the whole content of the LLM when it is no JSON, both
    inside the [error] of a 500. *)
Theorem resume_generate_echoes_upstream_text h req_body s p :
  Destructure req_body (lit "prompt") (lit "req.body") = inr (Str p) →
  trim p ≠ [] →
  (∀ status errorText,
     fetch_groq h (generate_messages h p) = FetchNotOk status errorText →
     (resume_generate h req_body s).1 =
     inr (mkResponse 500
            (ErrorOnly (lit "Failed to call Groq API: Groq API error " ++ status
                          ++ lit ": " ++ errorText)))) ∧
  (∀ text,
     text ≠ [] →
     fetch_groq h (generate_messages h p) = FetchData (Str text) →
     JSON_parse h text = None →
     (resume_generate h req_body s).1 =
     inr (mkResponse 500
            (ErrorOnly (lit "Invalid JSON returned by Groq: " ++ text)))).
Proof.
  intros Hd Hp. rewrite (resume_generate_with_prompt h req_body s p Hd Hp).
  cbn [fst]. split.
  - intros status errorText ->. reflexivity.
  - intros text Hne -> Hparse. rewrite nonempty_truthy by done.
    unfold JSON_parse_value. cbn [String_ ToString mret result_ret mbind result_bind].
    by rewrite Hparse.
Qed.

(** ** POST /api/generate-doc (lines 469-887) *)

(** X12.  The handler of POST /api/generate-doc never throws and leaves the
    state alone.  It answers 200 with a DOCX attachment, or 400 "No resume
    data provided" (then [resumeData] is falsy), or 500 "Failed to generate
    DOC: " followed by the message of the error caught. *)
Theorem generate_doc_always_answers h req_body s :
  ∃ resp,
    generate_doc h req_body s = (inr resp, s) ∧
    ((status resp = 200%nat ∧
      ∃ finalFileName buffer,
        resp_body resp =
          Attachment docx_type (content_disposition finalFileName (lit ".docx")) buffer) ∨
     (status resp = 400%nat ∧ resp_body resp = ErrorOnly no_resume_data ∧
      ∃ resumeData,
        Destructure req_body (lit "resumeData") (lit "req.body") = inr resumeData ∧
        ToBoolean resumeData = false) ∨
     (status resp = 500%nat ∧
      ∃ e, resp_body resp = ErrorOnly (lit "Failed to generate DOC: " ++ message e))).
Proof.
  rewrite generate_doc_run. eexists. split; [reflexivity|].
  destruct (Destructure req_body _ _) as [e|resumeData]; [eauto 10|].
  destruct (ToBoolean resumeData) eqn:Ht; [|right; left; eauto 10].
  destruct (finalFileName_doc resumeData); [eauto 10|].
  destruct (docx_pack h resumeData); eauto 10.
Qed.

(** X13.  A [resumeData.name] that is truthy but no string (a number, an
    array, an object) has no [replace]: the handler answers 500, whatever
    the document would have been. *)
Theorem unusable_name_fails_generate_doc h req_body s resumeData name :
  Destructure req_body (lit "resumeData") (lit "req.body") = inr resumeData →
  ToBoolean resumeData = true →
  Get resumeData (lit "name") = inr name →
  ToBoolean name = true → (∀ str, name ≠ Str str) →
  generate_doc h req_body s =
  (inr (mkResponse 500
          (ErrorOnly (lit "Failed to generate DOC: resumeData.name.replace is not a function"))),
   s).
Proof.
  intros Hd Ht Hg Hn Hstr. rewrite generate_doc_run, Hd, Ht.
  unfold finalFileName_doc. rewrite Hg. cbn [mbind result_bind]. rewrite Hn.
  destruct name; try done. by destruct (Hstr s0).
Qed.

(** ** The scores, exactly (lines 290 and 319) *)

(** X14.  In a response that is built, overallScore is determined by
    Number(result.overallScore): 50 if that is NaN or zero, 0 if it is
    negative, 100 if it is above 100, and the number itself otherwise;
    atsScore likewise with the default 60. *)
Theorem scores_follow_the_clamp h reply r :
  sanitize h reply = inr r →
  ∃ overall ats,
    Get reply (lit "overallScore") ≫= Number_ h = inr overall ∧
    Get reply (lit "atsScore") ≫= Number_ h = inr ats ∧
    overallScore r = clamped 50 0 100 overall ∧
    atsScore r = clamped 60 0 100 ats.
Proof.
  intros (r0 & Hb & ->)%sanitize_inr.
  destruct (ensure_some_data_fields r0) as (-> & _ & _ & _ & -> & _).
  apply build_responseData_inr in Hb
    as (v1 & n1 & v2 & v3 & v4 & v5 & v6 & v7 & n7 & Hb).
  destruct Hb as (G1 & N1 & _ & _ & _ & _ & _ & _ & _ & _ & _ & _ & G7 & N7 & -> & ->).
  exists n1, n7. rewrite G1, G7. cbn [mbind result_bind].
  by rewrite score_clamped, ats_clamped.
Qed.

Lemma sanitize_category_fields h cat c :
  sanitize_category h cat = inr c →
  ∃ score,
    Get cat (lit "score") ≫= Number_ h = inr score ∧
    cat_score c = clamped 5 0 10 score ∧
    (Get cat (lit "name") ≫= λ v, String_ h (or_else v (Str (lit "Uncategorized"))))
      = inr (cat_name c) ∧
    (Get cat (lit "feedback") ≫=
       λ v, String_ h (or_else v (Str (lit "No specific feedback provided"))))
      = inr (cat_feedback c).
Proof.
  unfold sanitize_category. intros H. bind_inv H. injection H as <-.
  cbn [cat_score cat_name cat_feedback].
  exists x2. rewrite E, E1, E3. cbn [mbind result_bind].
  by rewrite category_clamped.
Qed.

(** X15.  In a response that is built, if result.categories is an array then
    [categories] has one entry per element, in order, none dropped and no
    default added (an empty array stays empty); the score of an entry is 5
    if Number(cat.score) is NaN or zero, 0 if negative, 10 if above 10 and
    the number itself otherwise, and its name is String(cat.name ||
    "Uncategorized").  If result.categories is no array, [categories] is
    the single default entry. *)
Theorem categories_are_mapped_one_to_one h reply r :
  sanitize h reply = inr r →
  ∃ cats,
    Get reply (lit "categories") = inr cats ∧
    match cats with
    | Arr elems =>
        length (categories r) = length elems ∧
        ∀ i cat, elems !! i = Some cat →
          ∃ c score,
            categories r !! i = Some c ∧
            Get cat (lit "score") ≫= Number_ h = inr score ∧
            cat_score c = clamped 5 0 10 score ∧
            (Get cat (lit "name") ≫=
               λ v, String_ h (or_else v (Str (lit "Uncategorized"))))
              = inr (cat_name c)
    | _ => categories r = default_categories
    end.
Proof.
  intros (r0 & Hb & ->)%sanitize_inr.
  destruct (ensure_some_data_fields r0) as (_ & -> & _).
  apply build_responseData_inr in Hb
    as (v1 & n1 & v2 & v3 & v4 & v5 & v6 & v7 & n7 & Hb).
  destruct Hb as (_ & _ & G2 & C2 & _).
  exists v2. split; [done|].
  destruct v2; try (by injection C2 as <-).
  apply mapM_inr in C2. split; [symmetry; by eapply Forall2_length|].
  intros i cat Hi.
  destruct (Forall2_lookup_l _ _ _ _ _ C2 Hi) as (c & Hc & Hs).
  apply sanitize_category_fields in Hs as (score & ? & ? & ? & _). eauto 10.
Qed.

Lemma alnum_not_space c : is_alnum c = true → is_space c = false.
Proof.
  unfold is_alnum, is_space, is_lower, is_upper, is_digit, in_range.
  intros H. apply not_true_is_false. intros Hs. revert H Hs.
  rewrite !orb_true_iff, !andb_true_iff, !N.leb_le, !N.eqb_eq. lia.
Qed.

Lemma alnum_or_space_cases c :
  is_alnum_or_space c = is_alnum c || is_space c.
Proof. done. Qed.

Lemma lower_unit_hyphen c : (lower_unit c =? hyphen)%N = (c =? hyphen)%N.
Proof.
  unfold lower_unit, is_upper, in_range, hyphen.
  destruct ((65 <=? c)%N && (c <=? 90)%N) eqn:E; [|done].
  apply andb_true_iff in E as [E1 E2]. apply N.leb_le in E1, E2.
  transitivity false; [|symmetry]; apply N.eqb_neq; lia.
Qed.

Lemma adjacent_hyphens_lower s :
  adjacent_hyphens (toLowerCase s) = adjacent_hyphens s.
Proof.
  induction s as [|a s IH]; [done|]. destruct s as [|b s]; [done|].
  change (adjacent_hyphens (toLowerCase (a :: b :: s)))
    with ((lower_unit a =? hyphen)%N && (lower_unit b =? hyphen)%N
          || adjacent_hyphens (toLowerCase (b :: s))).
  by rewrite !lower_unit_hyphen, IH.
Qed.

(** After a run that was just replaced the next unit is not a hyphen. *)
Lemma replace_runs_from_no_adjacent in_run s :
  Forall (λ c, c ≠ hyphen) (filter (λ c, is_space c = false) s) →
  adjacent_hyphens (replace_runs_from in_run is_space (lit "-") s) = false ∧
  (in_run = true →
   ∀ c rest, replace_runs_from in_run is_space (lit "-") s = c :: rest → c ≠ hyphen).
Proof.
  revert in_run. induction s as [|c s IH]; intros in_run Hs; [done|].
  cbn [replace_runs_from].
  destruct (is_space c) eqn:E.
  - rewrite filter_cons_False in Hs by congruence.
    destruct (IH true Hs) as [IH1 IH2].
    destruct in_run; [cbn [app]; split; [done|intros _; by apply IH2]|].
    split; [|done].
    change (lit "-" ++ replace_runs_from true is_space (lit "-") s)
      with (hyphen :: replace_runs_from true is_space (lit "-") s).
    destruct (replace_runs_from true is_space (lit "-") s) as [|d rest] eqn:Er; [done|].
    cbn [adjacent_hyphens]. specialize (IH2 eq_refl d rest eq_refl).
    apply orb_false_iff. split; [|done]. apply andb_false_iff. right.
    by apply N.eqb_neq.
  - rewrite filter_cons_True in Hs by done. apply Forall_cons in Hs as [Hc Hs].
    destruct (IH false Hs) as [IH1 _].
    split; [|intros _ c' rest [= <- _]; done].
    destruct (replace_runs_from false is_space (lit "-") s) as [|d rest] eqn:Er; [done|].
    change (adjacent_hyphens (c :: d :: rest))
      with ((c =? hyphen)%N && (d =? hyphen)%N || adjacent_hyphens (d :: rest)).
    apply orb_false_iff. split; [|done]. apply andb_false_iff. left.
    by apply N.eqb_neq.
Qed.

Lemma kept_units_are_no_hyphen name :
  Forall (λ c, c ≠ hyphen)
    (filter (λ c, is_space c = false)
       (replace_each (λ c, negb (is_alnum_or_space c)) (lit "") name)).
Proof.
  rewrite replace_each_removes. apply Forall_forall. intros c Hc.
  apply list_elem_of_filter in Hc as [Hns Hc].
  apply list_elem_of_filter in Hc as [Hk _].
  apply negb_false_iff in Hk. rewrite alnum_or_space_cases, Hns, orb_false_r in Hk.
  intros ->. done.
Qed.

Lemma replace_runs_from_length in_run s :
  (length (replace_runs_from in_run is_space (lit "-") s) ≤ length s)%nat.
Proof.
  revert in_run. induction s as [|c s IH]; intros in_run; [done|].
  cbn [replace_runs_from]. destruct (is_space c).
  - specialize (IH true). rewrite length_app.
    destruct in_run; [cbn; lia|]. change (length (lit "-")) with 1%nat. cbn. lia.
  - specialize (IH false). cbn. lia.
Qed.

Lemma replace_runs_from_alnum in_run s :
  filter (λ c, is_alnum c = true) (replace_runs_from in_run is_space (lit "-") s)
  = filter (λ c, is_alnum c = true) s.
Proof.
  revert in_run. induction s as [|c s IH]; intros in_run; [done|].
  cbn [replace_runs_from]. destruct (is_space c) eqn:E.
  - rewrite filter_app, IH.
    assert (is_alnum c = false) as Hc.
    { destruct (is_alnum c) eqn:Ha; [|done]. apply alnum_not_space in Ha. congruence. }
    rewrite (filter_cons_False _ c) by congruence.
    by destruct in_run.
  - destruct (is_alnum c) eqn:Ha.
    + by rewrite !filter_cons_True, IH.
    + by rewrite !filter_cons_False, IH by congruence.
Qed.

Lemma replace_each_alnum s :
  filter (λ c, is_alnum c = true)
    (replace_each (λ c, negb (is_alnum_or_space c)) (lit "") s)
  = filter (λ c, is_alnum c = true) s.
Proof.
  induction s as [|c s IH]; [done|]. cbn [replace_each].
  rewrite alnum_or_space_cases.
  destruct (is_alnum c) eqn:Ha; cbn [orb negb].
  - by rewrite !filter_cons_True, IH.
  - rewrite (filter_cons_False _ c s) by congruence.
    destruct (is_space c); cbn [negb app lit]; [|done].
    by rewrite filter_cons_False by congruence.
Qed.

Lemma filter_alnum_lower s :
  filter (λ c, is_alnum c = true) (toLowerCase s)
  = toLowerCase (filter (λ c, is_alnum c = true) s).
Proof.
  unfold toLowerCase. induction s as [|c s IH]; [done|].
  cbn [map].
  assert (is_alnum (lower_unit c) = is_alnum c) as Hl.
  { unfold lower_unit. destruct (is_upper c) eqn:Eu; [|done].
    unfold is_alnum. rewrite Eu, orb_true_r. cbn [orb].
    unfold is_upper, is_lower, in_range in *.
    apply andb_true_iff in Eu as [E1 E2]. apply N.leb_le in E1, E2.
    rewrite !orb_true_iff. left. left. apply andb_true_iff.
    rewrite !N.leb_le. lia. }
  destruct (is_alnum c) eqn:Ha.
  - rewrite !filter_cons_True by congruence. cbn [map]. by rewrite IH.
  - rewrite !filter_cons_False by congruence. done.
Qed.

(** ** The file name, more closely (lines 480-483) *)

(** X16.  The letters and digits of the file name are exactly the letters
    and digits of the name, in the same order and in lower case; no two
    hyphens are adjacent in the file name; the file name is no longer than
    the name. *)
Theorem sanitizeFileName_shape name :
  filter (λ c, is_alnum c = true) (sanitizeFileName name)
    = toLowerCase (filter (λ c, is_alnum c = true) name) ∧
  adjacent_hyphens (sanitizeFileName name) = false ∧
  (length (sanitizeFileName name) ≤ length name)%nat.
Proof.
  unfold sanitizeFileName. split; [|split].
  - rewrite filter_alnum_lower.
    unfold replace_runs. by rewrite replace_runs_from_alnum, replace_each_alnum.
  - rewrite adjacent_hyphens_lower.
    apply replace_runs_from_no_adjacent, kept_units_are_no_hyphen.
  - unfold toLowerCase. rewrite length_map.
    etrans; [apply replace_runs_from_length|].
    rewrite replace_each_removes. apply length_filter.
Qed.

Lemma sanitizeFileName_symbols name :
  Forall (λ c, is_alnum_or_space c = false) name → sanitizeFileName name = [].
Proof.
  intros H. unfold sanitizeFileName.
  assert (replace_each (λ c, negb (is_alnum_or_space c)) (lit "") name = []) as ->;
    [|done].
  induction H as [|c s Hc _ IH]; [done|]. cbn [replace_each]. by rewrite Hc, IH.
Qed.

(** X17.  A name that is not empty but has no letter, digit or white space
    in it gives the empty file name, not the default "resume": the
    document is sent as [.docx]. *)
Theorem symbols_only_name_gives_empty_file_name h req_body s resumeData name buffer :
  Destructure req_body (lit "resumeData") (lit "req.body") = inr resumeData →
  ToBoolean resumeData = true →
  Get resumeData (lit "name") = inr (Str name) →
  name ≠ [] → Forall (λ c, is_alnum_or_space c = false) name →
  docx_pack h resumeData = inr buffer →
  generate_doc h req_body s =
  (inr (mkResponse 200
          (Attachment docx_type (content_disposition [] (lit ".docx")) buffer)), s).
Proof.
  intros Hd Ht Hg Hne Hsym Hpack.
  rewrite generate_doc_run, Hd, Ht, (finalFileName_doc_named _ _ Hg Hne), Hpack.
  by rewrite sanitizeFileName_symbols.
Qed.

Section Yields.

Context {A B : Type}.

Lemma yields_ret (P : A → Prop) x : P x → yields P (mret x).
Proof. intros HP s y s' [= <- _]. done. Qed.

Lemma yields_throw (P : A → Prop) (e : Error) : yields P (mthrow e).
Proof. intros s y s' [=]. Qed.

Lemma yields_bind (Q : A → Prop) (P : B → Prop) (m : M A) (k : A → M B) :
  yields Q m → (∀ x, Q x → yields P (k x)) → yields P (m ≫= k).
Proof.
  intros Hm Hk s y s' E. unfold mbind, M_bind in E.
  destruct (m s) as [[e|x] s1] eqn:Em; [done|].
  eapply Hk; [|exact E]. eapply Hm, Em.
Qed.

Lemma yields_try_catch (P : A → Prop) (m : M A) (handler : Error → M A) :
  yields P m → (∀ e, yields P (handler e)) → yields P (try_catch m handler).
Proof.
  intros Hm Hh s y s' E. unfold try_catch in E.
  destruct (m s) as [[e|x] s1] eqn:Em.
  - eapply Hh, E.
  - injection E as <- <-. eapply Hm, Em.
Qed.

Lemma yields_any (m : M A) : yields (λ _, True) m.
Proof. done. Qed.

End Yields.

Lemma usable_long text : usable text = true → long_enough (text_of text) = true.
Proof. destruct text as [t|]; [|done]. by rewrite usable_Some. Qed.

Lemma yields_processPdf h filePath :
  yields (λ text, long_enough text = true) (processPdf h filePath).
Proof.
  unfold processPdf.
  apply yields_try_catch; [|intros e; apply yields_throw].
  eapply yields_bind; [apply yields_any|]. intros dataBuffer _.
  eapply yields_bind; [apply yields_any|]. intros pdfData _.
  destruct (usable pdfData) eqn:U1; [by apply yields_ret, usable_long|].
  apply (yields_bind (λ returned, ∀ t, returned = Some t → long_enough t = true)).
  - apply yields_try_catch; [|intros e; by apply yields_ret].
    eapply yields_bind; [apply yields_any|]. intros text _.
    destruct (usable text) eqn:U2; apply yields_ret; [|done].
    intros t [= <-]. by apply usable_long.
  - intros [t|] Ht; [by apply yields_ret, Ht|].
    eapply yields_bind; [apply yields_any|]. intros text _.
    destruct (usable text) eqn:U3; [by apply yields_ret, usable_long|].
    apply yields_throw.
Qed.

Lemma long_enough_not_too_short text :
  long_enough text = true → too_short (Some text) = false.
Proof.
  intros H. unfold too_short. rewrite (long_enough_truthy _ H). cbn [negb orb].
  unfold long_enough in H. apply Nat.ltb_lt in H. apply Nat.ltb_ge. lia.
Qed.

(** ** processPdf (lines 120-163) *)

(** X18.  Whatever the extractors do, a text that processPdf returns has a
    trimmed length above 50, so the test of line 231 never rejects it; the
    file existed when processPdf was called; processPdf changed no file
    and invoked nothing but extractors. *)
Theorem processPdf_returns_only_long_text h filePath s text s' :
  processPdf h filePath s = (inr text, s') →
  (50 < length (trim text))%nat ∧
  too_short (Some text) = false ∧
  filePath ∈ files s ∧
  grows_by is_extract s s'.
Proof.
  intros E.
  pose proof (yields_processPdf h filePath s text s' E) as Hlong.
  split; [by apply Nat.ltb_lt|]. split; [by apply long_enough_not_too_short|].
  split; [|pose proof (keeps_processPdf h filePath s) as Hk; by rewrite E in Hk].
  destruct (decide (filePath ∈ files s)) as [Hin|Hout]; [done|].
  unfold processPdf, try_catch in E. unfold mbind at 1, M_bind at 1 in E.
  unfold readFileSync in E. rewrite bool_decide_eq_false_2 in E by done.
  discriminate E.
Qed.

Lemma Destructure_other v key key' source x :
  Destructure v key source = inr x → ∃ y, Destructure v key' source = inr y.
Proof. destruct v; try done; cbn; eauto. Qed.

Lemma generate_analysis_pdf_run h c req_body calls :
  generate_analysis_pdf h c req_body calls =
  match Destructure req_body (lit "analysisData") (lit "req.body") with
  | inl _ => (inr pdf_failed, calls)
  | inr analysisData =>
      match puppeteer_launch c with
      | Some _ => (inr pdf_failed, calls ++ [Launch])
      | None =>
          match browser_newPage c with
          | Some _ => (inr pdf_failed, calls ++ [Launch; NewPage])
          | None =>
              match htmlTemplate h c analysisData with
              | inl _ => (inr pdf_failed, calls ++ [Launch; NewPage])
              | inr html =>
                  match page_setContent c html with
                  | Some _ =>
                      (inr pdf_failed, calls ++ [Launch; NewPage; SetContent html])
                  | None =>
                      match page_pdf c html with
                      | inl _ =>
                          (inr pdf_failed,
                           calls ++ [Launch; NewPage; SetContent html; PrintPdf])
                      | inr pdfBuffer =>
                          (inr match browser_close c with
                               | Some _ => pdf_failed
                               | None =>
                                   mkResponse 200
                                     (Attachment (lit "application/pdf")
                                        report_disposition pdfBuffer)
                               end,
                           calls ++ [Launch; NewPage; SetContent html; PrintPdf; Close])
                      end
                  end
              end
          end
      end
  end.
Proof.
  unfold generate_analysis_pdf, catching.
  unfold mbind at 1, Browsing_bind at 1, pure_step at 1.
  destruct (Destructure req_body (lit "analysisData") _) as [e|analysisData] eqn:Hd;
    [done|].
  destruct (Destructure_other _ _ (lit "resumeData") _ _ Hd) as [resumeData Hr].
  unfold mbind at 1, Browsing_bind at 1, pure_step at 1. rewrite Hr.
  unfold mbind, Browsing_bind, await_call, pure_step, settled, mret, Browsing_ret.
  destruct (puppeteer_launch c); [done|].
  destruct (browser_newPage c); [by rewrite <- app_assoc|].
  destruct (htmlTemplate h c analysisData) as [e|html]; [by rewrite <- app_assoc|].
  destruct (page_setContent c html); [by rewrite <- !app_assoc|].
  destruct (page_pdf c html); [by rewrite <- !app_assoc|].
  destruct (browser_close c); by rewrite <- !app_assoc.
Qed.

Lemma map_join_inr v expr f s :
  map_join v expr f = inr s → ∃ elems, v = Arr elems.
Proof. destruct v; try done. eauto. Qed.

Lemma htmlTemplate_inr h c analysisData html :
  htmlTemplate h c analysisData = inr html →
  ∃ cats sugs,
    Get analysisData (lit "categories") = inr (Arr cats) ∧
    Get analysisData (lit "suggestions") = inr (Arr sugs).
Proof.
  unfold htmlTemplate. intros H. bind_inv H.
  apply map_join_inr in E2 as [cats ->]. apply map_join_inr in E4 as [sugs ->].
  eauto.
Qed.

Ltac not_in :=
  repeat (apply not_elem_of_cons; split; [done|]); apply not_elem_of_nil.

Lemma unusable_usable text : unusable text → usable text = false.
Proof.
  destruct text as [t|]; [|done]. intros H. rewrite usable_Some.
  unfold long_enough. apply Nat.ltb_ge. by apply H.
Qed.

Lemma processPdf_exhausted h filePath s dataBuffer text :
  filePath ∈ files s → read_file h filePath = inr dataBuffer →
  usable (pdf_parse_output h dataBuffer) = false →
  usable (pdftotext_output h filePath) = false →
  createWorker (ocr h) = None → loadLanguage (ocr h) = None →
  initialize (ocr h) = None → recognize (ocr h) filePath = inr text →
  terminate (ocr h) = None → usable text = false →
  processPdf h filePath s =
  (inl (mkError PlainError no_method),
   mkState (files s)
     (events s ++ [Extract PdfParseLib; Extract PdftotextLib; Extract TesseractLib])).
Proof.
  intros Hin Hread U1 U2 W1 W2 W3 Hrec W4 U3.
  unfold processPdf. unfold try_catch at 1, mbind at 1, M_bind at 1.
  rewrite readFileSync_existing, Hread by done.
  unfold call_pdfParse, call_pdftotext, call_tesseract.
  unfold try_catch, mbind, M_bind, mret, M_ret, mthrow, M_throw, lift,
    emit, await_void.
  unfold pdf_parse_output in U1. unfold pdftotext_output in U2.
  cbn [files events].
  destruct (pdfParse h dataBuffer) as [e1|t1]; cbn [files events];
    [change (usable (Some (lit ""))) with false | rewrite U1]; cbv beta iota;
    (destruct (pdftotext_getText h filePath) as [e2|t2]; cbn [files events];
     [|rewrite U2]; cbv beta iota;
     rewrite W1, W2, W3, Hrec, W4; unfold mret, M_ret; cbv beta iota;
     rewrite U3; cbn [files events]; rewrite <- !app_assoc; reflexivity).
Qed.

(** X25.  A PDF that can be read, from which pdf-parse and pdftotextjs
    obtain no text with a trimmed length above 50 (or fail) and on which
    the OCR run goes through and obtains no such text either, is answered
    500 with "Failed to analyze resume: PDF could not be processed by any
    method", not 400; the LLM is not called. *)
Theorem textless_pdf_is_answered_500 h file s dataBuffer text :
  upload_mimetype file = ApplicationPdf →
  upload_path file ∈ files s →
  read_file h (upload_path file) = inr dataBuffer →
  unusable (pdf_parse_output h dataBuffer) →
  unusable (pdftotext_output h (upload_path file)) →
  createWorker (ocr h) = None → loadLanguage (ocr h) = None →
  initialize (ocr h) = None →
  recognize (ocr h) (upload_path file) = inr text →
  terminate (ocr h) = None →
  unusable text →
  ∃ s2 added,
    feedback_handler h file s =
      (inr (mkResponse 500
              (Failure (lit "Failed to analyze resume: " ++ no_method))), s2) ∧
    events s2 = events s ++ added ∧
    ∀ messages, CallLLM messages ∉ added.
Proof.
  intros Hpdf Hin Hread U1%unusable_usable U2%unusable_usable W1 W2 W3 Hrec W4
    U3%unusable_usable.
  pose proof (processPdf_exhausted h (upload_path file) s dataBuffer text
                Hin Hread U1 U2 W1 W2 W3 Hrec W4 U3) as Hp.
  set (s1 := mkState (files s) _) in Hp.
  assert (Hext : extract_text h file s = (inl (mkError PlainError no_method), s1)).
  { unfold extract_text. rewrite Hpdf. unfold mbind, M_bind. by rewrite Hp. }
  apply (feedback_without_llm h file s (inl (mkError PlainError no_method)) s1);
    [done|].
  unfold try_catch, feedback_try. unfold mbind at 1, M_bind at 1.
  rewrite Hext. reflexivity.
Qed.

(** ** POST /api/generate-analysis-pdf (lines 393-460) *)

(** X19.  The handler never throws.  It answers 500 { error: "Failed to
    generate PDF" }, or 200 with the PDF that the browser printed from the
    rendered template; the latter only if [analysisData.categories] and
    [analysisData.suggestions] are arrays, and then the browser was
    launched, given a page with the template, made to print and closed, in
    that order.  The browser is closed only after it has printed: an
    answer 500 comes with the browser not closed, unless closing itself is
    what failed. *)
Theorem analysis_pdf_always_answers h c req_body calls :
  ∃ resp added,
    generate_analysis_pdf h c req_body calls = (inr resp, calls ++ added) ∧
    (resp = pdf_failed ∨
     ∃ analysisData html pdfBuffer cats sugs,
       Destructure req_body (lit "analysisData") (lit "req.body") = inr analysisData ∧
       Get analysisData (lit "categories") = inr (Arr cats) ∧
       Get analysisData (lit "suggestions") = inr (Arr sugs) ∧
       htmlTemplate h c analysisData = inr html ∧
       page_pdf c html = inr pdfBuffer ∧
       resp = mkResponse 200
                (Attachment (lit "application/pdf") report_disposition pdfBuffer) ∧
       added = [Launch; NewPage; SetContent html; PrintPdf; Close]) ∧
    (Close ∈ added → PrintPdf ∈ added) ∧
    (status resp = 500%nat → browser_close c = None → Close ∉ added).
Proof.
  rewrite generate_analysis_pdf_run.
  destruct (Destructure req_body _ _) as [e|analysisData] eqn:Hd.
  { exists pdf_failed, []. rewrite app_nil_r.
    repeat split; auto; intros; apply not_elem_of_nil || by apply elem_of_nil in H. }
  destruct (puppeteer_launch c).
  { eexists _, _. split; [reflexivity|]. split; [by left|]. split; [|intros _ _; not_in].
    intros H. exfalso. revert H. not_in. }
  destruct (browser_newPage c).
  { eexists _, _. split; [reflexivity|]. split; [by left|]. split; [|intros _ _; not_in].
    intros H. exfalso. revert H. not_in. }
  destruct (htmlTemplate h c analysisData) as [e|html] eqn:Ht.
  { eexists _, _. split; [reflexivity|]. split; [by left|]. split; [|intros _ _; not_in].
    intros H. exfalso. revert H. not_in. }
  destruct (page_setContent c html).
  { eexists _, _. split; [reflexivity|]. split; [by left|]. split; [|intros _ _; not_in].
    intros H. exfalso. revert H. not_in. }
  destruct (page_pdf c html) as [e|pdfBuffer] eqn:Hp.
  { eexists _, _. split; [reflexivity|]. split; [by left|]. split; [|intros _ _; not_in].
    intros H. exfalso. revert H. not_in. }
  eexists _, _. split; [reflexivity|].
  destruct (htmlTemplate_inr _ _ _ _ Ht) as (cats & sugs & Hc & Hs).
  split; [|split].
  - destruct (browser_close c); [by left|]. right. eauto 12.
  - intros _. do 3 apply list_elem_of_further. apply list_elem_of_here.
  - destruct (browser_close c); [done|]. done.
Qed.

(** X20.  The browser is launched before the request is looked at: when
    [analysisData.categories] or [analysisData.suggestions] is no array,
    and launching the browser and opening a page succeed, the handler
    answers 500 after these two calls and never closes the browser. *)
Theorem failed_template_leaves_the_browser_open h c req_body calls analysisData :
  Destructure req_body (lit "analysisData") (lit "req.body") = inr analysisData →
  (∀ cats, Get analysisData (lit "categories") ≠ inr (Arr cats)) ∨
  (∀ sugs, Get analysisData (lit "suggestions") ≠ inr (Arr sugs)) →
  puppeteer_launch c = None → browser_newPage c = None →
  generate_analysis_pdf h c req_body calls =
  (inr pdf_failed, calls ++ [Launch; NewPage]).
Proof.
  intros Hd Hno Hl Hn. rewrite generate_analysis_pdf_run, Hd, Hl, Hn.
  destruct (htmlTemplate h c analysisData) as [e|html] eqn:Ht; [done|].
  destruct (htmlTemplate_inr _ _ _ _ Ht) as (cats & sugs & Hc & Hs).
  destruct Hno as [Hno|Hno]; [by destruct (Hno cats) | by destruct (Hno sugs)].
Qed.

(** ** The upload filter (lines 40-52) and the switch of lines 216-228 *)

(** X21.  The filter of multer accepts a MIME type exactly when one of the
    three [case] labels of the feedback handler equals it, and refuses
    every other value with "Invalid file type. Only PDF, DOCX, and TXT
    files are allowed.": behind the filter the [default] branch
    ("Unsupported file type") is never taken. *)
Theorem fileFilter_admits_what_the_switch_handles file_mimetype :
  (fileFilter file_mimetype = inr true ↔ mimetype_case file_mimetype ≠ OtherType) ∧
  (fileFilter file_mimetype = inl invalid_file_type ↔
   mimetype_case file_mimetype = OtherType) ∧
  (fileFilter file_mimetype = inr true ∨ fileFilter file_mimetype = inl invalid_file_type).
Proof.
  unfold fileFilter, mimetype_case, Array_includes, allowedTypes.
  cbn [existsb]. destruct file_mimetype as [| |b|n|t|elems|props];
    try (cbn; repeat split; auto; done).
  cbn [SameValueZero is_literal]. unfold jsstring_eqb.
  rewrite orb_false_r.
  assert (Hsym : ∀ a : jsstring, bool_decide (a = t) = bool_decide (t = a)).
  { intros a. apply bool_decide_ext. split; by intros ->. }
  rewrite !Hsym.
  destruct (bool_decide (t = lit "application/pdf"));
    [cbn; repeat split; auto; done|].
  destruct (bool_decide (t = lit "application/vnd.openxmlformats-officedocument.wordprocessingml.document"));
    [cbn; repeat split; auto; done|].
  destruct (bool_decide (t = lit "text/plain")); cbn; repeat split; auto; done.
Qed.

(** ** These theorems at work on concrete requests *)

Lemma sanitize_throws_witness : sanitize_error null_property.
Proof.
  exact (sanitize_throws_type_errors calm_host Null null_property eq_refl).
Defined.

Lemma llm_timeout_witness :
  ∃ s2, feedback_handler slow_host cv_txt disk =
          (inr (mkResponse 504 (Failure analysis_timeout)), s2).
Proof.
  refine (proj1 (llm_timeout_is_answered_504 slow_host cv_txt disk
                   (Some sixty_letters) disk _ _) network_timeout _ _);
    vm_compute; reflexivity.
Defined.

Lemma unparseable_reply_witness :
  ∃ s3, feedback_handler chatty_host cv_txt disk =
          (inr (mkResponse 500 (Failure results_unreadable)), s3).
Proof.
  refine (unparseable_reply_is_answered_500 chatty_host cv_txt disk
            (Some sixty_letters) disk (Str prose)
            (mkState (files disk)
               [CallLLM (feedback_messages chatty_host sixty_letters)]) _ _ _ _);
    vm_compute; reflexivity.
Defined.

Lemma malformed_reply_witness :
  kind null_property = TypeError ∧
  ∃ s3, feedback_handler null_host cv_txt disk =
          (inr (mkResponse 500
                  (Failure (lit "Failed to analyze resume: " ++ message null_property))),
           s3).
Proof.
  refine (malformed_reply_is_answered_500 null_host cv_txt disk
            (Some sixty_letters) disk (Str (lit "null"))
            (mkState (files disk)
               [CallLLM (feedback_messages null_host sixty_letters)])
            Null null_property _ _ _ _ _);
    vm_compute; reflexivity.
Defined.

Lemma blank_prompt_witness :
  resume_generate calm_host blank_body disk =
    (inr (mkResponse 400 (ErrorOnly please_provide)), disk).
Proof.
  apply (proj1 (blank_prompt_is_rejected calm_host blank_body disk
                  (Str (lit "   ")) eq_refl)).
  right. exists (lit "   "). split; reflexivity.
Defined.

Lemma upstream_text_witness :
  (resume_generate chatty_host career_body disk).1 =
    inr (mkResponse 500 (ErrorOnly (lit "Invalid JSON returned by Groq: " ++ prose))).
Proof.
  refine (proj2 (resume_generate_echoes_upstream_text chatty_host career_body disk
                   (lit "Nurse, five years in intensive care") eq_refl _)
            prose _ eq_refl eq_refl);
    vm_compute; discriminate.
Defined.

Lemma unusable_name_witness :
  generate_doc calm_host numbered_body disk =
    (inr (mkResponse 500
            (ErrorOnly (lit "Failed to generate DOC: resumeData.name.replace is not a function"))),
     disk).
Proof.
  refine (unusable_name_fails_generate_doc calm_host numbered_body disk
            (Obj [ (lit "name", Num (num_of_Z 7)) ]) (Num (num_of_Z 7))
            eq_refl eq_refl eq_refl eq_refl _).
  intros str. discriminate.
Defined.

Lemma scores_follow_the_clamp_witness :
  ∃ overall ats,
    Get zero_reply (lit "overallScore") ≫= Number_ calm_host = inr overall ∧
    Get zero_reply (lit "atsScore") ≫= Number_ calm_host = inr ats ∧
    overallScore zero_reply_sanitized = clamped 50 0 100 overall ∧
    atsScore zero_reply_sanitized = clamped 60 0 100 ats.
Proof.
  exact (scores_follow_the_clamp calm_host zero_reply zero_reply_sanitized eq_refl).
Defined.

Lemma categories_witness :
  ∃ cats,
    Get zero_reply (lit "categories") = inr cats ∧
    match cats with
    | Arr elems =>
        length (categories zero_reply_sanitized) = length elems ∧
        ∀ i cat, elems !! i = Some cat →
          ∃ c score,
            categories zero_reply_sanitized !! i = Some c ∧
            Get cat (lit "score") ≫= Number_ calm_host = inr score ∧
            cat_score c = clamped 5 0 10 score ∧
            (Get cat (lit "name") ≫=
               λ v, String_ calm_host (or_else v (Str (lit "Uncategorized"))))
              = inr (cat_name c)
    | _ => categories zero_reply_sanitized = default_categories
    end.
Proof.
  exact (categories_are_mapped_one_to_one calm_host zero_reply
           zero_reply_sanitized eq_refl).
Defined.

Lemma symbols_only_name_witness :
  generate_doc calm_host symbols_body disk =
    (inr (mkResponse 200
            (Attachment docx_type (content_disposition [] (lit ".docx")) (lit "PK"))),
     disk).
Proof.
  refine (symbols_only_name_gives_empty_file_name calm_host symbols_body disk
            (Obj [ (lit "name", Str (lit "!?!")) ]) (lit "!?!") (lit "PK")
            eq_refl eq_refl eq_refl _ _ eq_refl).
  - discriminate.
  - repeat constructor.
Defined.

Lemma processPdf_long_text_witness :
  (50 < length (trim sixty_letters))%nat ∧
  too_short (Some sixty_letters) = false ∧
  upload_path cv_pdf ∈ files disk ∧
  grows_by is_extract disk (mkState (files disk) [Extract PdfParseLib]).
Proof.
  refine (processPdf_returns_only_long_text text_pdf_host (upload_path cv_pdf)
            disk sixty_letters (mkState (files disk) [Extract PdfParseLib]) _).
  vm_compute. reflexivity.
Defined.

Lemma textless_pdf_witness :
  ∃ s2 added,
    feedback_handler calm_host cv_pdf disk =
      (inr (mkResponse 500
              (Failure (lit "Failed to analyze resume: " ++ no_method))), s2) ∧
    events s2 = events disk ++ added ∧
    ∀ messages, CallLLM messages ∉ added.
Proof.
  refine (textless_pdf_is_answered_500 calm_host cv_pdf disk sixty_letters
            (Some (lit "")) eq_refl cv_pdf_on_disk eq_refl _ _
            eq_refl eq_refl eq_refl eq_refl eq_refl _);
    intros t [= <-]; vm_compute; lia.
Defined.

Lemma failed_template_witness :
  generate_analysis_pdf calm_host idle_chrome (Obj []) [] =
    (inr pdf_failed, [Launch; NewPage]).
Proof.
  refine (failed_template_leaves_the_browser_open calm_host idle_chrome (Obj []) []
            Undefined eq_refl _ eq_refl eq_refl).
  left. intros cats. discriminate.
Defined.

(** * utils/jobFetcher.js *)

Import JobFetcher.

Lemma simplified_inr job j :
  simplified job = inr j →
  Get job (lit "title") = inr (job_title j) ∧
  Get job (lit "company_name") = inr (job_company j) ∧
  (∃ loc, Get job (lit "candidate_required_location") = inr loc ∧
          job_location j = or_else loc (Str (lit "Remote"))) ∧
  Get job (lit "url") = inr (job_url j) ∧
  job_platform j = lit "Remotive".
Proof.
  unfold simplified. intros H. bind_inv H. injection H as <-. cbn. eauto 10.
Qed.

Lemma or_else_truthy a b : ToBoolean b = true → ToBoolean (or_else a b) = true.
Proof. intros Hb. unfold or_else. by destruct (ToBoolean a) eqn:E. Qed.

Lemma first_ten_inr data jobs :
  first_ten data = inr jobs →
  ∃ elems, Get data (lit "jobs") = inr (Arr elems) ∧
           Forall2 (λ job j, simplified job = inr j) (take 10 elems) jobs.
Proof.
  unfold first_ten. intros H. apply bind_inr in H as (v & Hv & H).
  destruct v; try done. exists elems. split; [done|]. by apply mapM_inr.
Qed.

Lemma fetchJobs_nonempty r jobTitle skills :
  (fetchJobs r jobTitle skills).1 ≠ [] →
  ∃ url data,
    job_url_of r jobTitle skills = inr url ∧
    fetch_url r url = Data data ∧
    first_ten data = inr (fetchJobs r jobTitle skills).1 ∧
    (fetchJobs r jobTitle skills).2 = [url].
Proof.
  unfold fetchJobs, fetchJobs_try.
  destruct (job_url_of r jobTitle skills) as [e|url]; [done|].
  unfold jobs_of. destruct (fetch_url r url) as [e|st|e|data] eqn:Hf; try done.
  destruct (first_ten data) as [e|jobs] eqn:E; [done|].
  intros _. exists url, data. by rewrite Hf, E.
Qed.

(** X22.  fetchJobs resolves with at most ten entries; each has the
    platform "Remotive" and a truthy location.  It sends at most one
    request, to the search URL of Remotive, and none when the query cannot
    be built (then it resolves with no entry). *)
Theorem fetchJobs_gives_at_most_ten r jobTitle skills :
  (length (fetchJobs r jobTitle skills).1 ≤ 10)%nat ∧
  Forall (λ j, job_platform j = lit "Remotive" ∧ ToBoolean (job_location j) = true)
    (fetchJobs r jobTitle skills).1 ∧
  match job_url_of r jobTitle skills with
  | inr url =>
      (fetchJobs r jobTitle skills).2 = [url] ∧ ∃ query, url = search_url ++ query
  | inl _ => fetchJobs r jobTitle skills = ([], [])
  end.
Proof.
  assert (Hjobs : (fetchJobs r jobTitle skills).1 = [] ∨
    ∃ data elems,
      Get data (lit "jobs") = inr (Arr elems) ∧
      Forall2 (λ job j, simplified job = inr j) (take 10 elems)
        (fetchJobs r jobTitle skills).1).
  { destruct ((fetchJobs r jobTitle skills).1) as [|j l] eqn:E; [by left|]. right.
    destruct (fetchJobs_nonempty r jobTitle skills) as (url & data & _ & _ & Hf & _);
      [by rewrite E|].
    rewrite E in Hf. apply first_ten_inr in Hf as (elems & ? & ?). eauto. }
  split; [|split].
  - destruct Hjobs as [-> | (data & elems & _ & H)]; [cbn; lia|].
    apply Forall2_length in H. rewrite <- H, length_take. lia.
  - destruct Hjobs as [-> | (data & elems & _ & H)]; [constructor|].
    induction H as [|job j ? ? Hj _ IH]; constructor; [|done].
    apply simplified_inr in Hj as (_ & _ & (loc & _ & ->) & _ & ->).
    split; [done|]. by apply or_else_truthy.
  - unfold fetchJobs, fetchJobs_try.
    destruct (job_url_of r jobTitle skills) as [e|url] eqn:Hu; [done|].
    split; [by destruct (jobs_of r (fetch_url r url))|].
    unfold job_url_of in Hu. bind_inv Hu. injection Hu as <-. eauto.
Qed.

(** X23.  When fetchJobs resolves with entries, the response was ok and its
    JSON has an array [jobs]; the entries are its first ten elements
    simplified, in order: title, company_name and url as they are, and
    "Remote" for a falsy candidate_required_location.  It is all or
    nothing: if one of the first ten elements is [null], fetchJobs resolves
    with no entry at all. *)
Theorem fetchJobs_simplifies_the_first_ten r jobTitle skills url data elems :
  job_url_of r jobTitle skills = inr url →
  fetch_url r url = Data data →
  Get data (lit "jobs") = inr (Arr elems) →
  ((fetchJobs r jobTitle skills).1 = [] ∨
   (length (fetchJobs r jobTitle skills).1 = min 10 (length elems) ∧
    ∀ i job, (i < 10)%nat → elems !! i = Some job →
      ∃ j loc,
        (fetchJobs r jobTitle skills).1 !! i = Some j ∧
        Get job (lit "title") = inr (job_title j) ∧
        Get job (lit "company_name") = inr (job_company j) ∧
        Get job (lit "url") = inr (job_url j) ∧
        Get job (lit "candidate_required_location") = inr loc ∧
        job_location j = or_else loc (Str (lit "Remote")))) ∧
  (∀ i, (i < 10)%nat → elems !! i = Some Null →
        (fetchJobs r jobTitle skills).1 = []).
Proof.
  intros Hu Hf Hg.
  assert (Hrun : (fetchJobs r jobTitle skills).1 =
                 match mapM simplified (take 10 elems) with
                 | inr jobs => jobs
                 | inl _ => []
                 end).
  { unfold fetchJobs, fetchJobs_try. rewrite Hu, Hf. unfold jobs_of, first_ten.
    rewrite Hg. cbn [mbind result_bind].
    by destruct (mapM simplified (take 10 elems)). }
  rewrite Hrun. destruct (mapM simplified (take 10 elems)) as [e|jobs] eqn:Hm.
  { split; [by left | done]. }
  apply mapM_inr in Hm. split.
  - right. split.
    + rewrite <- (Forall2_length _ _ _ Hm), length_take. lia.
    + intros i job Hi Hjob.
      assert (Ht : take 10 elems !! i = Some job) by (by rewrite lookup_take_lt).
      destruct (Forall2_lookup_l _ _ _ _ _ Hm Ht) as (j & Hj & Hs).
      apply simplified_inr in Hs as (? & ? & (loc & ? & ?) & ? & _). eauto 10.
  - intros i Hi Hnull.
    assert (Ht : take 10 elems !! i = Some Null) by (by rewrite lookup_take_lt).
    destruct (Forall2_lookup_l _ _ _ _ _ Hm Ht) as (j & _ & Hs). done.
Qed.

Lemma fetchJobs_witness :
  (fetchJobs (service (Null :: replicate 12 listed_job))
     (Str (lit "engineer")) Undefined).1 = [].
Proof.
  apply (proj2 (fetchJobs_simplifies_the_first_ten
                  (service (Null :: replicate 12 listed_job))
                  (Str (lit "engineer")) Undefined
                  (search_url ++ lit "engineer")
                  (Obj [ (lit "jobs", Arr (Null :: replicate 12 listed_job)) ])
                  (Null :: replicate 12 listed_job) eq_refl eq_refl eq_refl) 0%nat);
    [lia | reflexivity].
Defined.

(** The service lists twelve jobs: the first ten are simplified. *)
Example fetchJobs_at_work :
  fetchJobs (service (replicate 12 listed_job)) (Str (lit "engineer")) Undefined =
    (replicate 10 listed_job_simplified, [search_url ++ lit "engineer"]).
Proof. reflexivity. Qed.
